(** * Event-window video extraction: a shallow embedding

    The development follows the four extraction scripts of the repository:
    - [preprocess/extract_clips_frames.py]        (flat layout, one video),
    - [preprocess/newExtractFrames.py]            (routed by comment type),
    - [preprocess/extract_clips_frames_label.py]  (routed by sanitized event name),
    - [soccerProjNewCode-1.py]                    (batch over match folders).

    Modelling conventions.
    - A Python [str] is a [string]; its characters are the bytes of ASCII
      text.  [\d], [\s], [str.strip] and [str.lower] are modelled on ASCII.
    - Seconds and frame rates are exact rationals ([Q]); the binary rounding
      of IEEE products is not part of the model.  [round] is Python 3's
      round-half-to-even, [int] truncates toward zero.
    - [print], the video writer and [cv2.imwrite] are recorded in an effect
      trace; exceptions are values of the error monad [M]. *)

From Stdlib Require Import ZArith QArith Qround Qminmax Qpower Qabs Ascii String List Bool Lia Lqa.
From stdpp Require Import base decidable list strings pretty gmap sets.
From Equations Require Import Equations.

Import ListNotations.
Local Open Scope Z_scope.
Set Warnings "-clear-no-such-hyp".

(** ** Characters and strings *)

Definition code (c : ascii) : N := N_of_ascii c.

(** [\d] on ASCII text. *)
Definition is_digit (c : ascii) : bool :=
  ((48 <=? code c) && (code c <=? 57))%N.

(** [str.isspace] on ASCII text: TAB, LF, VT, FF, CR, FS, GS, RS, US, SPACE. *)
Definition is_space (c : ascii) : bool :=
  (((9 <=? code c) && (code c <=? 13)) || ((28 <=? code c) && (code c <=? 32)))%N.

Definition is_upper (c : ascii) : bool :=
  ((65 <=? code c) && (code c <=? 90))%N.

Definition is_lower (c : ascii) : bool :=
  ((97 <=? code c) && (code c <=? 122))%N.

Definition lower_char (c : ascii) : ascii :=
  if is_upper c then ascii_of_N (code c + 32) else c.

Definition digit_val (c : ascii) : Z := Z.of_N (code c) - 48.

Fixpoint lstrip (s : list ascii) : list ascii :=
  match s with
  | c :: s' => if is_space c then lstrip s' else s
  | [] => []
  end.

Definition rstrip (s : list ascii) : list ascii := rev (lstrip (rev s)).

(** [s.strip()] *)
Definition strip (s : list ascii) : list ascii := rstrip (lstrip s).

(** Longest prefix satisfying [p], and the rest. *)
Fixpoint span (p : ascii → bool) (s : list ascii) : list ascii * list ascii :=
  match s with
  | c :: s' =>
      if p c then let '(a, b) := span p s' in (c :: a, b) else ([], s)
  | [] => ([], [])
  end.

(** [int(g)] for a group [g] matched by [\d+]. *)
Definition int_of_digits (g : list ascii) : Z :=
  fold_left (λ acc c, 10 * acc + digit_val c) g 0.

(** ** Exceptions *)

Inductive exn : Type :=
  | ValueError (msg : string) (arg : string)
  | OtherException (msg : string)
  | SystemExit (status : Z).

Inductive result (A : Type) : Type :=
  | Ok (a : A)
  | Raise (e : exn).
Arguments Ok {A} a.
Arguments Raise {A} e.

Definition is_ValueError (e : exn) : bool :=
  match e with ValueError _ _ => true | _ => false end.

(** ** Timestamp parser ([parse_time_stamp], identical in the four scripts) *)

(** The groups of [re.fullmatch(r'(\d+)(?:\+(\d+))?:(\d{2})', s)].  After
    [\d+] the pattern demands a non-digit, so the greedy match is the longest
    digit run and no backtracking can succeed where this fails. *)
Definition two_digits (s : list ascii) : bool :=
  match s with
  | [a; b] => is_digit a && is_digit b
  | _ => false
  end.

Definition fullmatch_time_stamp (s : list ascii)
  : option (list ascii * option (list ascii) * list ascii) :=
  let '(g1, r1) := span is_digit s in
  match g1 with
  | [] => None
  | _ :: _ =>
      match r1 with
      | "+"%char :: r2 =>
          let '(g2, r3) := span is_digit r2 in
          match g2, r3 with
          | _ :: _, ":"%char :: g3 =>
              if two_digits g3 then Some (g1, Some g2, g3) else None
          | _, _ => None
          end
      | ":"%char :: g3 =>
          if two_digits g3 then Some (g1, None, g3) else None
      | _ => None
      end
  end.

Definition parse_time_stamp (mm_ss : string) : result Z :=
  match mm_ss with
  | EmptyString => Raise (ValueError "Empty timestamp" mm_ss)
  | _ =>
      match fullmatch_time_stamp (strip (list_ascii_of_string mm_ss)) with
      | None => Raise (ValueError "Unrecognized time format" mm_ss)
      | Some (g1, g2, g3) =>
          let mm := int_of_digits g1 in
          let added := match g2 with Some g => int_of_digits g | None => 0 end in
          let ss := int_of_digits g3 in
          Ok ((mm + added) * 60 + ss)
      end
  end.

(** ** Numbers: Python's [round], [int], [max], [min], [range] *)

Local Open Scope Q_scope.

(** [round(x)]: nearest integer, ties to the even one. *)
Definition py_round (x : Q) : Z :=
  let f := Qfloor x in
  match Qcompare (x - inject_Z f)%Q (1 # 2)%Q with
  | Lt => f
  | Gt => (f + 1)%Z
  | Eq => if Z.even f then f else (f + 1)%Z
  end.

(** [int(x)]: truncation toward zero. *)
Definition py_int (x : Q) : Z := Z.quot (Qnum x) (Zpos (Qden x)).

(** [max(a, b)] and [min(a, b)] return the first argument unless the second
    is strictly better. *)
Definition py_max (a b : Q) : Q := if Qlt_le_dec a b then b else a.
Definition py_min (a b : Q) : Q := if Qlt_le_dec b a then b else a.

(** [range(start, stop, step)] for a positive step. *)
Definition py_range (start stop step : Z) : list Z :=
  (λ k, start + k * step)%Z <$> seqZ 0 ((stop - start + step - 1) / step)%Z.

(** ** Binary64 floating point

    Python's [float] is the IEEE 754 double: every arithmetic operation
    yields the double nearest to the exact result, ties to the even
    significand.  Overflow to infinity is not modelled. *)

(** [2 ^ e] for an integer [e] of either sign. *)
Definition pow2 (e : Z) : Q := 2 ^ e.

(** [floor (log2 x)] for [x > 0]. *)
Definition ilog2 (x : Q) : Z :=
  let e := (Z.log2 (Qnum x) - Z.log2 (Z.pos (Qden x)))%Z in
  if Qle_bool (pow2 e) x then e else (e - 1)%Z.

(** The exponent of the last place of the double nearest to [x > 0]: 53
    significant bits, and never below that of the subnormal numbers. *)
Definition b64_exponent (x : Q) : Z := Z.max (ilog2 x - 52) (-1074).

Definition b64_pos (x : Q) : Q :=
  let e := b64_exponent x in
  inject_Z (py_round (x / pow2 e)) * pow2 e.

(** The double nearest to [x], ties to the even significand. *)
Definition b64 (x : Q) : Q :=
  match Qcompare x 0 with
  | Eq => 0
  | Gt => b64_pos x
  | Lt => - b64_pos (- x)
  end.

(** ** Configuration constants *)

Definition CLIP_BEFORE_SEC : Q := 15.
Definition CLIP_AFTER_SEC : Q := 15.
Definition FRAME_SAMPLING_EVERY_SEC : Z := 1.

(** ** Window computation (first lines of every [write_clip_and_frames]) *)

Record Window : Type := mkWindow {
  start_sec : Q;
  end_sec : Q;
  start_f : Z;
  end_f : Z;
}.

Definition window_of (fps duration_sec center_sec before_sec after_sec : Q) : Window :=
  let start_sec := py_max 0 (center_sec - before_sec) in
  let end_sec := py_min duration_sec (center_sec + after_sec) in
  {| start_sec := start_sec;
     end_sec := end_sec;
     start_f := py_round (start_sec * fps);
     end_f := py_round (end_sec * fps) |}.

(** The window as the interpreter computes it, in binary64: the difference,
    the sum and the two products are rounded to the nearest double before
    [round] is taken.  [window_of] is the same computation in exact
    arithmetic. *)
Definition window_of_b64 (fps duration_sec center_sec before_sec after_sec : Q) : Window :=
  let start_sec := py_max 0 (b64 (center_sec - before_sec)) in
  let end_sec := py_min duration_sec (b64 (center_sec + after_sec)) in
  {| start_sec := start_sec;
     end_sec := end_sec;
     start_f := py_round (b64 (start_sec * fps));
     end_f := py_round (b64 (end_sec * fps)) |}.

(** [duration_sec = total_frames / fps if fps > 0 else 0.0] *)
Definition duration_of (fps : Q) (total_frames : Z) : Q :=
  if Qlt_le_dec 0 fps then inject_Z total_frames / fps else 0.

(** ** Sample sets ([save_idxs]) *)

(** [extract_clips_frames.py], [newExtractFrames.py] and
    [soccerProjNewCode-1.py]: the range runs over the nominal clip length
    [int(after_sec + before_sec)]. *)
Definition save_idxs_nominal (fps : Q) (w : Window) (before_sec after_sec : Q) : gset Z :=
  let total_range := py_int (after_sec + before_sec) in
  list_to_set
    ((λ i, py_round ((start_sec w + inject_Z i) * fps))
       <$> py_range 0 (total_range + 1) FRAME_SAMPLING_EVERY_SEC).

(** [extract_clips_frames_label.py]: the range runs over the rounded length
    of the clamped window. *)
Definition save_idxs_window (fps : Q) (w : Window) : gset Z :=
  list_to_set
    ((λ t, py_round ((start_sec w + inject_Z t) * fps))
       <$> py_range 0 (py_round (end_sec w - start_sec w) + 1) FRAME_SAMPLING_EVERY_SEC).

(** ** Output names *)

Local Open Scope Z_scope.

Definition digits_of (n : Z) : list ascii := list_ascii_of_string (pretty (Z.to_N n)).

(** Zero padding on the left up to [width] characters. *)
Definition zfill (width : nat) (s : list ascii) : list ascii :=
  replicate (width - length s)%nat "0"%char ++ s.

(** [f"{m:0{width}d}"] *)
Definition fmt_d (width : nat) (m : Z) : list ascii :=
  if m <? 0 then "-"%char :: zfill (width - 1) (digits_of (- m))
  else zfill width (digits_of m).

(** [f"{x:0{width}.3f}"]: [x] rounded to thousandths. *)
Definition fmt_f3 (width : nat) (x : Q) : list ascii :=
  let millis := py_round (x * 1000)%Q in
  let body (n : Z) := digits_of (n / 1000) ++ "."%char :: zfill 3 (digits_of (n mod 1000)) in
  if millis <? 0 then "-"%char :: zfill (width - 1) (body (- millis))
  else zfill width (body millis).

(** [f"{m:02d}-{s:06.3f}"], the label shared by tags and frame names. *)
Definition mm_ss_label (m : Z) (s : Q) : list ascii :=
  fmt_d 2 m ++ "-"%char :: fmt_f3 6 s.

(** [norm_ts_for_filename] (identical in the four scripts). *)
Definition norm_ts_for_filename (ts : string) : result string :=
  match parse_time_stamp ts with
  | Raise e => Raise e
  | Ok sec =>
      let m := sec / 60 in
      let s := sec - 60 * m in
      Ok (string_of_list_ascii (mm_ss_label m (inject_Z s)))
  end.

(** [f"clip_{tag}_{start_sec:08.3f}s_to_{end_sec:08.3f}s.mp4"] *)
Definition clip_file_name (tag : string) (w : Window) : string :=
  "clip_" +:+ tag +:+ "_" +:+ string_of_list_ascii (fmt_f3 8 (start_sec w))
    +:+ "s_to_" +:+ string_of_list_ascii (fmt_f3 8 (end_sec w)) +:+ "s.mp4".

(** The label of a saved frame: [t_abs = idx / fps], [m = int(t_abs // 60)],
    [s = t_abs - 60 * m]. *)
Definition frame_label (fps : Q) (idx : Z) : string :=
  let t_abs := (inject_Z idx / fps)%Q in
  let m := Qfloor (t_abs / 60)%Q in
  let s := (t_abs - 60 * inject_Z m)%Q in
  string_of_list_ascii (mm_ss_label m s).

(** [f"frame_{tag}_t{label}.png"] *)
Definition frame_file_name (tag : string) (fps : Q) (idx : Z) : string :=
  "frame_" +:+ tag +:+ "_t" +:+ frame_label fps idx +:+ ".png".

(** ** External collaborators

    OpenCV and the JSON reader are not part of the repository; the scripts
    only use the operations below. *)

(** One record of the ["comments"] list; a field is [None] when the key is
    absent. *)
Record Comment : Type := mkComment {
  time_stamp : option string;
  comments_type : option string;
  half : option Z;
}.

Class World : Type := {
  Frame : Type;
  Capture : Type;
  (** [cv2.VideoCapture(path)]; [None] when [isOpened()] is false *)
  VideoCapture : string → option Capture;
  (** [cap.get(cv2.CAP_PROP_FPS)] *)
  cap_fps : Capture → Q;
  (** [int(cap.get(cv2.CAP_PROP_FRAME_COUNT))] *)
  cap_frame_count : Capture → Z;
  cap_width : Capture → Z;
  cap_height : Capture → Z;
  (** [cap.set(cv2.CAP_PROP_POS_FRAMES, frame_idx)] *)
  seek_frame : Capture → Z → Capture;
  (** [ok, frame = cap.read()] *)
  cap_read : Capture → option Frame * Capture;
  (** [cv2.VideoWriter(path, fourcc, fps, (w, h)).isOpened()] *)
  writer_isOpened : string → bool;
  (** [json.load] of the file, then [data.get("comments", [])] *)
  load_comments : string → result (list Comment);
}.

(** [dir / name] of [pathlib]. *)
Definition path_join (dir name : string) : string := dir +:+ "/" +:+ name.

(** ** Effects and the error monad *)

(** The lines the scripts print: one constructor for each [print] statement,
    with the values the line is about; statements of different scripts about
    the same values share a constructor.  [VideoInfo] and [Extracted] name
    the video and the two directories of a run; how much of these paths the
    line shows differs between the scripts ([process_half] prints their last
    component, the labelled and the routed script print no video name).
    [VideoFps] and [ExtractedTo] are the two lines of
    [extract_clips_frames.py] with exactly the values it prints: no video
    name, and the directories in full. *)
Inductive message : Type :=
  | SkippingNoRange (tag : string)
  | CannotOpenWriter (clip : string)
  | WroteFrames (tag : string) (wrote : Z) (clip : string)
  | SkippingBadTimestamp (ts : string) (e : exn)
  | CouldNotOpen (video : string)
  | VideoInfo (video : string) (fps : Q) (total_frames : Z) (duration_sec : Q)
  | Extracted (clips_dir frames_dir : string)
  | ProcessingMatch (name : string)
  | NoJsonFile (name : string)
  | MultipleJsonFiles (name : string)
  | NoFirstHalfVideo (name : string)
  | NoSecondHalfVideo (name : string)
  | MatchFiles (json v1 v2 : string)
  | FoundUnique (n1 n2 : nat)
  | ProcessingFirstHalf
  | ProcessingSecondHalf
  | CompletedProcessing (name : string)
  | ProjectFolderMissing
  | NoMatchFolders
  | FoundMatchFolders (n : nat)
  | ErrorProcessing (name : string) (e : exn)
  | AllMatchesProcessed (base_out : string)
  | NoTimestampsFound
  | VideoFps (fps : Q) (total_frames : Z) (duration_sec : Q)
  | ExtractedTo (clips_dir frames_dir : string).

Section Engine.
Context `{world : World}.

(** What a script does to the outside world.
    - [Mkdir path] is the call [path.mkdir(parents=True, exist_ok=True)]: it
      creates [path] and every ancestor of [path] that is missing;
    - [WriterOpen], [WriterWrite] and [WriterRelease] are [cv2.VideoWriter],
      [vout.write] and [vout.release] on a clip file;
    - [ImWrite] is [cv2.imwrite]; [CapRelease] is [cap.release()]. *)
Inductive effect : Type :=
  | Print (m : message)
  | Mkdir (path : string)
  | WriterOpen (path : string)
  | WriterWrite (path : string) (frame : Frame)
  | WriterRelease (path : string)
  | ImWrite (path : string) (frame : Frame)
  | CapRelease.

(** A computation yields the effects performed so far and either a value or
    the exception that stopped it. *)
Definition M (A : Type) : Type := list effect * result A.

Definition ret {A} (a : A) : M A := ([], Ok a).
Definition raise {A} (e : exn) : M A := ([], Raise e).
Definition lift {A} (r : result A) : M A := ([], r).
Definition emit (e : effect) : M unit := ([e], Ok tt).
Definition emit_all (t : list effect) : M unit := (t, Ok tt).
Definition print (m : message) : M unit := emit (Print m).

Definition bind {A B} (m : M A) (k : A → M B) : M B :=
  match m with
  | (t, Ok a) => let '(t', r) := k a in (t ++ t', r)
  | (t, Raise e) => (t, Raise e)
  end.

(** [try: m  except <class> as e: handler e] *)
Definition try_except {A} (m : M A) (catches : exn → bool) (handler : exn → M A) : M A :=
  match m with
  | (t, Raise e) =>
      if catches e then let '(t', r) := handler e in (t ++ t', r) else (t, Raise e)
  | _ => m
  end.

(** [for x in l: body], threading the loop state [s]. *)
Fixpoint for_each {A S} (l : list A) (s : S) (body : A → S → M S) : M S :=
  match l with
  | [] => ret s
  | x :: l' => bind (body x s) (λ s', for_each l' s' body)
  end.

End Engine.

Notation "x <- m ;; k" := (bind m (λ x, k))
  (at level 100, m at next level, right associativity, only parsing).
Notation "m ;;; k" := (bind m (λ _, k))
  (at level 100, right associativity, only parsing).

(** ** Sorting

    [sorted] and [list.sort] are stable; with a [key] function every key is
    computed before any comparison, so an exception raised by [key] leaves
    the call before the list is reordered. *)

Fixpoint insert_sorted {A} (leb : A → A → bool) (x : A) (l : list A) : list A :=
  match l with
  | [] => [x]
  | y :: l' => if leb x y then x :: l else y :: insert_sorted leb x l'
  end.

Definition stable_sort {A} (leb : A → A → bool) (l : list A) : list A :=
  foldr (insert_sorted leb) [] l.

Fixpoint with_keys {A} (key : A → result Z) (l : list A) : result (list (Z * A)) :=
  match l with
  | [] => Ok []
  | x :: l' =>
      match key x with
      | Raise e => Raise e
      | Ok k =>
          match with_keys key l' with
          | Raise e => Raise e
          | Ok kl => Ok ((k, x) :: kl)
          end
      end
  end.

(** [sorted(l, key=key)] *)
Definition sorted_by {A} (l : list A) (key : A → result Z) : result (list A) :=
  match with_keys key l with
  | Raise e => Raise e
  | Ok kl => Ok (snd <$> stable_sort (λ a b, a.1 <=? b.1) kl)
  end.

(** ** The frame loop (the [while idx < end_f] loop of every
    [write_clip_and_frames]) *)

Section ReadLoop.
Context `{world : World}.
Variables (clip_name : string) (frame_name : Z → string).
Variables (end_f : Z) (save_idxs : gset Z).

(** Returns the effects, the final [wrote] and the capture state. *)
Equations? read_loop (idx wrote : Z) (cap : Capture) : list effect * (Z * Capture)
  by wf (Z.to_nat (end_f - idx)) lt :=
  read_loop idx wrote cap with Z_lt_dec idx end_f => {
    | right _ => ([], (wrote, cap))
    | left _ with cap_read cap => {
        | (None, cap') => ([], (wrote, cap'))
        | (Some frame, cap') =>
            let '(t, r) := read_loop (idx + 1) (wrote + 1) cap' in
            (WriterWrite clip_name frame
               :: (if bool_decide (idx ∈ save_idxs)
                   then [ImWrite (frame_name idx) frame] else [])
               ++ t, r)
      }
  }.
Proof. lia. Qed.

End ReadLoop.

(** Order-preserving removal of repeated timestamps:
    [seen = set(); for ts in l: if ts not in seen: seen.add(ts); out.append(ts)] *)
Fixpoint unique_in_order (seen : gset string) (l : list string) : list string :=
  match l with
  | [] => []
  | ts :: l' =>
      if bool_decide (ts ∈ seen) then unique_in_order seen l'
      else ts :: unique_in_order ({[ts]} ∪ seen) l'
  end.

(** ** [soccerProjNewCode-1.py] *)

Module Batch.
Section Batch.
Context `{world : World}.

(** The body is also that of [write_clip_and_frames] in
    [extract_clips_frames.py] and [newExtractFrames.py], where [cap], [fps],
    [duration_sec], [w], [h] and the directories are module globals. *)
Definition write_clip_and_frames (cap : Capture) (fps duration_sec : Q) (w h : Z)
    (center_sec before_sec after_sec : Q) (tag clips_dir frames_dir : string)
  : M Capture :=
  let win := window_of fps duration_sec center_sec before_sec after_sec in
  if end_f win <=? start_f win then
    print (SkippingNoRange tag) ;;;
    ret cap
  else
    let clip_name := path_join clips_dir (clip_file_name tag win) in
    if negb (writer_isOpened clip_name) then
      print (CannotOpenWriter clip_name) ;;;
      ret cap
    else
      emit (WriterOpen clip_name) ;;;
      let cap := seek_frame cap (start_f win) in
      let save_idxs := save_idxs_nominal fps win before_sec after_sec in
      let '(t, (wrote, cap)) :=
        read_loop clip_name (λ idx, path_join frames_dir (frame_file_name tag fps idx))
          (end_f win) save_idxs (start_f win) 0 cap in
      emit_all t ;;;
      emit (WriterRelease clip_name) ;;;
      print (WroteFrames tag wrote (clip_file_name tag win)) ;;;
      ret cap.

Definition process_half (video_path : string) (timestamps : list string)
    (clips_dir frames_dir : string) : M unit :=
  match VideoCapture video_path with
  | None =>
      print (CouldNotOpen video_path) ;;;
      ret tt
  | Some cap =>
      let fps := cap_fps cap in
      let total_frames := cap_frame_count cap in
      let duration_sec := duration_of fps total_frames in
      let w := cap_width cap in
      let h := cap_height cap in
      print (VideoInfo video_path fps total_frames duration_sec) ;;;
      ts_sorted <- lift (sorted_by timestamps parse_time_stamp) ;;
      cap <- for_each ts_sorted cap (λ ts cap,
        parsed <- try_except (center_sec <- lift (parse_time_stamp ts) ;; ret (Some center_sec))
                    is_ValueError
                    (λ e, print (SkippingBadTimestamp ts e) ;;; ret None) ;;
        match parsed with
        | None => ret cap
        | Some center_sec =>
            tag <- lift (norm_ts_for_filename ts) ;;
            write_clip_and_frames cap fps duration_sec w h (inject_Z center_sec)
              CLIP_BEFORE_SEC CLIP_AFTER_SEC tag clips_dir frames_dir
        end) ;;
      emit CapRelease ;;;
      print (Extracted clips_dir frames_dir) ;;;
      ret tt
  end.

(** A match folder as the three [glob] calls of [process_match] see it. *)
Record MatchFolder : Type := mkMatchFolder {
  name : string;
  json_files : list string;
  video_half1 : list string;
  video_half2 : list string;
}.

(** The loop over [data.get("comments", [])]: [ts] defaults to the empty string,
    [half] to [0]. *)
Fixpoint split_by_half (comments : list Comment) : list string * list string :=
  match comments with
  | [] => ([], [])
  | comment :: rest =>
      let ts := default EmptyString (time_stamp comment) in
      let half := default 0 (half comment) in
      let '(h1, h2) := split_by_half rest in
      match ts with
      | EmptyString => (h1, h2)
      | _ =>
          if half =? 1 then (ts :: h1, h2)
          else if half =? 2 then (h1, ts :: h2)
          else (h1, h2)
      end
  end.

Definition process_match (match_folder : MatchFolder) (output_base : string) : M unit :=
  print (ProcessingMatch (name match_folder)) ;;;
  match json_files match_folder with
  | [] =>
      print (NoJsonFile (name match_folder)) ;;;
      ret tt
  | json_path :: more_json =>
      (match more_json with
       | [] => ret tt
       | _ :: _ => print (MultipleJsonFiles (name match_folder))
       end) ;;;
      match video_half1 match_folder, video_half2 match_folder with
      | [], _ =>
          print (NoFirstHalfVideo (name match_folder)) ;;;
          ret tt
      | _ :: _, [] =>
          print (NoSecondHalfVideo (name match_folder)) ;;;
          ret tt
      | video_half1_path :: _, video_half2_path :: _ =>
          print (MatchFiles json_path video_half1_path video_half2_path) ;;;
          comments <- lift (load_comments json_path) ;;
          let '(timestamps_half1, timestamps_half2) := split_by_half comments in
          let ts_half1_unique := unique_in_order ∅ timestamps_half1 in
          let ts_half2_unique := unique_in_order ∅ timestamps_half2 in
          print (FoundUnique (length ts_half1_unique) (length ts_half2_unique)) ;;;
          let match_out := path_join output_base (name match_folder) in
          let half1_out := path_join match_out "first_half" in
          let half2_out := path_join match_out "second_half" in
          let half1_clips := path_join half1_out "clips" in
          let half1_frames := path_join half1_out "frames" in
          let half2_clips := path_join half2_out "clips" in
          let half2_frames := path_join half2_out "frames" in
          emit (Mkdir half1_clips) ;;;
          emit (Mkdir half1_frames) ;;;
          emit (Mkdir half2_clips) ;;;
          emit (Mkdir half2_frames) ;;;
          (match ts_half1_unique with
           | [] => ret tt
           | _ :: _ =>
               print ProcessingFirstHalf ;;;
               process_half video_half1_path ts_half1_unique half1_clips half1_frames
           end) ;;;
          (match ts_half2_unique with
           | [] => ret tt
           | _ :: _ =>
               print ProcessingSecondHalf ;;;
               process_half video_half2_path ts_half2_unique half2_clips half2_frames
           end) ;;;
          print (CompletedProcessing (name match_folder)) ;;;
          ret tt
      end
  end.

(** [except Exception] does not catch [SystemExit]. *)
Definition is_Exception (e : exn) : bool :=
  match e with SystemExit _ => false | _ => true end.

(** The [__main__] block.  [project_folder] is [None] when the folder does
    not exist, otherwise its sub-directories. *)
Definition main (project_folder : option (list MatchFolder)) (base_out : string) : M unit :=
  match project_folder with
  | None =>
      print ProjectFolderMissing ;;;
      raise (SystemExit 1)
  | Some [] =>
      print NoMatchFolders ;;;
      raise (SystemExit 1)
  | Some match_folders =>
      print (FoundMatchFolders (length match_folders)) ;;;
      for_each (stable_sort (λ a b, String.leb (name a) (name b)) match_folders) tt
        (λ match_folder _,
           try_except (process_match match_folder base_out)
             is_Exception
             (λ e, print (ErrorProcessing (name match_folder) e) ;;; ret tt)) ;;;
      print (AllMatchesProcessed base_out) ;;;
      ret tt
  end.

End Batch.
End Batch.

(** ** [extract_clips_frames.py] *)

Module Flat.

(** [raw_ts]: the non-empty timestamps of the records, in the order of the
    file. *)
Definition raw_ts (comments : list Comment) : list string :=
  List.filter (λ ts, match ts with EmptyString => false | _ => true end)
    ((λ c, default EmptyString (time_stamp c)) <$> comments).

Section Flat.
Context `{world : World}.
Variables (clips_dir frames_dir : string).

(** The module-level code, from the two [mkdir] calls to the last [print];
    the jobs are those of [Batch.write_clip_and_frames]. *)
Definition script (video_path json_path : string) : M unit :=
  emit (Mkdir clips_dir) ;;;
  emit (Mkdir frames_dir) ;;;
  comments <- lift (load_comments json_path) ;;
  let ts_list := unique_in_order ∅ (raw_ts comments) in
  match ts_list with
  | [] =>
      print NoTimestampsFound ;;;
      raise (SystemExit 0)
  | _ :: _ =>
      match VideoCapture video_path with
      | None => raise (OtherException "Could not open video")
      | Some cap =>
          let fps := cap_fps cap in
          let total_frames := cap_frame_count cap in
          let duration_sec := duration_of fps total_frames in
          let w := cap_width cap in
          let h := cap_height cap in
          print (VideoFps fps total_frames duration_sec) ;;;
          ts_list_sorted <- lift (sorted_by ts_list parse_time_stamp) ;;
          cap <- for_each ts_list_sorted cap (λ ts cap,
            parsed <- try_except (center_sec <- lift (parse_time_stamp ts) ;; ret (Some center_sec))
                        is_ValueError
                        (λ e, print (SkippingBadTimestamp ts e) ;;; ret None) ;;
            match parsed with
            | None => ret cap
            | Some center_sec =>
                tag <- lift (norm_ts_for_filename ts) ;;
                Batch.write_clip_and_frames cap fps duration_sec w h (inject_Z center_sec)
                  CLIP_BEFORE_SEC CLIP_AFTER_SEC tag clips_dir frames_dir
            end) ;;
          emit CapRelease ;;;
          print (ExtractedTo clips_dir frames_dir) ;;;
          ret tt
      end
  end.

End Flat.
End Flat.

(** ** [preprocess/newExtractFrames.py] *)

Module NewExtract.

(** The loop building [ts_list]: the [seen] set holds timestamps only. *)
Fixpoint ts_list_from (seen : gset string) (comments : list Comment)
  : list (string * string) :=
  match comments with
  | [] => []
  | c :: rest =>
      let ts := default EmptyString (time_stamp c) in
      let ctype := default "Unknown"%string (comments_type c) in
      match ts with
      | EmptyString => ts_list_from seen rest
      | _ =>
          if bool_decide (ts ∈ seen) then ts_list_from seen rest
          else (ts, ctype) :: ts_list_from ({[ts]} ∪ seen) rest
      end
  end.

Definition ts_list (comments : list Comment) : list (string * string) :=
  ts_list_from ∅ comments.

(** The class [[A-Za-z0-9._-]]. *)
Definition safe_char (c : ascii) : bool :=
  is_upper c || is_lower c || is_digit c
  || Ascii.eqb c "." || Ascii.eqb c "_" || Ascii.eqb c "-".

(** [re.sub(r'[^A-Za-z0-9._-]+', '_', s)]; [in_run] tells that the previous
    character belonged to the run already replaced. *)
Fixpoint sub_unsafe (in_run : bool) (s : list ascii) : list ascii :=
  match s with
  | [] => []
  | c :: s' =>
      if safe_char c then c :: sub_unsafe false s'
      else if in_run then sub_unsafe true s' else "_"%char :: sub_unsafe true s'
  end.

Section Routing.
Context `{world : World}.
Variables (clips_dir frames_dir : string).

(** [get_output_dirs]: the sub-directories of a comment type, created on
    the way. *)
Definition get_output_dirs (comment_type : string) : M (string * string) :=
  let safe :=
    match string_of_list_ascii (sub_unsafe false (strip (list_ascii_of_string comment_type))) with
    | EmptyString => "Unknown"%string
    | safe => safe
    end in
  let clip_subdir := path_join clips_dir safe in
  let frame_subdir := path_join frames_dir safe in
  emit (Mkdir clip_subdir) ;;;
  emit (Mkdir frame_subdir) ;;;
  ret (clip_subdir, frame_subdir).

(** The module-level code, from the two [mkdir] calls to the last [print]
    (which reads "Done!" here and carries the data of [Extracted]): every
    job is routed to the sub-directories of its comment type. *)
Definition script (video_path json_path : string) : M unit :=
  emit (Mkdir clips_dir) ;;;
  emit (Mkdir frames_dir) ;;;
  comments <- lift (load_comments json_path) ;;
  match ts_list comments with
  | [] =>
      print NoTimestampsFound ;;;
      raise (SystemExit 0)
  | (_ :: _) as ts_list =>
      match VideoCapture video_path with
      | None => raise (OtherException "Could not open video")
      | Some cap =>
          let fps := cap_fps cap in
          let total_frames := cap_frame_count cap in
          let duration_sec := duration_of fps total_frames in
          let w := cap_width cap in
          let h := cap_height cap in
          print (VideoInfo video_path fps total_frames duration_sec) ;;;
          ts_list_sorted <- lift (sorted_by ts_list (λ x, parse_time_stamp x.1)) ;;
          cap <- for_each ts_list_sorted cap (λ '(ts, ctype) cap,
            parsed <- try_except (center_sec <- lift (parse_time_stamp ts) ;; ret (Some center_sec))
                        is_ValueError
                        (λ e, print (SkippingBadTimestamp ts e) ;;; ret None) ;;
            match parsed with
            | None => ret cap
            | Some center_sec =>
                tag <- lift (norm_ts_for_filename ts) ;;
                out_dirs <- get_output_dirs ctype ;;
                Batch.write_clip_and_frames cap fps duration_sec w h (inject_Z center_sec)
                  CLIP_BEFORE_SEC CLIP_AFTER_SEC tag out_dirs.1 out_dirs.2
            end) ;;
          emit CapRelease ;;;
          print (Extracted clips_dir frames_dir) ;;;
          ret tt
      end
  end.

End Routing.

End NewExtract.

(** ** [preprocess/extract_clips_frames_label.py] *)

Module Labelled.

(** [s.replace("&", "and")] *)
Definition replace_amp (s : list ascii) : list ascii :=
  c ← s; if Ascii.eqb c "&" then ["a"; "n"; "d"]%char else [c].

(** [re.sub(r"\s+", "_", s)]; [in_run] tells that the previous character
    belonged to the whitespace run already replaced. *)
Fixpoint sub_spaces (in_run : bool) (s : list ascii) : list ascii :=
  match s with
  | [] => []
  | c :: s' =>
      if is_space c then
        if in_run then sub_spaces true s' else "_"%char :: sub_spaces true s'
      else c :: sub_spaces false s'
  end.

(** The class [[a-z0-9_\-]]. *)
Definition allowed (c : ascii) : bool :=
  is_lower c || is_digit c || Ascii.eqb c "_" || Ascii.eqb c "-".

(** [re.sub] of [r"[^a-z0-9_\-]+"] by the empty string. *)
Definition drop_disallowed (s : list ascii) : list ascii :=
  List.filter allowed s.

(** [x or "unknown"] for a possibly missing, possibly empty string. *)
Definition or_unknown (s : option string) : string :=
  match s with
  | None | Some EmptyString => "unknown"
  | Some s => s
  end.

Definition sanitize_event_name (s : option string) : string :=
  let s := lower_char <$> strip (list_ascii_of_string (or_unknown s)) in
  let s := replace_amp s in
  let s := sub_spaces false s in
  let s := drop_disallowed s in
  or_unknown (Some (string_of_list_ascii s)).

(** The loop building [pairs]: the [seen] set holds [(half, ts, event)]. *)
Fixpoint pairs_from (seen : gset (option Z * string * string)) (comments : list Comment)
  : list (string * string * option Z) :=
  match comments with
  | [] => []
  | c :: rest =>
      let ts := default EmptyString (time_stamp c) in
      match ts with
      | EmptyString => pairs_from seen rest
      | _ =>
          let event := default "unknown"%string (comments_type c) in
          let half := half c in
          let key := (half, ts, event) in
          if bool_decide (key ∈ seen) then pairs_from seen rest
          else (ts, event, half) :: pairs_from ({[key]} ∪ seen) rest
      end
  end.

Definition pairs (comments : list Comment) : list (string * string * option Z) :=
  pairs_from ∅ comments.

Section Labelled.
Context `{world : World}.
Variables (clips_root frames_root : string).

Definition write_clip_and_frames (cap : Capture) (fps duration_sec : Q) (w h : Z)
    (center_sec before_sec after_sec : Q) (tag_ts event_name : string)
  : M Capture :=
  let event_dir := sanitize_event_name (Some event_name) in
  let clips_dir := path_join clips_root event_dir in
  let frames_dir := path_join frames_root event_dir in
  emit (Mkdir clips_dir) ;;;
  emit (Mkdir frames_dir) ;;;
  let win := window_of fps duration_sec center_sec before_sec after_sec in
  if end_f win <=? start_f win then
    print (SkippingNoRange (event_dir +:+ "@" +:+ tag_ts)) ;;;
    ret cap
  else
    let clip_name := path_join clips_dir (event_dir +:+ "_" +:+ clip_file_name tag_ts win) in
    if negb (writer_isOpened clip_name) then
      print (CannotOpenWriter clip_name) ;;;
      ret cap
    else
      emit (WriterOpen clip_name) ;;;
      let cap := seek_frame cap (start_f win) in
      let save_idxs := save_idxs_window fps win in
      let '(t, (wrote, cap)) :=
        read_loop clip_name
          (λ idx, path_join frames_dir (event_dir +:+ "_" +:+ frame_file_name tag_ts fps idx))
          (end_f win) save_idxs (start_f win) 0 cap in
      emit_all t ;;;
      emit (WriterRelease clip_name) ;;;
      print (WroteFrames (event_dir +:+ "@" +:+ tag_ts) wrote
               (event_dir +:+ "_" +:+ clip_file_name tag_ts win)) ;;;
      ret cap.

(** The module-level code, from [json.load] to the last [print]. *)
Definition script (video_path json_path : string) : M unit :=
  emit (Mkdir clips_root) ;;;
  emit (Mkdir frames_root) ;;;
  comments <- lift (load_comments json_path) ;;
  match pairs comments with
  | [] =>
      print NoTimestampsFound ;;;
      raise (SystemExit 0)
  | (_ :: _) as pairs =>
      pairs <- lift (sorted_by pairs (λ x, parse_time_stamp x.1.1)) ;;
      match VideoCapture video_path with
      | None => raise (OtherException "Could not open video")
      | Some cap =>
          let fps := cap_fps cap in
          let total_frames := cap_frame_count cap in
          let duration_sec := duration_of fps total_frames in
          let w := cap_width cap in
          let h := cap_height cap in
          print (VideoInfo video_path fps total_frames duration_sec) ;;;
          cap <- for_each pairs cap (λ '(ts, event, half) cap,
            parsed <- try_except (center_sec <- lift (parse_time_stamp ts) ;; ret (Some center_sec))
                        is_ValueError
                        (λ e, print (SkippingBadTimestamp ts e) ;;; ret None) ;;
            match parsed with
            | None => ret cap
            | Some center_sec =>
                tag_ts <- lift (norm_ts_for_filename ts) ;;
                write_clip_and_frames cap fps duration_sec w h (inject_Z center_sec)
                  CLIP_BEFORE_SEC CLIP_AFTER_SEC tag_ts event
            end) ;;
          emit CapRelease ;;;
          print (Extracted clips_root frames_root) ;;;
          ret tt
      end
  end.

End Labelled.
End Labelled.

(** ** [preprocess/transcribe.py]: the two timestamp printers

    The times are doubles: [seconds - int(seconds)] and the product with
    1000 are each rounded to the nearest double before [round]. *)

Module Transcribe.

(** [str(datetime.timedelta(seconds=n))] for a whole number of seconds: the
    days are split off, and named when there are any. *)
Definition timedelta_str (n : Z) : list ascii :=
  let days := n / 86400 in
  let seconds := n mod 86400 in
  let mm := seconds / 60 in
  let ss := seconds mod 60 in
  let hh := mm / 60 in
  let mm := mm mod 60 in
  let s := fmt_d 0 hh ++ ":"%char :: fmt_d 2 mm ++ ":"%char :: fmt_d 2 ss in
  if days =? 0 then s
  else fmt_d 0 days ++ list_ascii_of_string " day"
         ++ (if Z.abs days =? 1 then [] else ["s"%char])
         ++ list_ascii_of_string ", " ++ s.

(** [format_ts]; [None] is Python's [None]. *)
Definition format_ts (seconds : option Q) : string :=
  match seconds with
  | None => "N/A"
  | Some seconds =>
      let ms := py_round (b64 (b64 (seconds - inject_Z (py_int seconds)) * 1000))%Q in
      let td := timedelta_str (py_int seconds) in
      string_of_list_ascii (td ++ "."%char :: fmt_d 3 ms)
  end.

(** [srt_ts], the local function of [main]. *)
Definition srt_ts (t : Q) : string :=
  let h := py_int t / 3600 in
  let rem := py_int t mod 3600 in
  let m := rem / 60 in
  let s := rem mod 60 in
  let ms := py_round (b64 (b64 (t - inject_Z (py_int t)) * 1000))%Q in
  string_of_list_ascii
    (fmt_d 2 h ++ ":"%char :: fmt_d 2 m ++ ":"%char :: fmt_d 2 s ++ ","%char :: fmt_d 3 ms).

End Transcribe.

(** * Vocabulary of the statements *)

(** ** Rounding *)

(** [z] is an integer nearest to [x], the even one when there are two. *)
Definition nearest_even (x : Q) (z : Z) : Prop :=
  (inject_Z z - (1 # 2) <= x ∧ x <= inject_Z z + (1 # 2)
   ∧ ((x == inject_Z z - (1 # 2) ∨ x == inject_Z z + (1 # 2)) → Z.even z = true))%Q.

(** The double of 29.97, the frame rate of NTSC video. *)
Definition fps_29_97 : Q := 1054475631502295 # 35184372088832.

(** ** Timestamps *)

(** Text of 7-bit ASCII characters.  On such text Python's Unicode-aware
    [\d], [int] and [str.strip] coincide with [is_digit], [int_of_digits] and
    [strip]; other decimal digits and white space of Unicode are outside the
    model. *)
Definition ascii_text (s : string) : Prop :=
  forallb (λ c, (code c <? 128)%N) (list_ascii_of_string s) = true.

(** A non-empty run of decimal digits. *)
Definition digit_string (s : string) : Prop :=
  s ≠ EmptyString ∧ forallb is_digit (list_ascii_of_string s) = true.

(** The number a digit string denotes under [int]. *)
Definition int_of (s : string) : Z := int_of_digits (list_ascii_of_string s).

Definition added_text (added : option string) : string :=
  match added with Some a => "+" +:+ a | None => EmptyString end.

Definition added_minutes (added : option string) : Z :=
  match added with Some a => int_of a | None => 0 end.

(** ** Output names *)

(** The text after a run of digits: empty, or starting with another
    character. *)
Definition stops (rest : list ascii) : Prop :=
  match rest with [] => True | c :: _ => is_digit c = false end.

(** Reading back the thousandths printed by [fmt_f3]. *)
Definition decode_f3 (s : list ascii) : Z :=
  let '(a, r) := span is_digit s in
  match r with
  | "."%char :: r' =>
      let '(b, _) := span is_digit r' in 1000 * int_of_digits a + int_of_digits b
  | _ => -1
  end.

(** Reading back the seconds printed by [mm_ss_label]. *)
Definition decode_label (s : list ascii) : Z :=
  let '(a, r) := span is_digit s in
  match r with
  | "-"%char :: r' => 60 * int_of_digits a + decode_f3 r' / 1000
  | _ => -1
  end.

(** Reading back the event time from a clip file name. *)
Definition decode_clip_name (name : string) : Z :=
  decode_label (drop 5 (list_ascii_of_string name)).

(** ** Sample sets *)


(** The indices of the stills the loop writes when it starts at [idx] and
    appends [n] frames. *)
Definition saved_indices (save_idxs : gset Z) (idx : Z) (n : Z) : list Z :=
  List.filter (λ i, bool_decide (i ∈ save_idxs)) (seqZ idx n).

(** ** Deduplication *)

(** The dedup key of a record in [extract_clips_frames_label.py]. *)
Definition record_key (c : Comment) : option Z * string * string :=
  (half c, default EmptyString (time_stamp c), default "unknown"%string (comments_type c)).

Definition has_timestamp (c : Comment) : Prop :=
  default EmptyString (time_stamp c) ≠ EmptyString.

Definition pair_key (p : string * string * option Z) : option Z * string * string :=
  (p.2, p.1.1, p.1.2).

(** ** The category sanitizer *)

(** Text over the alphabet [[a-z0-9_-]]. *)
Definition clean (s : list ascii) : Prop := forallb Labelled.allowed s = true.

(** ** Traces *)

Section Traces.
Context `{world : World}.

Definition is_write (e : effect) : bool :=
  match e with WriterWrite _ _ => true | _ => false end.

(** Frames appended to clip files in a trace. *)
Definition count_writes (t : list effect) : Z :=
  Z.of_nat (length (List.filter is_write t)).

(** Paths of the still images written in a trace. *)
Definition saved_paths (t : list effect) : list string :=
  omap (λ e, match e with ImWrite p _ => Some p | _ => None end) t.

(** Effects other than those of the frame loop. *)
Definition is_control (e : effect) : bool :=
  match e with WriterWrite _ _ | ImWrite _ _ => false | _ => true end.

(** How many of the next [n] reads succeed before the first failure. *)
Fixpoint available (n : nat) (cap : Capture) : nat :=
  match n with
  | O => O
  | S n' =>
      match cap_read cap with
      | (Some _, cap') => S (available n' cap')
      | (None, _) => O
      end
  end.

(** Clip files opened by a run. *)
Definition opened_clips (t : list effect) : list string :=
  omap (λ e, match e with WriterOpen p => Some p | _ => None end) t.

(** The exceptions a computation may end with are all caught by
    [except Exception]. *)
Definition catchable {A} (m : M A) : Prop :=
  ∀ t e, m = (t, Raise e) → Batch.is_Exception e = true.

(** The JSON reader raises ordinary exceptions only. *)
Definition reader_raises_exceptions : Prop :=
  ∀ path e, load_comments path = Raise e → Batch.is_Exception e = true.

Definition is_print (e : effect) : bool :=
  match e with Print _ => true | _ => false end.

(** What one match contributes to the run: the effects of [process_match],
    followed by the error line when it raised. *)
Definition match_trace (output_base : string) (match_folder : Batch.MatchFolder) : list effect :=
  let '(t, r) := Batch.process_match match_folder output_base in
  t ++ match r with
       | Ok _ => []
       | Raise e => [Print (ErrorProcessing (Batch.name match_folder) e)]
       end.

Definition guarded_match (output_base : string) (match_folder : Batch.MatchFolder) (_ : unit)
  : M unit :=
  try_except (Batch.process_match match_folder output_base) Batch.is_Exception
    (λ e, print (ErrorProcessing (Batch.name match_folder) e) ;;; ret tt).

(** The order in which [__main__] visits the match folders. *)
Definition visiting_order (folders : list Batch.MatchFolder) : list Batch.MatchFolder :=
  stable_sort (λ a b, String.leb (Batch.name a) (Batch.name b)) folders.

End Traces.

(** ** Transcript timestamps *)

(** Reading back the four numbers of a printed time [H:M:S<sep>ms]. *)
Definition decode_clock (sep : ascii) (s : list ascii) : option (Z * Z * Z * Z) :=
  let '(a, r) := span is_digit s in
  match r with
  | ":"%char :: r =>
      let '(b, r) := span is_digit r in
      match r with
      | ":"%char :: r =>
          let '(c, r) := span is_digit r in
          match r with
          | x :: r =>
              if Ascii.eqb x sep && forallb is_digit r
              then Some (int_of_digits a, int_of_digits b, int_of_digits c, int_of_digits r)
              else None
          | [] => None
          end
      | _ => None
      end
  | _ => None
  end.
(** The product that [format_ts] and [srt_ts] round to milliseconds: the
    fraction of [t] times 1000, in binary64. *)
Definition millis_product (t : Q) : Q := b64 (b64 (t - inject_Z (Qfloor t)) * 1000)%Q.

(** ** Records, paths and outcomes *)

(** A timestamp that [parse_time_stamp] accepts. *)
Definition parseable (ts : string) : Prop := ∃ v, parse_time_stamp ts = Ok v.

(** The timestamp a record contributes to the list of half [h]. *)
Definition timestamp_of_half (h : Z) (c : Comment) : option string :=
  match default EmptyString (time_stamp c) with
  | EmptyString => None
  | ts => if default 0 (half c) =? h then Some ts else None
  end.

(** The entry a record contributes to [pairs] when it is not a repeat. *)
Definition record_pair (c : Comment) : option (string * string * option Z) :=
  match default EmptyString (time_stamp c) with
  | EmptyString => None
  | ts => Some (ts, default "unknown"%string (comments_type c), half c)
  end.

(** Timestamp and comment type of a record as [newExtractFrames.py] reads
    them. *)
Definition record_ts (c : Comment) : string := default EmptyString (time_stamp c).
Definition record_type (c : Comment) : string := default "Unknown"%string (comments_type c).

(** [c] is the first record of [comments] with the timestamp [ts]. *)
Definition first_with_timestamp (comments : list Comment) (ts : string) (c : Comment) : Prop :=
  ∃ pre post, comments = pre ++ c :: post ∧ record_ts c = ts
              ∧ ∀ c', c' ∈ pre → record_ts c' ≠ ts.

(** [p] lies below the directory [dir]. *)
Definition under (dir p : string) : Prop := ∃ rest, p = path_join dir rest.



Section Outcomes.
Context `{world : World}.

(** The three lines a job can end with. *)
Definition is_outcome (e : effect) : bool :=
  match e with
  | Print (SkippingNoRange _) | Print (CannotOpenWriter _) | Print (WroteFrames _ _ _) => true
  | _ => false
  end.

Definition is_bad_timestamp_line (e : effect) : bool :=
  match e with Print (SkippingBadTimestamp _ _) => true | _ => false end.

(** Clip files released by a run. *)
Definition released_clips (t : list effect) : list string :=
  omap (λ e, match e with WriterRelease p => Some p | _ => None end) t.

(** The file an effect writes to, or the directory a [mkdir] call names. *)
Definition effect_path (e : effect) : option string :=
  match e with
  | Mkdir p | WriterOpen p | WriterWrite p _ | WriterRelease p | ImWrite p _ => Some p
  | Print _ | CapRelease => None
  end.

(** Every path touched by [e] lies below [dir]. *)
Definition confined (dir : string) (e : effect) : Prop :=
  ∀ p, effect_path e = Some p → under dir p.



(** Every effect of a computation satisfies [P]. *)
Definition traced (P : effect → Prop) {A} (m : M A) : Prop := Forall P m.1.

(** What a job may touch: files below its clip or its frame directory. *)
Definition job_paths (clips_dir frames_dir : string) (e : effect) : Prop :=
  confined clips_dir e ∨ confined frames_dir e.

(** The body of the loop of [process_half]. *)
Definition half_body (fps duration_sec : Q) (w h : Z) (clips_dir frames_dir : string)
    (ts : string) (cap : Capture) : M Capture :=
  parsed <- try_except (center_sec <- lift (parse_time_stamp ts) ;; ret (Some center_sec))
              is_ValueError
              (λ e, print (SkippingBadTimestamp ts e) ;;; ret None) ;;
  match parsed with
  | None => ret cap
  | Some center_sec =>
      tag <- lift (norm_ts_for_filename ts) ;;
      Batch.write_clip_and_frames cap fps duration_sec w h (inject_Z center_sec)
        CLIP_BEFORE_SEC CLIP_AFTER_SEC tag clips_dir frames_dir
  end.

(** The body of the loop of [extract_clips_frames_label.py]. *)
Definition labelled_body (clips_root frames_root : string) (fps duration_sec : Q) (w h : Z)
    (pair : string * string * option Z) : Capture → M Capture :=
  let '(ts, event, half) := pair in
  λ cap,
  parsed <- try_except (center_sec <- lift (parse_time_stamp ts) ;; ret (Some center_sec))
              is_ValueError
              (λ e, print (SkippingBadTimestamp ts e) ;;; ret None) ;;
  match parsed with
  | None => ret cap
  | Some center_sec =>
      tag_ts <- lift (norm_ts_for_filename ts) ;;
      Labelled.write_clip_and_frames clips_root frames_root cap fps duration_sec w h
        (inject_Z center_sec) CLIP_BEFORE_SEC CLIP_AFTER_SEC tag_ts event
  end.
(** The body of the loop of [newExtractFrames.py]. *)
Definition routed_body (clips_dir frames_dir : string) (fps duration_sec : Q) (w h : Z)
    (entry : string * string) : Capture → M Capture :=
  let '(ts, ctype) := entry in
  λ cap,
  parsed <- try_except (center_sec <- lift (parse_time_stamp ts) ;; ret (Some center_sec))
              is_ValueError
              (λ e, print (SkippingBadTimestamp ts e) ;;; ret None) ;;
  match parsed with
  | None => ret cap
  | Some center_sec =>
      tag <- lift (norm_ts_for_filename ts) ;;
      out_dirs <- NewExtract.get_output_dirs clips_dir frames_dir ctype ;;
      Batch.write_clip_and_frames cap fps duration_sec w h (inject_Z center_sec)
        CLIP_BEFORE_SEC CLIP_AFTER_SEC tag out_dirs.1 out_dirs.2
  end.

(** What the routed script guarantees about the clip [clip]: it belongs to
    an entry of [l] and lies in the sub-directory of that entry's type. *)
Definition routed_clip (clips_dir frames_dir : string) (l : list (string * string))
    (clip : string) : Prop :=
  ∃ ts ctype tag win tr dirs,
    In (ts, ctype) l
    ∧ norm_ts_for_filename ts = Ok tag
    ∧ NewExtract.get_output_dirs clips_dir frames_dir ctype = (tr, Ok dirs)
    ∧ clip = path_join dirs.1 (clip_file_name tag win).

(** The two lines of [process_half] about the video and the directories, in
    the words of [extract_clips_frames.py]; every other effect is left as
    it is. *)
Definition flat_line (clips_dir frames_dir : string) (e : effect) : effect :=
  match e with
  | Print (VideoInfo _ fps total_frames duration_sec) =>
      Print (VideoFps fps total_frames duration_sec)
  | Print (Extracted _ _) => Print (ExtractedTo clips_dir frames_dir)
  | _ => e
  end.

(** The jobs a half gives rise to: one for each distinct timestamp when its
    video opens, none otherwise. *)
Definition jobs_of_half (video_path : string) (timestamps : list string) : nat :=
  match VideoCapture video_path with
  | Some _ => length (unique_in_order ∅ timestamps)
  | None => O
  end.

End Outcomes.

(** ** A small world for concrete runs

    Videos run at 2 frames per second and announce 200 frames (100 s); a
    frame is identified by its index.  ["short.mkv"] stops decoding after 30
    frames, ["missing.mkv"] does not open, writers under ["ro/"] do not
    open. *)

Module Sample.

Record capture : Type := mkCapture {
  readable : Z;
  pos : Z;
}.

Definition comment (ts : string) (h : Z) (ty : string) : Comment :=
  {| time_stamp := Some ts; comments_type := Some ty; half := Some h |}.

Definition goal_goal_card : list Comment :=
  [comment "10:00" 1 "goal"; comment "10:00" 1 "goal"; comment "10:00" 1 "card"].

#[export] Instance world : World := {|
  Frame := Z;
  Capture := capture;
  VideoCapture p :=
    if String.eqb p "missing.mkv" then None
    else if String.eqb p "short.mkv" then Some (mkCapture 30 0)
    else Some (mkCapture 200 0);
  cap_fps _ := 2%Q;
  cap_frame_count _ := 200;
  cap_width _ := 64;
  cap_height _ := 48;
  seek_frame c idx := mkCapture (readable c) idx;
  cap_read c :=
    if (0 <=? pos c) && (pos c <? readable c)
    then (Some (pos c), mkCapture (readable c) (pos c + 1))
    else (None, c);
  writer_isOpened p := negb (String.prefix "ro/" p);
  load_comments p :=
    if String.eqb p "broken.json" then Raise (OtherException "JSONDecodeError")
    else if String.eqb p "typo.json"
      then Ok [comment "0:01" 1 "goal"; comment "abc" 1 "card"; comment "0:03" 2 "goal"]
    else Ok [comment "0:02" 1 "goal"; comment "0:02" 1 "goal"; comment "1:39" 2 "card"];
|}%Z.

Definition full : capture := mkCapture 200 0.
Definition short : capture := mkCapture 30 0.

Definition match_ok : Batch.MatchFolder :=
  {| Batch.name := "m1"; Batch.json_files := ["labels.json"%string];
     Batch.video_half1 := ["a_1.mkv"%string]; Batch.video_half2 := ["a_2.mkv"%string] |}.
Definition match_no_second_half : Batch.MatchFolder :=
  {| Batch.name := "m2"; Batch.json_files := ["labels.json"%string];
     Batch.video_half1 := ["b_1.mkv"%string]; Batch.video_half2 := [] |}.
Definition match_broken_json : Batch.MatchFolder :=
  {| Batch.name := "m3"; Batch.json_files := ["broken.json"%string];
     Batch.video_half1 := ["c_1.mkv"%string]; Batch.video_half2 := ["c_2.mkv"%string] |}.
Definition match_typo : Batch.MatchFolder :=
  {| Batch.name := "m4"; Batch.json_files := ["typo.json"%string];
     Batch.video_half1 := ["d_1.mkv"%string]; Batch.video_half2 := ["d_2.mkv"%string] |}.

Definition batch : list Batch.MatchFolder :=
  [match_typo; match_broken_json; match_no_second_half; match_ok].

End Sample.

(** * Properties *)

(** ** Concrete runs of the model *)

Example parse_45_2_10 : parse_time_stamp "45+2:10" = Ok 2830.
Proof. reflexivity. Qed.

Example parse_abc : parse_time_stamp "abc" = Raise (ValueError "Unrecognized time format" "abc").
Proof. reflexivity. Qed.

Example parse_3digit_seconds : parse_time_stamp "61:199" = Raise (ValueError "Unrecognized time format" "61:199").
Proof. reflexivity. Qed.

Example parse_padded : parse_time_stamp " 7:05 " = Ok 425.
Proof. reflexivity. Qed.

Example round_half_even : (py_round (5 # 2), py_round (7 # 2), py_round (-5 # 2)) = (2, 4, -2)%Z.
Proof. reflexivity. Qed.

(** The doubles of 0.1 and 29.97, the sum 0.1 + 0.2, the product
    150 * 29.97, which rounds up to 4495.5, and two ties among the
    subnormal numbers. *)
Example b64_of_decimals :
  (b64 (1 # 10) == 3602879701896397 # 36028797018963968
   ∧ b64 (2997 # 100) == fps_29_97
   ∧ b64 (b64 (1 # 10) + b64 (2 # 10)) == 1351079888211149 # 4503599627370496
   ∧ 150 * fps_29_97 < 8991 # 2
   ∧ b64 (150 * fps_29_97) == 8991 # 2
   ∧ b64 (pow2 (-1075)) == 0
   ∧ b64 (3 * pow2 (-1075)) == pow2 (-1073)
   ∧ b64 (- (1 # 10)) == - b64 (1 # 10))%Q.
Proof. repeat split; by vm_compute. Qed.

Example range_0_4 : py_range 0 4 1 = [0; 1; 2; 3]%Z.
Proof. reflexivity. Qed.

Example range_neg : py_range 0 (-3) 1 = [].
Proof. reflexivity. Qed.

Example tag_45_2_10 : norm_ts_for_filename "45+2:10" = Ok "47-10.000"%string.
Proof. vm_compute. reflexivity. Qed.

Example clip_name_example :
  clip_file_name "47-10.000" (window_of 25 5400 2830 15 15)
  = "clip_47-10.000_2815.000s_to_2845.000s.mp4"%string.
Proof. vm_compute. reflexivity. Qed.

Example clip_name_small :
  clip_file_name "00-05.000" (window_of 25 100 5 15 15)
  = "clip_00-05.000_0000.000s_to_0020.000s.mp4"%string.
Proof. vm_compute. reflexivity. Qed.

Example frame_name_example :
  frame_file_name "00-05.000" 25 1525 = "frame_00-05.000_t01-01.000.png"%string.
Proof. vm_compute. reflexivity. Qed.

Example sorted_stable :
  sorted_by ["12:00"; "1:30"; "0+1:30"; "0:10"]%string parse_time_stamp
  = Ok ["0:10"; "1:30"; "0+1:30"; "12:00"]%string.
Proof. reflexivity. Qed.

Example sanitize_ex1 : Labelled.sanitize_event_name (Some "  Yellow Card & Foul!  "%string) = "yellow_card_and_foul"%string.
Proof. reflexivity. Qed.

Example sanitize_ex2 : Labelled.sanitize_event_name (Some "?!"%string) = "unknown"%string.
Proof. reflexivity. Qed.

Example sanitize_ex3 : Labelled.sanitize_event_name None = "unknown"%string.
Proof. reflexivity. Qed.

(** A video that stops decoding after 30 frames: the job for the window
    [0, 25] (50 frames) reports the 30 frames it appended. *)
Example truncated_video_job :
  ∃ t cap',
    Batch.write_clip_and_frames (world := Sample.world) Sample.short 2 100 64 48
      (inject_Z 10) 15 15 "00-10.000" "clips" "frames" = (t, Ok cap')
    ∧ end_f (window_of 2 100 (inject_Z 10) 15 15) = 50
    ∧ count_writes t = 30
    ∧ last t = Some (Print (WroteFrames "00-10.000" 30
                              "clip_00-10.000_0000.000s_to_0025.000s.mp4")).
Proof. eexists _, _. split; [by vm_compute |]. by vm_compute. Qed.

(** A writer that does not open: the job is abandoned with a warning. *)
Example unwritable_clip_job :
  Batch.write_clip_and_frames (world := Sample.world) Sample.full 2 100 64 48
    (inject_Z 10) 15 15 "00-10.000" "ro/clips" "frames"
  = ([Print (CannotOpenWriter "ro/clips/clip_00-10.000_0000.000s_to_0025.000s.mp4")],
     Ok Sample.full).
Proof. by vm_compute. Qed.

(** A video that does not open: the half is given up with one message. *)
Example unopenable_video_half :
  Batch.process_half (world := Sample.world) "missing.mkv" ["0:10"%string] "clips" "frames"
  = ([Print (CouldNotOpen "missing.mkv")], Ok tt).
Proof. by vm_compute. Qed.

(** ** Strings *)

Lemma list_ascii_of_string_app (a b : string) :
  list_ascii_of_string (a +:+ b) = list_ascii_of_string a ++ list_ascii_of_string b.
Proof. induction a as [|c a IH]; simpl; [done | by rewrite IH]. Qed.

Lemma string_of_list_ascii_app (a b : list ascii) :
  string_of_list_ascii (a ++ b) = string_of_list_ascii a +:+ string_of_list_ascii b.
Proof. induction a as [|c a IH]; simpl; [done | by rewrite IH]. Qed.

Lemma string_app_assoc (a b c : string) : (a +:+ b) +:+ c = a +:+ b +:+ c.
Proof.
  induction a as [|x a IH]; [done |].
  change (String x ((a +:+ b) +:+ c) = String x (a +:+ b +:+ c)). by rewrite IH.
Qed.

Lemma list_ascii_of_string_inj (a b : string) :
  list_ascii_of_string a = list_ascii_of_string b → a = b.
Proof.
  intros E. rewrite <- (string_of_list_ascii_of_string a), E.
  apply string_of_list_ascii_of_string.
Qed.

Lemma digit_not_space (c : ascii) : is_digit c = true → is_space c = false.
Proof.
  unfold is_digit, is_space. intros H.
  apply andb_true_iff in H as [H1 H2]. apply N.leb_le in H1, H2.
  apply orb_false_iff; split; apply andb_false_iff; right; apply N.leb_gt; lia.
Qed.

Lemma lstrip_head (c : ascii) (s : list ascii) :
  is_space c = false → lstrip (c :: s) = c :: s.
Proof. intros H. simpl. by rewrite H. Qed.

Lemma lstrip_no_space (s : list ascii) :
  forallb (λ c, negb (is_space c)) s = true → lstrip s = s.
Proof.
  destruct s as [|c s]; [done |]. simpl. intros H.
  apply andb_true_iff in H as [H _]. by destruct (is_space c).
Qed.

Lemma rstrip_last (s : list ascii) (c : ascii) :
  is_space c = false → rstrip (s ++ [c]) = s ++ [c].
Proof.
  intros H. unfold rstrip. rewrite rev_app_distr. simpl. rewrite H. simpl.
  by rewrite rev_involutive.
Qed.

Lemma strip_ends (c : ascii) (s : list ascii) (d : ascii) :
  is_space c = false → is_space d = false → strip (c :: s ++ [d]) = c :: s ++ [d].
Proof.
  intros Hc Hd. unfold strip. rewrite lstrip_head by done.
  by apply (rstrip_last (c :: s)).
Qed.

Lemma span_all (p : ascii → bool) (g : list ascii) :
  forallb p g = true → span p g = (g, []).
Proof.
  induction g as [|c g IH]; simpl; [done |]. intros H.
  apply andb_true_iff in H as [-> H]. by rewrite IH.
Qed.

Lemma span_stop (p : ascii → bool) (g : list ascii) (c : ascii) (r : list ascii) :
  forallb p g = true → p c = false → span p (g ++ c :: r) = (g, c :: r).
Proof.
  induction g as [|x g IH]; simpl; intros H Hc; [by rewrite Hc |].
  apply andb_true_iff in H as [-> H]. by rewrite IH.
Qed.

(** ** Timestamps *)

Lemma fullmatch_time_stamp_valid (g1 : list ascii) (g2 : option (list ascii)) (g3 : list ascii) :
  g1 ≠ [] → forallb is_digit g1 = true →
  (∀ g, g2 = Some g → g ≠ [] ∧ forallb is_digit g = true) →
  two_digits g3 = true →
  fullmatch_time_stamp
    (g1 ++ match g2 with Some g => "+"%char :: g | None => [] end ++ ":"%char :: g3)
  = Some (g1, g2, g3).
Proof.
  intros Hne H1 H2 H3. unfold fullmatch_time_stamp.
  destruct g2 as [g|].
  - destruct (H2 g eq_refl) as [Hg Hd].
    simpl app. rewrite (span_stop is_digit g1 "+") by done.
    destruct g1 as [|x g1]; [done |].
    rewrite (span_stop is_digit g ":") by done.
    destruct g as [|y g]; [done |]. by rewrite H3.
  - simpl app. rewrite (span_stop is_digit g1 ":") by done.
    destruct g1 as [|x g1]; [done |]. by rewrite H3.
Qed.

Lemma two_digits_iff (s : string) :
  digit_string s → String.length s = 2%nat →
  two_digits (list_ascii_of_string s) = true.
Proof.
  intros [_ Hd] Hl. destruct s as [|a [|b [|c s]]]; try discriminate.
  simpl in *. by rewrite andb_true_r in Hd.
Qed.

Lemma two_digits_last (g : list ascii) :
  two_digits g = true → ∃ g' d, g = g' ++ [d] ∧ is_digit d = true.
Proof.
  destruct g as [|a [|b [|c g]]]; try discriminate. simpl. intros H.
  apply andb_true_iff in H as [_ H]. by exists [a], b.
Qed.

(** C9.  Every string [<minutes>[+<added>]:<two-digit seconds>] parses to
    [(minutes + added) * 60 + seconds]: the stoppage minutes after [+] are
    added to the base minutes. *)
Theorem parse_time_stamp_valid (minutes : string) (added : option string) (seconds : string) :
  digit_string minutes →
  (∀ a, added = Some a → digit_string a) →
  digit_string seconds → String.length seconds = 2%nat →
  parse_time_stamp (minutes +:+ added_text added +:+ ":" +:+ seconds)
  = Ok ((int_of minutes + added_minutes added) * 60 + int_of seconds).
Proof.
  intros Hm Ha Hs Hl.
  pose proof (two_digits_iff seconds Hs Hl) as H2.
  destruct Hm as [Hmne Hmd].
  set (g2 := list_ascii_of_string <$> added).
  assert (Hg2 : ∀ g, g2 = Some g → g ≠ [] ∧ forallb is_digit g = true).
  { intros g Hg. destruct added as [a|]; [|done]. injection Hg as <-.
    destruct (Ha a eq_refl) as [Hne Hd]. split; [|done].
    intros E. apply Hne. destruct a; [done | discriminate]. }
  assert (Hl1 : list_ascii_of_string (minutes +:+ added_text added +:+ ":" +:+ seconds)
    = list_ascii_of_string minutes
      ++ match g2 with Some g => "+"%char :: g | None => [] end
      ++ ":"%char :: list_ascii_of_string seconds).
  { rewrite !list_ascii_of_string_app. unfold g2. by destruct added. }
  unfold parse_time_stamp.
  destruct (minutes +:+ added_text added +:+ ":" +:+ seconds) as [|c0 s0] eqn:E.
  { destruct minutes; [done | discriminate]. }
  rewrite Hl1.
  assert (Hstrip : ∀ l, strip l = l → fullmatch_time_stamp (strip l) = fullmatch_time_stamp l)
    by (by intros l ->).
  rewrite Hstrip.
  - rewrite fullmatch_time_stamp_valid; [| |done..].
    + unfold int_of, added_minutes, g2. by destruct added.
    + intros E'. apply Hmne. destruct minutes; [done | discriminate].
  - destruct (two_digits_last _ H2) as (g' & d & Eg & Hd).
    destruct (list_ascii_of_string minutes) as [|x g1] eqn:Em.
    { exfalso. apply Hmne. destruct minutes; [done | discriminate]. }
    simpl in Hmd. apply andb_true_iff in Hmd as [Hx _].
    rewrite Eg. simpl.
    replace (g1 ++ match g2 with Some g => "+"%char :: g | None => [] end ++ ":"%char :: g' ++ [d])
      with ((g1 ++ match g2 with Some g => "+"%char :: g | None => [] end ++ ":"%char :: g') ++ [d]).
    + apply strip_ends; by apply digit_not_space.
    + by rewrite <- !app_assoc.
Qed.

(** [parse("45+2:10") = 2830], by the theorem above. *)
Lemma parse_time_stamp_valid_witness :
  parse_time_stamp "45+2:10" = Ok 2830.
Proof.
  apply (parse_time_stamp_valid "45" (Some "2"%string) "10").
  - split; [discriminate | reflexivity].
  - intros a [= <-]. split; [discriminate | reflexivity].
  - split; [discriminate | reflexivity].
  - reflexivity.
Defined.

(** ** Rounding *)

Local Open Scope Q_scope.

Lemma py_round_cases (x : Q) :
  (py_round x = Qfloor x ∧ x - inject_Z (Qfloor x) <= 1 # 2) ∨
  (py_round x = (Qfloor x + 1)%Z ∧ 1 # 2 <= x - inject_Z (Qfloor x)).
Proof.
  unfold py_round.
  destruct (Qcompare_spec (x - inject_Z (Qfloor x)) (1 # 2)) as [E|E|E].
  - destruct (Z.even (Qfloor x)); [left | right]; split; try done; rewrite E; lra.
  - left. split; [done | lra].
  - right. split; [done | lra].
Qed.

Lemma py_round_floor (x : Q) : (Qfloor x <= py_round x <= Qfloor x + 1)%Z.
Proof. destruct (py_round_cases x) as [[-> _]|[-> _]]; lia. Qed.

Global Instance py_round_proper : Proper (Qeq ==> eq) py_round.
Proof.
  intros x y E. unfold py_round. rewrite (Qfloor_comp x y E).
  assert (Ec : (x - inject_Z (Qfloor y) ?= 1 # 2) = (y - inject_Z (Qfloor y) ?= 1 # 2)).
  { apply Qcompare_comp; [by rewrite E | reflexivity]. }
  by rewrite Ec.
Qed.

Lemma py_round_mono (x y : Q) : x <= y → (py_round x <= py_round y)%Z.
Proof.
  intros Hxy. pose proof (Qfloor_resp_le x y Hxy) as Hf.
  destruct (Z.eq_dec (Qfloor x) (Qfloor y)) as [E|Hne].
  - unfold py_round. rewrite E.
    destruct (Qcompare_spec (x - inject_Z (Qfloor y)) (1 # 2)) as [Ex|Ex|Ex];
      destruct (Qcompare_spec (y - inject_Z (Qfloor y)) (1 # 2)) as [Ey|Ey|Ey];
      try lia; try (destruct (Z.even (Qfloor y)); lia); exfalso; lra.
  - pose proof (py_round_floor x). pose proof (py_round_floor y). lia.
Qed.

Lemma py_round_inject_Z (z : Z) : py_round (inject_Z z) = z.
Proof.
  unfold py_round. rewrite Qfloor_Z.
  destruct (Qcompare_spec (inject_Z z - inject_Z z) (1 # 2)) as [E|E|E]; [|done|]; exfalso; lra.
Qed.

Lemma py_round_nearest_even (x : Q) : nearest_even x (py_round x).
Proof.
  pose proof (Qfloor_le x) as Hlo. pose proof (Qlt_floor x) as Hhi.
  rewrite inject_Z_plus in Hhi. change (inject_Z 1) with 1 in Hhi.
  unfold nearest_even, py_round.
  destruct (Qcompare_spec (x - inject_Z (Qfloor x)) (1 # 2)) as [E|E|E].
  - destruct (Z.even (Qfloor x)) eqn:Hev.
    + split; [lra |]. split; [lra | done].
    + rewrite inject_Z_plus. change (inject_Z 1) with 1.
      split; [lra |]. split; [lra |]. intros _.
      rewrite Z.even_add, Hev. done.
  - split; [lra |]. split; [lra |]. intros [H|H]; exfalso; lra.
  - rewrite inject_Z_plus. change (inject_Z 1) with 1.
    split; [lra |]. split; [lra |]. intros [H|H]; exfalso; lra.
Qed.

Lemma inject_Z_1000 (z : Z) : inject_Z z * 1000 == inject_Z (z * 1000).
Proof. rewrite inject_Z_mult. reflexivity. Qed.

(** ** Windows *)

Lemma py_max_Qmax (a b : Q) : py_max a b == Qmax a b.
Proof.
  unfold py_max. destruct (Qlt_le_dec a b) as [H|H].
  - symmetry. apply Q.max_r. lra.
  - symmetry. by apply Q.max_l.
Qed.

Lemma py_min_Qmin (a b : Q) : py_min a b == Qmin a b.
Proof.
  unfold py_min. destruct (Qlt_le_dec b a) as [H|H].
  - symmetry. apply Q.min_r. lra.
  - symmetry. by apply Q.min_l.
Qed.

(** C5.  In the binary64 arithmetic of the scripts the window is the event
    time padded on both sides and clamped to [0, duration_sec], and each
    frame bound is the integer nearest to the product with [fps], the even
    one on a tie.  With duration 100 and paddings 15, an event at 5 gives
    [0, 20] and an event at 98 ends at 100.  Where no operation rounds, the
    window is that of exact arithmetic; at 29.97 frames per second and 150 s
    the product rounds up to the tie 4495.5 and the frame bound is 4496, one
    more than in exact arithmetic. *)
Theorem window_of_clamps (fps duration_sec center_sec before_sec after_sec : Q) :
  let w := window_of_b64 fps duration_sec center_sec before_sec after_sec in
  let w0 := window_of fps duration_sec center_sec before_sec after_sec in
  (start_sec w == Qmax 0 (b64 (center_sec - before_sec))
   ∧ end_sec w == Qmin duration_sec (b64 (center_sec + after_sec))
   ∧ nearest_even (b64 (start_sec w * fps)) (start_f w)
   ∧ nearest_even (b64 (end_sec w * fps)) (end_f w))
  ∧ (start_sec (window_of_b64 fps 100 5 15 15) == 0
     ∧ end_sec (window_of_b64 fps 100 5 15 15) == 20
     ∧ end_sec (window_of_b64 fps 100 98 15 15) == 100)
  ∧ (b64 (center_sec - before_sec) == center_sec - before_sec →
     b64 (center_sec + after_sec) == center_sec + after_sec →
     start_sec w == start_sec w0 ∧ end_sec w == end_sec w0
     ∧ (b64 (start_sec w * fps) == start_sec w * fps → start_f w = start_f w0)
     ∧ (b64 (end_sec w * fps) == end_sec w * fps → end_f w = end_f w0))
  ∧ (start_f (window_of_b64 fps_29_97 duration_sec 165 15 15) = 4496%Z
     ∧ start_f (window_of fps_29_97 duration_sec 165 15 15) = 4495%Z).
Proof.
  intros w w0. split; [| split; [| split]].
  - split; [apply py_max_Qmax |]. split; [apply py_min_Qmin |].
    split; apply py_round_nearest_even.
  - by vm_compute.
  - intros Es Ee.
    assert (E1 : start_sec w == start_sec w0).
    { unfold w, w0. cbn [start_sec window_of_b64 window_of].
      by rewrite !py_max_Qmax, Es. }
    assert (E2 : end_sec w == end_sec w0).
    { unfold w, w0. cbn [end_sec window_of_b64 window_of].
      by rewrite !py_min_Qmin, Ee. }
    split; [done |]. split; [done |]. split.
    + intros E. change (start_f w) with (py_round (b64 (start_sec w * fps))).
      change (start_f w0) with (py_round (start_sec w0 * fps)). by rewrite E, E1.
    + intros E. change (end_f w) with (py_round (b64 (end_sec w * fps))).
      change (end_f w0) with (py_round (end_sec w0 * fps)). by rewrite E, E2.
  - split; by vm_compute.
Qed.

Lemma window_start_nonneg fps d e b a : 0 <= start_sec (window_of fps d e b a).
Proof. simpl. unfold py_max. destruct (Qlt_le_dec 0 (e - b)); lra. Qed.

Lemma window_end_le_duration fps d e b a : end_sec (window_of fps d e b a) <= d.
Proof. simpl. unfold py_min. destruct (Qlt_le_dec (e + a) d); lra. Qed.

Lemma window_ordered fps d e b a :
  0 <= d → 0 <= e → 0 <= b → 0 <= a → e - b <= d →
  start_sec (window_of fps d e b a) <= end_sec (window_of fps d e b a).
Proof.
  intros. simpl. unfold py_max, py_min.
  destruct (Qlt_le_dec 0 (e - b)); destruct (Qlt_le_dec (e + a) d); lra.
Qed.

(** An event later than [duration_sec + before_sec] has an empty frame range. *)
Lemma window_late_event_empty fps d e b a :
  0 <= fps → 0 <= d → 0 <= b → 0 <= a → d < e - b →
  let w := window_of fps d e b a in
  (end_sec w < start_sec w ∧ (end_f w <= start_f w)%Z).
Proof.
  intros Hfps Hd Hb Ha Hlate w.
  assert (Hs : start_sec w == e - b).
  { simpl. unfold py_max. destruct (Qlt_le_dec 0 (e - b)); [reflexivity | lra]. }
  assert (He : end_sec w == d).
  { simpl. unfold py_min. destruct (Qlt_le_dec (e + a) d); [lra | reflexivity]. }
  split; [lra |].
  assert (Hle : end_sec w * fps <= start_sec w * fps) by nra.
  by apply py_round_mono in Hle.
Qed.

(** ** The frame loop *)

Section ReadLoopFacts.
Context `{world : World}.

Lemma count_writes_app (t1 t2 : list effect) :
  count_writes (t1 ++ t2) = (count_writes t1 + count_writes t2)%Z.
Proof. unfold count_writes. rewrite List.filter_app, length_app. lia. Qed.

Lemma saved_paths_app (t1 t2 : list effect) :
  saved_paths (t1 ++ t2) = saved_paths t1 ++ saved_paths t2.
Proof. apply omap_app. Qed.

Lemma available_le (n : nat) (cap : Capture) : (available n cap <= n)%nat.
Proof.
  revert cap. induction n as [|n IH]; intros cap; simpl; [lia |].
  destruct (cap_read cap) as [[f|] cap']; [specialize (IH cap') |]; lia.
Qed.

Variables (clip_name : string) (frame_name : Z → string).
Variables (end_f : Z) (save_idxs : gset Z).

Lemma saved_indices_cons (idx n : Z) :
  (0 < n)%Z →
  saved_indices save_idxs idx n
  = (if bool_decide (idx ∈ save_idxs) then [idx] else []) ++ saved_indices save_idxs (idx + 1) (n - 1).
Proof.
  intros Hn. unfold saved_indices.
  rewrite (seqZ_cons idx n) by done. simpl.
  replace (Z.succ idx) with (idx + 1)%Z by lia.
  replace (Z.pred n) with (n - 1)%Z by lia.
  by destruct (bool_decide (idx ∈ save_idxs)).
Qed.

Lemma read_loop_spec (n : nat) :
  ∀ idx wrote cap, n = Z.to_nat (end_f - idx) →
  ∃ t wrote' cap',
    read_loop clip_name frame_name end_f save_idxs idx wrote cap = (t, (wrote', cap'))
    ∧ (wrote' - wrote)%Z = Z.of_nat (available n cap)
    ∧ count_writes t = (wrote' - wrote)%Z
    ∧ saved_paths t = frame_name <$> saved_indices save_idxs idx (wrote' - wrote)
    ∧ List.filter is_control t = [].
Proof.
  induction n as [|n IH]; intros idx wrote cap Hn.
  - exists [], wrote, cap. rewrite read_loop_equation_1. simpl.
    destruct (Z_lt_dec idx end_f) as [Hlt|Hge]; [lia |]. simpl.
    replace (wrote - wrote)%Z with 0%Z by lia. done.
  - rewrite read_loop_equation_1. simpl.
    destruct (Z_lt_dec idx end_f) as [Hlt|Hge]; [| lia]. simpl.
    destruct (cap_read cap) as [[frame|] cap1] eqn:Hread; simpl.
    + destruct (IH (idx + 1)%Z (wrote + 1)%Z cap1 ltac:(lia)) as (t & w' & c' & E & Hw & Hc & Hs & Hf).
      rewrite E. eexists _, w', c'. split; [done |].
      assert (Hpos : (0 < w' - wrote)%Z) by lia.
      split; [lia |].
      change (WriterWrite clip_name frame :: ?l) with ([WriterWrite clip_name frame] ++ l).
      split; [| split].
      * rewrite !count_writes_app, Hc.
        destruct (bool_decide (idx ∈ save_idxs)); unfold count_writes; simpl; lia.
      * rewrite (saved_indices_cons idx (w' - wrote)) by done.
        replace (w' - wrote - 1)%Z with (w' - (wrote + 1))%Z by lia.
        rewrite fmap_app, <- Hs, !saved_paths_app.
        by destruct (bool_decide (idx ∈ save_idxs)).
      * rewrite !List.filter_app, Hf.
        by destruct (bool_decide (idx ∈ save_idxs)).
    + exists [], wrote, cap1. replace (wrote - wrote)%Z with 0%Z by lia. done.
Qed.

End ReadLoopFacts.

(** ** [write_clip_and_frames] *)

Section WriterFacts.
Context `{world : World}.

(** The three outcomes of a job: skipped for an empty frame range, abandoned
    because the writer did not open, or run through the frame loop. *)
Lemma write_clip_and_frames_outcome (cap : Capture) (fps duration_sec : Q) (w h : Z)
    (center_sec before_sec after_sec : Q) (tag clips_dir frames_dir : string) :
  let win := window_of fps duration_sec center_sec before_sec after_sec in
  let clip := path_join clips_dir (clip_file_name tag win) in
  let budget := Z.to_nat (end_f win - start_f win) in
  let run := Batch.write_clip_and_frames cap fps duration_sec w h center_sec
               before_sec after_sec tag clips_dir frames_dir in
  ((end_f win <= start_f win)%Z ∧ run = ([Print (SkippingNoRange tag)], Ok cap))
  ∨ ((start_f win < end_f win)%Z ∧ writer_isOpened clip = false
     ∧ run = ([Print (CannotOpenWriter clip)], Ok cap))
  ∨ ((start_f win < end_f win)%Z ∧ writer_isOpened clip = true
     ∧ ∃ t cap',
         let wrote := Z.of_nat (available budget (seek_frame cap (start_f win))) in
         run = ([WriterOpen clip] ++ t
                ++ [WriterRelease clip; Print (WroteFrames tag wrote (clip_file_name tag win))],
                Ok cap')
         ∧ count_writes t = wrote
         ∧ List.filter is_control t = []
         ∧ saved_paths t
           = (λ idx, path_join frames_dir (frame_file_name tag fps idx))
             <$> saved_indices (save_idxs_nominal fps win before_sec after_sec)
                   (start_f win) wrote).
Proof.
  intros win clip budget run. unfold run, Batch.write_clip_and_frames.
  fold win. fold clip.
  destruct (Z.leb_spec (end_f win) (start_f win)) as [Hle|Hlt].
  { left. done. }
  right. destruct (writer_isOpened clip) eqn:Hopen.
  2: { left. done. }
  right. split; [done |]. split; [done |]. cbn [negb].
  destruct (read_loop_spec clip (λ idx, path_join frames_dir (frame_file_name tag fps idx))
              (end_f win) (save_idxs_nominal fps win before_sec after_sec) budget
              (start_f win) 0%Z (seek_frame cap (start_f win)) eq_refl)
    as (t & wrote' & cap' & E & Hw & Hc & Hs & Hf).
  rewrite E. simpl. exists t, cap'.
  replace (wrote' - 0)%Z with wrote' in * by lia. subst wrote'.
  split; [reflexivity |]. split; [exact Hc |]. split; [exact Hf | exact Hs].
Qed.

End WriterFacts.

Section WriterClaims.
Context `{world : World}.

(** C8.  A job always returns; the frames it appends to the clip number at
    most [end_f - start_f].  When the frame range is not empty and the
    writer opens, the job ends by reporting a count, and that count is the
    number of frames actually appended, which is the number of reads that
    succeeded before the first failing one (all of them when none fails). *)
Theorem wrote_count_bounded (cap : Capture) (fps duration_sec : Q) (w h : Z)
    (center_sec before_sec after_sec : Q) (tag clips_dir frames_dir : string) :
  let win := window_of fps duration_sec center_sec before_sec after_sec in
  ∃ t cap',
    Batch.write_clip_and_frames cap fps duration_sec w h center_sec
      before_sec after_sec tag clips_dir frames_dir = (t, Ok cap')
    ∧ (count_writes t <= Z.max 0 (end_f win - start_f win))%Z
    ∧ ((start_f win < end_f win)%Z →
       writer_isOpened (path_join clips_dir (clip_file_name tag win)) = true →
       (∃ t', t = t' ++ [Print (WroteFrames tag (count_writes t) (clip_file_name tag win))])
       ∧ count_writes t
         = Z.of_nat (available (Z.to_nat (end_f win - start_f win))
                       (seek_frame cap (start_f win))))
    ∧ ∀ tag' wrote clip',
        In (Print (WroteFrames tag' wrote clip')) t →
        wrote = count_writes t
        ∧ wrote = Z.of_nat (available (Z.to_nat (end_f win - start_f win))
                              (seek_frame cap (start_f win)))
        ∧ (wrote <= end_f win - start_f win)%Z.
Proof.
  intros win.
  destruct (write_clip_and_frames_outcome cap fps duration_sec w h center_sec
              before_sec after_sec tag clips_dir frames_dir)
    as [[Hle ->]|[(Hlt & Hopen & ->)|(Hlt & Hopen & t & cap' & -> & Hc & Hf & Hs)]];
    fold win in Hle || fold win in Hlt.
  - exists [Print (SkippingNoRange tag)], cap. split; [done |].
    split; [unfold count_writes; simpl; lia |].
    split; [lia |].
    intros ??? [[=]|[]].
  - eexists _, cap. split; [done |].
    split; [unfold count_writes; simpl; lia |].
    split; [fold win in Hopen; congruence |].
    intros ??? [[=]|[]].
  - eexists _, cap'. split; [done |].
    pose proof (available_le (Z.to_nat (end_f win - start_f win))
                  (seek_frame cap (start_f win))) as Hav.
    assert (Hcount : count_writes
              ([WriterOpen (path_join clips_dir (clip_file_name tag win))] ++ t ++
               [WriterRelease (path_join clips_dir (clip_file_name tag win));
                Print (WroteFrames tag
                  (Z.of_nat (available (Z.to_nat (end_f win - start_f win))
                               (seek_frame cap (start_f win))))
                  (clip_file_name tag win))])
            = count_writes t).
    { rewrite !count_writes_app. unfold count_writes at 1 3. simpl. lia. }
    fold win. rewrite Hcount. fold win in Hc. rewrite Hc. split; [lia |].
    split.
    { intros _ _. split; [| done].
      exists ([WriterOpen (path_join clips_dir (clip_file_name tag win))] ++ t
              ++ [WriterRelease (path_join clips_dir (clip_file_name tag win))]).
      by rewrite <- !app_assoc. }
    intros tag' wrote clip' Hin.
    apply in_app_or in Hin as [[[=]|[]]|Hin].
    apply in_app_or in Hin as [Hin|Hin].
    + exfalso.
      assert (Hctl : In (Print (WroteFrames tag' wrote clip')) (List.filter is_control t))
        by (by apply filter_In).
      by rewrite Hf in Hctl.
    + destruct Hin as [[=]|[[= <- <- <-]|[]]]. split; [done |]. split; [done |].
      change (Z.of_nat (available (Z.to_nat (end_f win - start_f win))
                          (seek_frame cap (start_f win))) <= end_f win - start_f win)%Z.
      lia.
Qed.
(** Skipping a job with an empty frame range: one message, no other effect,
    no exception, in the flat and in the labelled script. *)
Lemma empty_range_is_skipped (cap : Capture) (fps duration_sec : Q) (w h : Z)
    (center_sec before_sec after_sec : Q) (tag clips_dir frames_dir event_name : string) :
  let win := window_of fps duration_sec center_sec before_sec after_sec in
  (end_f win <= start_f win)%Z →
  Batch.write_clip_and_frames cap fps duration_sec w h center_sec
    before_sec after_sec tag clips_dir frames_dir
  = ([Print (SkippingNoRange tag)], Ok cap)
  ∧ Labelled.write_clip_and_frames clips_dir frames_dir cap fps duration_sec w h center_sec
      before_sec after_sec tag event_name
    = ([Mkdir (path_join clips_dir (Labelled.sanitize_event_name (Some event_name)));
        Mkdir (path_join frames_dir (Labelled.sanitize_event_name (Some event_name)));
        Print (SkippingNoRange
                 (Labelled.sanitize_event_name (Some event_name) +:+ "@" +:+ tag))],
       Ok cap).
Proof.
  intros win Hle. unfold Batch.write_clip_and_frames, Labelled.write_clip_and_frames.
  fold win. apply Z.leb_le in Hle. rewrite Hle. done.
Qed.

(** C6, amended.  For an event no later than [duration_sec + before_sec] the
    window satisfies [0 <= start_sec <= end_sec <= duration_sec]; a later
    event gets [end_sec < start_sec] and an empty frame range; and a job whose
    frame range is empty is skipped with a message, without an error. *)
Theorem window_invariant (cap : Capture) (w h : Z) (tag clips_dir frames_dir event_name : string)
    (fps duration_sec center_sec before_sec after_sec : Q) :
  0 <= center_sec → 0 <= before_sec → 0 <= after_sec → 0 <= duration_sec → 0 < fps →
  let win := window_of fps duration_sec center_sec before_sec after_sec in
  (center_sec - before_sec <= duration_sec →
     0 <= start_sec win ∧ start_sec win <= end_sec win ∧ end_sec win <= duration_sec)
  ∧ (duration_sec < center_sec - before_sec →
     end_sec win < start_sec win ∧ (end_f win <= start_f win)%Z)
  ∧ ((end_f win <= start_f win)%Z →
     Batch.write_clip_and_frames cap fps duration_sec w h center_sec
       before_sec after_sec tag clips_dir frames_dir
     = ([Print (SkippingNoRange tag)], Ok cap)
     ∧ Labelled.write_clip_and_frames clips_dir frames_dir cap fps duration_sec w h center_sec
         before_sec after_sec tag event_name
       = ([Mkdir (path_join clips_dir (Labelled.sanitize_event_name (Some event_name)));
           Mkdir (path_join frames_dir (Labelled.sanitize_event_name (Some event_name)));
           Print (SkippingNoRange
                    (Labelled.sanitize_event_name (Some event_name) +:+ "@" +:+ tag))],
          Ok cap)).
Proof.
  intros He Hb Ha Hd Hfps win. split; [| split].
  - intros Hin. split; [apply window_start_nonneg |].
    split; [by apply window_ordered | apply window_end_le_duration].
  - intros Hlate. apply window_late_event_empty; try done. lra.
  - apply empty_range_is_skipped.
Qed.

End WriterClaims.

(** An event at 5 s in a 100 s video: the clamped window [0, 20] is ordered. *)
Lemma window_invariant_witness :
  let win := window_of 2 100 5 15 15 in
  0 <= start_sec win ∧ start_sec win <= end_sec win ∧ end_sec win <= 100.
Proof.
  apply (window_invariant (world := Sample.world) Sample.full 64 48 "00-05.000" "clips" "frames" "goal"
           2 100 5 15 15); by vm_compute.
Defined.

(** C6 as stated fails: an event at 200 s in a 100 s video satisfies every
    premise, yet its window starts at 185 s and ends at 100 s. *)
Lemma window_invariant_counterexample :
  (0 <= 200 ∧ 0 <= 15 ∧ 0 <= 100 ∧ 0 < 25)
  ∧ let win := window_of 25 100 200 15 15 in
    ¬ (0 <= start_sec win ∧ start_sec win <= end_sec win ∧ end_sec win <= 100).
Proof.
  split; [by vm_compute |].
  intros win (_ & H & _). by vm_compute in H.
Qed.

(** ** Deduplication *)

Lemma pairs_from_spec (comments : list Comment) :
  ∀ seen : gset (option Z * string * string),
  NoDup (pair_key <$> Labelled.pairs_from seen comments)
  ∧ ∀ k, k ∈ pair_key <$> Labelled.pairs_from seen comments
         ↔ (k ∉ seen) ∧ ∃ c, c ∈ comments ∧ has_timestamp c ∧ record_key c = k.
Proof.
  induction comments as [|c rest IH]; intros seen; simpl.
  { split; [constructor |]. intros k. split; [by intros ?%elem_of_nil |].
    intros (_ & c & ?%elem_of_nil & _). done. }
  destruct (default EmptyString (time_stamp c)) as [|a ts] eqn:Ets.
  { destruct (IH seen) as [Hnd Hk]. split; [done |]. intros k. rewrite Hk.
    split; intros (Hs & c' & Hin & Ht & Hr); (split; [done |]); exists c'.
    - split; [by apply elem_of_cons; right | done].
    - apply elem_of_cons in Hin as [->|Hin]; [| done].
      exfalso. by apply Ht. }
  set (key := (half c, String a ts, default "unknown"%string (comments_type c))).
  assert (Hkey : record_key c = key) by (unfold record_key; by rewrite Ets).
  assert (Hts : has_timestamp c) by (unfold has_timestamp; by rewrite Ets).
  case_bool_decide as Hseen.
  - destruct (IH seen) as [Hnd Hk]. split; [done |]. intros k. rewrite Hk.
    split; intros (Hs & c' & Hin & Ht & Hr); (split; [done |]); exists c'.
    + split; [by apply elem_of_cons; right | done].
    + apply elem_of_cons in Hin as [->|Hin]; [| done].
      exfalso. apply Hs. by rewrite <- Hr, Hkey.
  - destruct (IH ({[key]} ∪ seen)) as [Hnd Hk]. simpl. split.
    + apply NoDup_cons. split; [| done].
      change (pair_key (String a ts, default "unknown"%string (comments_type c), half c)) with key.
      rewrite Hk. intros [Hn _]. apply Hn. set_solver.
    + intros k.
      change (pair_key (String a ts, default "unknown"%string (comments_type c), half c)) with key.
      rewrite elem_of_cons, Hk. split.
      * intros [->|(Hn & c' & Hin & Ht & Hr)].
        -- split; [done |]. exists c. split; [by apply elem_of_cons; left | done].
        -- split; [set_solver |]. exists c'. split; [by apply elem_of_cons; right | done].
      * intros (Hn & c' & Hin & Ht & Hr).
        destruct (decide (k = key)) as [->|Hne]; [by left |]. right.
        split; [set_solver |].
        apply elem_of_cons in Hin as [->|Hin]; [by rewrite Hkey in Hr |].
        by exists c'.
Qed.

(** In [extract_clips_frames_label.py] two records are merged exactly when
    half, timestamp and category all agree: the kept entries have pairwise
    distinct keys, and every key present in the input is kept. *)
Lemma labelled_pairs_keyed_on_triple (comments : list Comment) :
  NoDup (pair_key <$> Labelled.pairs comments)
  ∧ ∀ k, k ∈ pair_key <$> Labelled.pairs comments
         ↔ ∃ c, c ∈ comments ∧ has_timestamp c ∧ record_key c = k.
Proof.
  destruct (pairs_from_spec comments ∅) as [Hnd Hk]. split; [done |].
  intros k. unfold Labelled.pairs. rewrite Hk. set_solver.
Qed.

(** C3.  On [(1, "10:00", goal), (1, "10:00", goal), (1, "10:00", card)]
    the labelled script keeps two events, while [newExtractFrames.py], whose
    [seen] set holds the timestamp alone, keeps one and loses the card. *)
Theorem dedup_goal_goal_card :
  Labelled.pairs Sample.goal_goal_card
  = [("10:00", "goal", Some 1%Z); ("10:00", "card", Some 1%Z)]%string
  ∧ NewExtract.ts_list Sample.goal_goal_card = [("10:00", "goal")]%string
  ∧ length (NewExtract.ts_list Sample.goal_goal_card) ≠ 2%nat.
Proof. by vm_compute. Qed.

(** ** A malformed timestamp *)

Lemma parse_time_stamp_raises (ts : string) (e : exn) :
  parse_time_stamp ts = Raise e → is_ValueError e = true.
Proof.
  unfold parse_time_stamp. destruct ts; [by intros [= <-] |].
  destruct (fullmatch_time_stamp _) as [[[g1 g2] g3]|]; [done | by intros [= <-]].
Qed.

Lemma with_keys_raises {A} (key : A → result Z) (l : list A) (x : A) (e : exn) :
  In x l → key x = Raise e → ∃ y e', In y l ∧ key y = Raise e' ∧ with_keys key l = Raise e'.
Proof.
  induction l as [|y l IH]; [done |]. intros Hin Hx. simpl.
  destruct (key y) as [k|e'] eqn:Ey.
  - destruct Hin as [->|Hin]; [congruence |].
    destruct (IH Hin Hx) as (z & e' & Hz & Hkz & ->).
    exists z, e'. split; [by right | done].
  - exists y, e'. split; [by left | done].
Qed.

Section HalfFacts.
Context `{world : World}.

(** X13.  Whenever one of the timestamps handed to [process_half] does not
    parse, [sorted] raises [ValueError]: the half stops after the video
    information line, before any event is handled, and the capture is not
    released. *)
Lemma process_half_bad_timestamp_aborts (video_path : string) (timestamps : list string)
    (clips_dir frames_dir : string) (cap : Capture) (ts : string) (e : exn) :
  VideoCapture video_path = Some cap →
  In ts timestamps → parse_time_stamp ts = Raise e →
  ∃ e',
    is_ValueError e' = true
    ∧ Batch.process_half video_path timestamps clips_dir frames_dir
      = ([Print (VideoInfo video_path (cap_fps cap) (cap_frame_count cap)
                   (duration_of (cap_fps cap) (cap_frame_count cap)))],
         Raise e').
Proof.
  intros Hcap Hin Hts.
  destruct (with_keys_raises parse_time_stamp timestamps ts e Hin Hts) as (y & e' & _ & Hy & Hk).
  exists e'. split; [by eapply parse_time_stamp_raises |].
  unfold Batch.process_half. rewrite Hcap. unfold sorted_by. rewrite Hk. done.
Qed.

End HalfFacts.

(** C1.  With the timestamps ["0:01"; "abc"; "0:03"] the half processor
    raises [ValueError] from the sort and handles no event, although without
    the bad record both events are extracted; the labelled script stops the
    same way at [pairs.sort]. *)
Theorem malformed_timestamp_aborts_half :
  Batch.process_half (world := Sample.world) "full.mkv" ["0:01"; "abc"; "0:03"]%string "clips" "frames"
  = ([Print (VideoInfo "full.mkv" 2 200 (200 # 2))],
     Raise (ValueError "Unrecognized time format" "abc"))
  ∧ (∃ t, Batch.process_half (world := Sample.world) "full.mkv" ["0:01"; "0:03"]%string "clips" "frames"
          = (t, Ok tt) ∧ count_writes t = 68%Z)
  ∧ Labelled.script (world := Sample.world) "clips" "frames" "full.mkv" "typo.json"
    = ([Mkdir "clips"; Mkdir "frames"],
       Raise (ValueError "Unrecognized time format" "abc")).
Proof.
  split; [by vm_compute |]. split; [| by vm_compute].
  eexists. split; [by vm_compute |]. by vm_compute.
Qed.

(** ** The batch *)

Lemma insert_sorted_perm {A} (leb : A → A → bool) (x : A) (l : list A) :
  Permutation (insert_sorted leb x l) (x :: l).
Proof.
  induction l as [|y l IH]; simpl; [done |].
  destruct (leb x y); [done |]. rewrite IH. apply perm_swap.
Qed.

Lemma stable_sort_perm {A} (leb : A → A → bool) (l : list A) :
  Permutation (stable_sort leb l) l.
Proof.
  induction l as [|x l IH]; simpl; [done |].
  unfold stable_sort in *. simpl. rewrite insert_sorted_perm. by constructor.
Qed.

Section BatchFacts.
Context `{world : World}.

Lemma catchable_ret {A} (a : A) : catchable (ret a).
Proof. intros t e [=]. Qed.

Lemma catchable_emit (x : effect) : catchable (emit x).
Proof. intros t e [=]. Qed.

Lemma catchable_bind {A B} (m : M A) (k : A → M B) :
  catchable m → (∀ a, catchable (k a)) → catchable (bind m k).
Proof.
  intros Hm Hk t e. unfold bind. destruct m as [t1 [a|e1]].
  - destruct (k a) as [t2 r] eqn:Ek. intros [= <- ->]. by eapply Hk.
  - intros [= <- <-]. by eapply Hm.
Qed.

Lemma catchable_try_except {A} (m : M A) (c : exn → bool) (h : exn → M A) :
  catchable m → (∀ e, catchable (h e)) → catchable (try_except m c h).
Proof.
  intros Hm Hh t e. unfold try_except. destruct m as [t1 [a|e1]]; [done |].
  destruct (c e1).
  - destruct (h e1) as [t2 r] eqn:Eh. intros [= <- ->]. by eapply Hh.
  - intros [= <- <-]. by eapply Hm.
Qed.

Lemma catchable_for_each {A S} (l : list A) (body : A → S → M S) :
  (∀ x s, catchable (body x s)) → ∀ s, catchable (for_each l s body).
Proof.
  intros Hb. induction l as [|x l IH]; intros s; simpl; [apply catchable_ret |].
  apply catchable_bind; [apply Hb | apply IH].
Qed.

Lemma is_ValueError_Exception (e : exn) : is_ValueError e = true → Batch.is_Exception e = true.
Proof. by destruct e. Qed.

Lemma catchable_parse (ts : string) : catchable (lift (parse_time_stamp ts)).
Proof.
  intros t e [= _ H]. by apply is_ValueError_Exception, (parse_time_stamp_raises ts).
Qed.

Lemma catchable_norm_ts (ts : string) : catchable (lift (norm_ts_for_filename ts)).
Proof.
  intros t e [= _ H]. unfold norm_ts_for_filename in H.
  destruct (parse_time_stamp ts) as [sec|e'] eqn:E; [done |]. injection H as <-.
  by apply is_ValueError_Exception, (parse_time_stamp_raises ts).
Qed.

Lemma catchable_sorted_by (l : list string) : catchable (lift (sorted_by l parse_time_stamp)).
Proof.
  intros t e [= _ H]. unfold sorted_by in H.
  destruct (with_keys parse_time_stamp l) as [kl|e'] eqn:E; [done |]. injection H as <-.
  revert e' E. induction l as [|x l IH]; intros e' E; simpl in E; [done |].
  destruct (parse_time_stamp x) as [k|e1] eqn:Ex.
  - destruct (with_keys parse_time_stamp l) as [kl|e2]; [done |].
    injection E as <-. by apply IH.
  - injection E as <-. by apply is_ValueError_Exception, (parse_time_stamp_raises x).
Qed.

Lemma write_clip_and_frames_returns (cap : Capture) (fps duration_sec : Q) (w h : Z)
    (center_sec before_sec after_sec : Q) (tag clips_dir frames_dir : string) :
  ∃ t cap', Batch.write_clip_and_frames cap fps duration_sec w h center_sec
              before_sec after_sec tag clips_dir frames_dir = (t, Ok cap').
Proof.
  destruct (write_clip_and_frames_outcome cap fps duration_sec w h center_sec
              before_sec after_sec tag clips_dir frames_dir)
    as [[_ ->]|[(_ & _ & ->)|(_ & _ & t & cap' & -> & _)]]; by eexists _, _.
Qed.

Lemma catchable_process_half (video_path : string) (timestamps : list string)
    (clips_dir frames_dir : string) :
  catchable (Batch.process_half video_path timestamps clips_dir frames_dir).
Proof.
  unfold Batch.process_half. destruct (VideoCapture video_path) as [cap|].
  2: { apply catchable_bind; [apply catchable_emit | intros; apply catchable_ret]. }
  apply catchable_bind; [apply catchable_emit | intros _].
  apply catchable_bind; [apply catchable_sorted_by | intros ts_sorted].
  apply catchable_bind.
  - apply catchable_for_each. intros ts cap0.
    apply catchable_bind.
    + apply catchable_try_except.
      * apply catchable_bind; [apply catchable_parse | intros; apply catchable_ret].
      * intros e. apply catchable_bind; [apply catchable_emit | intros; apply catchable_ret].
    + intros [center_sec|]; [| apply catchable_ret].
      apply catchable_bind; [apply catchable_norm_ts | intros tag].
      intros t e E.
      destruct (write_clip_and_frames_returns cap0 (cap_fps cap)
                  (duration_of (cap_fps cap) (cap_frame_count cap)) (cap_width cap)
                  (cap_height cap) (inject_Z center_sec) CLIP_BEFORE_SEC CLIP_AFTER_SEC
                  tag clips_dir frames_dir) as (t' & cap' & E').
      congruence.
  - intros cap'. apply catchable_bind; [apply catchable_emit | intros _].
    apply catchable_bind; [apply catchable_emit | intros; apply catchable_ret].
Qed.

End BatchFacts.

Section BatchClaims.
Context `{world : World}.

Lemma catchable_process_match (match_folder : Batch.MatchFolder) (output_base : string) :
  reader_raises_exceptions →
  catchable (Batch.process_match match_folder output_base).
Proof.
  intros Hreader. unfold Batch.process_match.
  apply catchable_bind; [apply catchable_emit | intros _].
  destruct (Batch.json_files match_folder) as [|json_path more_json].
  { apply catchable_bind; [apply catchable_emit | intros; apply catchable_ret]. }
  apply catchable_bind.
  { destruct more_json; [apply catchable_ret | apply catchable_emit]. }
  intros _.
  destruct (Batch.video_half1 match_folder) as [|v1 ?].
  { apply catchable_bind; [apply catchable_emit | intros; apply catchable_ret]. }
  destruct (Batch.video_half2 match_folder) as [|v2 ?].
  { apply catchable_bind; [apply catchable_emit | intros; apply catchable_ret]. }
  apply catchable_bind; [apply catchable_emit | intros _].
  apply catchable_bind.
  { intros t e [= _ H]. by eapply Hreader. }
  intros comments. destruct (Batch.split_by_half comments) as [h1 h2].
  repeat (apply catchable_bind; [apply catchable_emit | intros _]).
  apply catchable_bind.
  { destruct (unique_in_order ∅ h1); [apply catchable_ret |].
    apply catchable_bind; [apply catchable_emit | intros _]. apply catchable_process_half. }
  intros _. apply catchable_bind.
  { destruct (unique_in_order ∅ h2); [apply catchable_ret |].
    apply catchable_bind; [apply catchable_emit | intros _]. apply catchable_process_half. }
  intros _. apply catchable_bind; [apply catchable_emit | intros; apply catchable_ret].
Qed.

Lemma guarded_match_returns (output_base : string) (match_folder : Batch.MatchFolder) :
  reader_raises_exceptions →
  guarded_match output_base match_folder tt = (match_trace output_base match_folder, Ok tt).
Proof.
  intros Hreader. unfold guarded_match, match_trace, try_except.
  pose proof (catchable_process_match match_folder output_base Hreader) as Hc.
  destruct (Batch.process_match match_folder output_base) as [t [[]|e]].
  - by rewrite app_nil_r.
  - by rewrite (Hc t e eq_refl).
Qed.

Lemma match_loop_trace (output_base : string) (folders : list Batch.MatchFolder) :
  reader_raises_exceptions →
  for_each folders tt (guarded_match output_base)
  = (concat (match_trace output_base <$> folders), Ok tt).
Proof.
  intros Hreader. induction folders as [|f folders IH]; simpl; [done |].
  rewrite guarded_match_returns by done. unfold bind. by rewrite IH.
Qed.

(** C4.  A match folder without a second-half video only prints messages and
    returns: no directory, clip or frame is written for either half.  The run
    over a batch never raises: its effects are the contributions of all the
    folders, one after the other, each complete whatever happened in the
    others, and a match that raised contributes its error line before the
    next one starts. *)
Theorem batch_isolates_matches (folders : list Batch.MatchFolder) (base_out : string) :
  folders ≠ [] →
  reader_raises_exceptions →
  (∀ match_folder, Batch.video_half2 match_folder = [] →
     ∃ t, Batch.process_match match_folder base_out = (t, Ok tt)
          ∧ forallb is_print t = true)
  ∧ Batch.main (Some folders) base_out
    = ([Print (FoundMatchFolders (length folders))]
         ++ concat (match_trace base_out <$> visiting_order folders)
         ++ [Print (AllMatchesProcessed base_out)],
       Ok tt)
  ∧ Permutation (visiting_order folders) folders.
Proof.
  intros Hne Hreader. split; [| split].
  - intros f Hv2. unfold Batch.process_match. rewrite Hv2.
    destruct (Batch.json_files f) as [|j [|j' more]]; [by eexists | |];
      destruct (Batch.video_half1 f); by eexists.
  - unfold Batch.main. destruct folders as [|f0 folders0]; [done |].
    set (folders := f0 :: folders0).
    change (for_each _ tt _) with (for_each (visiting_order folders) tt (guarded_match base_out)).
    rewrite match_loop_trace by done. done.
  - apply stable_sort_perm.
Qed.

End BatchClaims.

Lemma sample_reader_raises_exceptions : reader_raises_exceptions (world := Sample.world).
Proof.
  intros path e. simpl.
  repeat match goal with |- context [String.eqb ?a ?b] => destruct (String.eqb a b) end;
    by intros [= <-].
Qed.

(** A batch of four folders: a typo in a timestamp, an unreadable JSON file,
    a missing second half and a complete match. *)
Lemma batch_isolates_matches_witness :
  Batch.main (world := Sample.world) (Some Sample.batch) "out"
  = ([Print (FoundMatchFolders 4)]
       ++ concat (match_trace (world := Sample.world) "out" <$> visiting_order Sample.batch)
       ++ [Print (AllMatchesProcessed "out")],
     Ok tt)
  ∧ Permutation (visiting_order Sample.batch) Sample.batch.
Proof.
  apply (batch_isolates_matches (world := Sample.world) Sample.batch "out").
  - discriminate.
  - apply sample_reader_raises_exceptions.
Defined.

(** The same batch, run: the folder without a second half and the two
    failing folders leave only messages, the complete match is extracted. *)
Example sample_batch_run :
  visiting_order Sample.batch
  = [Sample.match_ok; Sample.match_no_second_half; Sample.match_broken_json; Sample.match_typo]
  ∧ match_trace (world := Sample.world) "out" Sample.match_no_second_half
    = [Print (ProcessingMatch "m2"); Print (NoSecondHalfVideo "m2")]
  ∧ match_trace (world := Sample.world) "out" Sample.match_broken_json
    = [Print (ProcessingMatch "m3"); Print (MatchFiles "broken.json" "c_1.mkv" "c_2.mkv");
       Print (ErrorProcessing "m3" (OtherException "JSONDecodeError"))]
  ∧ count_writes (match_trace (world := Sample.world) "out" Sample.match_typo) = 0%Z
  ∧ count_writes (match_trace (world := Sample.world) "out" Sample.match_ok) = 66%Z
  ∧ count_writes (Batch.main (world := Sample.world) (Some Sample.batch) "out").1 = 66%Z.
Proof. by vm_compute. Qed.

(** ** The category sanitizer *)

Module SanitizeFacts.
Import Labelled.

Lemma allowed_not_space (c : ascii) : allowed c = true → is_space c = false.
Proof.
  destruct c as [[] [] [] [] [] [] [] []]; vm_compute; congruence.
Qed.

Lemma allowed_not_upper (c : ascii) : allowed c = true → is_upper c = false.
Proof.
  destruct c as [[] [] [] [] [] [] [] []]; vm_compute; congruence.
Qed.

Lemma allowed_not_amp (c : ascii) : allowed c = true → Ascii.eqb c "&" = false.
Proof.
  destruct c as [[] [] [] [] [] [] [] []]; vm_compute; congruence.
Qed.

Lemma clean_cons (c : ascii) (s : list ascii) : clean (c :: s) ↔ allowed c = true ∧ clean s.
Proof. unfold clean. simpl. apply andb_true_iff. Qed.

Lemma clean_app (a b : list ascii) : clean (a ++ b) ↔ clean a ∧ clean b.
Proof. unfold clean. rewrite forallb_app. apply andb_true_iff. Qed.

Lemma clean_rev (s : list ascii) : clean s → clean (rev s).
Proof.
  induction s as [|c s IH]; [done |]. intros [Hc Hs]%clean_cons. simpl.
  apply clean_app. split; [by apply IH |]. apply clean_cons. by split.
Qed.

Lemma lstrip_clean (s : list ascii) : clean s → lstrip s = s.
Proof.
  destruct s as [|c s]; [done |]. intros [Hc _]%clean_cons.
  by apply lstrip_head, allowed_not_space.
Qed.

Lemma strip_clean (s : list ascii) : clean s → strip s = s.
Proof.
  intros Hs. unfold strip, rstrip. rewrite (lstrip_clean s Hs).
  rewrite (lstrip_clean (rev s)) by by apply clean_rev. apply rev_involutive.
Qed.

Lemma lower_clean (s : list ascii) : clean s → lower_char <$> s = s.
Proof.
  induction s as [|c s IH]; [done |]. intros [Hc Hs]%clean_cons.
  rewrite fmap_cons, IH by done. unfold lower_char. by rewrite allowed_not_upper.
Qed.

Lemma replace_amp_clean (s : list ascii) : clean s → replace_amp s = s.
Proof.
  induction s as [|c s IH]; [done |]. intros [Hc Hs]%clean_cons.
  unfold replace_amp in *. rewrite bind_cons, IH by done.
  by rewrite allowed_not_amp.
Qed.

Lemma sub_spaces_clean (s : list ascii) : clean s → ∀ in_run, sub_spaces in_run s = s.
Proof.
  induction s as [|c s IH]; [done |]. intros [Hc Hs]%clean_cons in_run. simpl.
  rewrite allowed_not_space by done. by rewrite IH.
Qed.

Lemma drop_disallowed_clean (s : list ascii) : clean s → drop_disallowed s = s.
Proof.
  induction s as [|c s IH]; [done |]. intros [Hc Hs]%clean_cons.
  unfold drop_disallowed in *. simpl. rewrite Hc. by rewrite IH.
Qed.

Lemma drop_disallowed_is_clean (s : list ascii) : clean (drop_disallowed s).
Proof.
  induction s as [|c s IH]; [done |]. unfold drop_disallowed in *. simpl.
  destruct (allowed c) eqn:Hc; [| done]. apply clean_cons. by split.
Qed.

(** A non-empty string over the allowed alphabet is left as it is. *)
Lemma sanitize_clean (s : string) :
  s ≠ EmptyString → clean (list_ascii_of_string s) → sanitize_event_name (Some s) = s.
Proof.
  intros Hne Hs. unfold sanitize_event_name.
  assert (E : or_unknown (Some s) = s) by (by destruct s).
  rewrite E, strip_clean, lower_clean, replace_amp_clean, sub_spaces_clean,
    drop_disallowed_clean by done.
  by rewrite string_of_list_ascii_of_string.
Qed.

Lemma sanitize_is_clean (s : option string) :
  sanitize_event_name s ≠ EmptyString ∧ clean (list_ascii_of_string (sanitize_event_name s)).
Proof.
  unfold sanitize_event_name.
  set (r := drop_disallowed _).
  pose proof (drop_disallowed_is_clean
    (sub_spaces false (replace_amp (lower_char <$> strip (list_ascii_of_string (or_unknown s))))))
    as Hr. fold r in Hr.
  destruct r as [|c r]; simpl; [done |].
  split; [done |]. by rewrite list_ascii_of_string_of_list_ascii.
Qed.

End SanitizeFacts.

(** C10.  The sanitizer is idempotent, its result is never empty and uses
    only the characters [a-z], [0-9], [_] and [-]; a missing category, and a
    category with no such character, give ["unknown"]. *)
Theorem sanitize_event_name_idempotent (s : option string) :
  Labelled.sanitize_event_name (Some (Labelled.sanitize_event_name s))
  = Labelled.sanitize_event_name s
  ∧ Labelled.sanitize_event_name s ≠ EmptyString
  ∧ forallb Labelled.allowed (list_ascii_of_string (Labelled.sanitize_event_name s)) = true
  ∧ Labelled.sanitize_event_name None = "unknown"%string
  ∧ (Labelled.drop_disallowed
       (Labelled.sub_spaces false
          (Labelled.replace_amp
             (lower_char <$> strip (list_ascii_of_string (Labelled.or_unknown s))))) = []
     → Labelled.sanitize_event_name s = "unknown"%string).
Proof.
  destruct (SanitizeFacts.sanitize_is_clean s) as [Hne Hclean].
  split; [by apply SanitizeFacts.sanitize_clean |].
  split; [done |]. split; [done |]. split; [done |].
  intros E. unfold Labelled.sanitize_event_name. by rewrite E.
Qed.

(** ** Sample sets *)








Lemma elem_of_saved_indices (S : gset Z) (idx n i : Z) :
  In i (saved_indices S idx n) ↔ i ∈ S ∧ (idx <= i < idx + n)%Z.
Proof.
  unfold saved_indices. rewrite filter_In, bool_decide_eq_true.
  rewrite <- list_elem_of_In, elem_of_seqZ. tauto.
Qed.

Section SampleSetClaims.
Context `{world : World}.


(** The stills of a labelled job: the scanned indices that belong to
    [save_idxs]. *)
Lemma labelled_job_stills (clips_root frames_root : string) (cap : Capture)
    (fps duration_sec : Q) (w h : Z) (center_sec before_sec after_sec : Q)
    (tag_ts event_name : string) :
  let win := window_of fps duration_sec center_sec before_sec after_sec in
  let event_dir := Labelled.sanitize_event_name (Some event_name) in
  ∃ t cap' wrote,
    Labelled.write_clip_and_frames clips_root frames_root cap fps duration_sec w h
      center_sec before_sec after_sec tag_ts event_name = (t, Ok cap')
    ∧ (wrote <= Z.max 0 (end_f win - start_f win))%Z
    ∧ saved_paths t
      = (λ idx, path_join (path_join frames_root event_dir)
                  (event_dir +:+ "_" +:+ frame_file_name tag_ts fps idx))
        <$> saved_indices (save_idxs_window fps win) (start_f win) wrote.
Proof.
  intros win event_dir. unfold Labelled.write_clip_and_frames.
  fold win. fold event_dir.
  destruct (Z.leb_spec (end_f win) (start_f win)) as [Hle|Hlt].
  { eexists _, _, 0%Z. split; [reflexivity |]. split; [lia | done]. }
  set (clip := path_join (path_join clips_root event_dir)
                 (event_dir +:+ "_" +:+ clip_file_name tag_ts win)).
  destruct (writer_isOpened clip) eqn:Hopen.
  2: { eexists _, _, 0%Z. split; [reflexivity |]. split; [lia | done]. }
  cbn [negb].
  destruct (read_loop_spec clip
              (λ idx, path_join (path_join frames_root event_dir)
                        (event_dir +:+ "_" +:+ frame_file_name tag_ts fps idx))
              (end_f win) (save_idxs_window fps win) (Z.to_nat (end_f win - start_f win))
              (start_f win) 0%Z (seek_frame cap (start_f win)) eq_refl)
    as (t & wrote' & cap' & E & Hw & Hc & Hs & Hf).
  rewrite E. eexists _, cap', wrote'. split; [reflexivity |].
  pose proof (available_le (Z.to_nat (end_f win - start_f win)) (seek_frame cap (start_f win))).
  split; [lia |].
  replace (wrote' - 0)%Z with wrote' in Hs by lia.
  change (Mkdir ?a :: ?l) with ([Mkdir a] ++ l).
  change (WriterOpen ?a :: ?l) with ([WriterOpen a] ++ l).
  rewrite !saved_paths_app, Hs. simpl. by rewrite app_nil_r.
Qed.

(** The stills of a flat job, likewise. *)
Lemma batch_job_stills (cap : Capture) (fps duration_sec : Q) (w h : Z)
    (center_sec before_sec after_sec : Q) (tag clips_dir frames_dir : string) :
  let win := window_of fps duration_sec center_sec before_sec after_sec in
  ∃ t cap' wrote,
    Batch.write_clip_and_frames cap fps duration_sec w h center_sec
      before_sec after_sec tag clips_dir frames_dir = (t, Ok cap')
    ∧ (wrote <= Z.max 0 (end_f win - start_f win))%Z
    ∧ saved_paths t
      = (λ idx, path_join frames_dir (frame_file_name tag fps idx))
        <$> saved_indices (save_idxs_nominal fps win before_sec after_sec) (start_f win) wrote.
Proof.
  intros win.
  destruct (write_clip_and_frames_outcome cap fps duration_sec w h center_sec
              before_sec after_sec tag clips_dir frames_dir)
    as [[Hle ->]|[(Hlt & Hopen & ->)|(Hlt & Hopen & t & cap' & -> & Hc & Hf & Hs)]].
  - eexists _, _, 0%Z. split; [reflexivity |]. split; [lia | done].
  - eexists _, _, 0%Z. split; [reflexivity |]. split; [lia | done].
  - eexists _, cap', _. split; [reflexivity |].
    pose proof (available_le (Z.to_nat (end_f win - start_f win))
                  (seek_frame cap (start_f win))).
    split; [| rewrite !saved_paths_app, Hs; simpl; by rewrite app_nil_r].
    change (Z.of_nat (available (Z.to_nat (end_f win - start_f win))
                        (seek_frame cap (start_f win)))
            <= Z.max 0 (end_f win - start_f win))%Z.
    lia.
Qed.


End SampleSetClaims.



(** ** Decimal text *)

Local Open Scope Z_scope.

Lemma int_of_digits_snoc (g : list ascii) (c : ascii) :
  int_of_digits (g ++ [c]) = 10 * int_of_digits g + digit_val c.
Proof. unfold int_of_digits. by rewrite fold_left_app. Qed.

Lemma digit_val_range (c : ascii) : is_digit c = true → 0 <= digit_val c <= 9.
Proof.
  unfold is_digit, digit_val. intros [H1 H2]%andb_true_iff.
  apply N.leb_le in H1, H2. lia.
Qed.

Lemma int_of_digits_nonneg (g : list ascii) :
  forallb is_digit g = true → 0 <= int_of_digits g.
Proof.
  induction g as [|c g IH] using rev_ind; [done |].
  rewrite forallb_app, int_of_digits_snoc. simpl.
  intros [Hg [Hc _]%andb_true_iff]%andb_true_iff.
  pose proof (digit_val_range c Hc). specialize (IH Hg). lia.
Qed.

Lemma int_of_digits_zeros (n : nat) (g : list ascii) :
  int_of_digits (replicate n "0"%char ++ g) = int_of_digits g.
Proof.
  unfold int_of_digits. rewrite fold_left_app.
  assert (E : fold_left (λ acc c, 10 * acc + digit_val c) (replicate n "0"%char) 0 = 0).
  { induction n as [|n IH]; [done |].
    change (replicate (S n) "0"%char) with ("0"%char :: replicate n "0"%char).
    cbn [fold_left]. by change (10 * 0 + digit_val "0") with 0. }
  by rewrite E.
Qed.

Lemma pretty_N_char_digit (d : N) :
  (d < 10)%N → is_digit (pretty_N_char d) = true ∧ digit_val (pretty_N_char d) = Z.of_N d.
Proof.
  intros Hd.
  assert (d = 0 ∨ d = 1 ∨ d = 2 ∨ d = 3 ∨ d = 4 ∨ d = 5 ∨ d = 6 ∨ d = 7 ∨ d = 8 ∨ d = 9)%N
    as Hcases by lia.
  repeat (destruct Hcases as [->|Hcases]; [by vm_compute |]). subst. by vm_compute.
Qed.

Lemma pretty_N_go_app (x : N) :
  ∀ s, pretty_N_go x s = pretty_N_go x EmptyString +:+ s.
Proof.
  induction (N.lt_wf_0 x) as [x _ IH]. intros s.
  destruct (decide (x = 0%N)) as [->|Hx]; [by rewrite !pretty_N_go_0 |].
  rewrite (pretty_N_go_step x s), (pretty_N_go_step x EmptyString) by lia.
  rewrite (IH (x `div` 10)%N) by (apply N.div_lt; lia).
  rewrite (IH (x `div` 10)%N (N.div_lt x 10 ltac:(lia) ltac:(lia))
             (String (pretty_N_char (x `mod` 10)) EmptyString)).
  by rewrite string_app_assoc.
Qed.

(** The digits of a positive number, most significant first. *)
Lemma pretty_N_go_digits (x : N) :
  forallb is_digit (list_ascii_of_string (pretty_N_go x EmptyString)) = true
  ∧ int_of_digits (list_ascii_of_string (pretty_N_go x EmptyString)) = Z.of_N x.
Proof.
  induction (N.lt_wf_0 x) as [x _ IH].
  destruct (decide (x = 0%N)) as [->|Hx]; [by rewrite pretty_N_go_0 |].
  rewrite (pretty_N_go_step x EmptyString) by lia. rewrite pretty_N_go_app.
  rewrite list_ascii_of_string_app. simpl.
  destruct (IH (x `div` 10)%N (N.div_lt x 10 ltac:(lia) ltac:(lia))) as [Hd Hv].
  destruct (pretty_N_char_digit (x `mod` 10)%N) as [Hc Hcv]; [by apply N.mod_lt |].
  split.
  - rewrite forallb_app, Hd. simpl. by rewrite Hc.
  - rewrite int_of_digits_snoc, Hv, Hcv.
    rewrite (N.div_mod x 10) at 3 by done. lia.
Qed.

Lemma digits_of_spec (n : Z) :
  0 <= n →
  digits_of n ≠ [] ∧ forallb is_digit (digits_of n) = true ∧ int_of_digits (digits_of n) = n.
Proof.
  intros Hn. unfold digits_of, pretty, pretty_N.
  destruct (decide (Z.to_N n = 0%N)) as [E|Hne].
  - split; [done |]. split; [done |].
    change (int_of_digits (list_ascii_of_string "0")) with 0. lia.
  - destruct (pretty_N_go_digits (Z.to_N n)) as [Hd Hv].
    split; [| split; [done | rewrite Hv; lia]].
    rewrite (pretty_N_go_step (Z.to_N n) EmptyString) by lia. rewrite pretty_N_go_app.
    rewrite list_ascii_of_string_app. simpl. by intros []%app_eq_nil.
Qed.

Lemma zfill_digits (width : nat) (g : list ascii) :
  forallb is_digit g = true →
  forallb is_digit (zfill width g) = true ∧ int_of_digits (zfill width g) = int_of_digits g.
Proof.
  intros Hg. unfold zfill. split; [| apply int_of_digits_zeros].
  rewrite forallb_app, Hg, andb_true_r.
  induction (width - length g)%nat as [|n IH]; [done |]. simpl. by rewrite IH.
Qed.

(** ** Output names *)

Lemma span_stops (g rest : list ascii) :
  forallb is_digit g = true → stops rest → span is_digit (g ++ rest) = (g, rest).
Proof.
  intros Hg Hr. destruct rest as [|c rest].
  - rewrite app_nil_r. by apply span_all.
  - by apply span_stop.
Qed.

Lemma span_prefix (p : ascii → bool) (s a b : list ascii) :
  span p s = (a, b) → forallb p a = true.
Proof.
  revert a b. induction s as [|c s IH]; intros a b; simpl; [by intros [= <- <-] |].
  destruct (p c) eqn:Hc; [| by intros [= <- <-]].
  destruct (span p s) as [a' b']. intros [= <- <-]. simpl.
  rewrite Hc. by apply (IH a' b').
Qed.

Lemma decode_fmt_f3 (width : nat) (x : Q) (rest : list ascii) :
  0 <= py_round (x * 1000)%Q → stops rest →
  decode_f3 (fmt_f3 width x ++ rest) = py_round (x * 1000)%Q.
Proof.
  intros Hn Hrest. unfold fmt_f3.
  set (n := py_round (x * 1000)%Q) in *.
  destruct (Z.ltb_spec n 0) as [?|_]; [lia |].
  destruct (digits_of_spec (n / 1000)) as (_ & Hd1 & Hv1); [by apply Z.div_pos |].
  destruct (digits_of_spec (n mod 1000)) as (_ & Hd2 & Hv2); [by apply Z.mod_pos_bound |].
  destruct (zfill_digits 3 _ Hd2) as [Hd3 Hv3].
  unfold zfill at 1. rewrite <- !app_assoc.
  unfold decode_f3.
  rewrite (app_assoc (replicate _ _) (digits_of (n / 1000))).
  rewrite <- app_comm_cons.
  rewrite (span_stop is_digit (replicate _ _ ++ digits_of (n / 1000)) ".");
    [| rewrite forallb_app, Hd1, andb_true_r | done].
  - rewrite span_stops by done.
    rewrite int_of_digits_zeros, Hv1, Hv3, Hv2.
    rewrite (Z.div_mod n 1000) at 3 by done. lia.
  - clear. induction (width - _)%nat as [|k IH]; [done |]. simpl. by rewrite IH.
Qed.

Lemma py_round_millis (z : Z) : py_round (inject_Z z * 1000)%Q = z * 1000.
Proof. by rewrite inject_Z_1000, py_round_inject_Z. Qed.

Lemma decode_mm_ss_label (sec : Z) (rest : list ascii) :
  0 <= sec → stops rest →
  decode_label (mm_ss_label (sec / 60) (inject_Z (sec - 60 * (sec / 60))) ++ rest) = sec.
Proof.
  intros Hsec Hrest. unfold mm_ss_label, fmt_d.
  assert (Hm : 0 <= sec / 60) by (by apply Z.div_pos).
  assert (Hs : 0 <= sec - 60 * (sec / 60)) by (pose proof (Z.mul_div_le sec 60); lia).
  destruct (Z.ltb_spec (sec / 60) 0) as [?|_]; [lia |].
  destruct (digits_of_spec (sec / 60) Hm) as (_ & Hd & Hv).
  destruct (zfill_digits 2 _ Hd) as [Hd2 Hv2].
  unfold decode_label. rewrite <- app_assoc, <- app_comm_cons.
  rewrite (span_stop is_digit _ "-") by done.
  rewrite decode_fmt_f3; [| rewrite py_round_millis; lia | done].
  rewrite py_round_millis, Hv2, Hv, Z.div_mul by done. lia.
Qed.

Lemma fullmatch_groups_digits (s g1 g3 : list ascii) (g2 : option (list ascii)) :
  fullmatch_time_stamp s = Some (g1, g2, g3) →
  forallb is_digit g1 = true
  ∧ (∀ g, g2 = Some g → forallb is_digit g = true)
  ∧ forallb is_digit g3 = true.
Proof.
  unfold fullmatch_time_stamp.
  destruct (span is_digit s) as [a r1] eqn:E1.
  pose proof (span_prefix _ _ _ _ E1) as Ha.
  assert (H2 : ∀ g, two_digits g = true → forallb is_digit g = true).
  { intros [|x [|y [|z g]]]; try done. simpl. by rewrite andb_true_r. }
  destruct a as [|a0 a]; [done |].
  destruct r1 as [|c r2]; [done |].
  destruct (Ascii.eqb_spec c "+") as [->|Hplus].
  - destruct (span is_digit r2) as [b r3] eqn:E2.
    pose proof (span_prefix _ _ _ _ E2) as Hb.
    destruct b as [|b0 b]; [done |]. destruct r3 as [|c3 g]; [done |].
    destruct (Ascii.eqb_spec c3 ":") as [->|Hcolon].
    + destruct (two_digits g) eqn:Hg; [| done]. intros [= <- <- <-].
      split; [done |]. split; [by intros ? [= <-] | by apply H2].
    + intros H. exfalso. revert H.
      destruct c3 as [[] [] [] [] [] [] [] []]; try done.
  - destruct (Ascii.eqb_spec c ":") as [->|Hcolon].
    + destruct (two_digits r2) eqn:Hg; [| done]. intros [= <- <- <-].
      split; [done |]. split; [done | by apply H2].
    + intros H. exfalso. revert H.
      destruct c as [[] [] [] [] [] [] [] []]; try done.
Qed.

Lemma parse_time_stamp_nonneg (ts : string) (sec : Z) :
  parse_time_stamp ts = Ok sec → 0 <= sec.
Proof.
  unfold parse_time_stamp. destruct ts as [|c ts]; [done |].
  destruct (fullmatch_time_stamp _) as [[[g1 g2] g3]|] eqn:E; [| done].
  destruct (fullmatch_groups_digits _ _ _ _ E) as (H1 & H2 & H3).
  intros [= <-].
  pose proof (int_of_digits_nonneg g1 H1). pose proof (int_of_digits_nonneg g3 H3).
  destruct g2 as [g|]; [pose proof (int_of_digits_nonneg g (H2 g eq_refl)) |]; lia.
Qed.

Lemma norm_ts_for_filename_label (ts tag : string) (sec : Z) :
  parse_time_stamp ts = Ok sec → norm_ts_for_filename ts = Ok tag →
  list_ascii_of_string tag = mm_ss_label (sec / 60) (inject_Z (sec - 60 * (sec / 60))).
Proof.
  intros Hp. unfold norm_ts_for_filename. rewrite Hp. intros [= <-].
  apply list_ascii_of_string_of_list_ascii.
Qed.

Lemma decode_clip_file_name (ts tag : string) (sec : Z) (w : Window) :
  parse_time_stamp ts = Ok sec → norm_ts_for_filename ts = Ok tag →
  decode_clip_name (clip_file_name tag w) = sec.
Proof.
  intros Hp Hn. unfold decode_clip_name, clip_file_name.
  rewrite !list_ascii_of_string_app.
  change (list_ascii_of_string "clip_") with ["c"; "l"; "i"; "p"; "_"]%char.
  change (drop 5 (["c"; "l"; "i"; "p"; "_"]%char ++ ?l)) with l.
  rewrite (norm_ts_for_filename_label ts tag sec Hp Hn).
  apply decode_mm_ss_label; [by eapply parse_time_stamp_nonneg | done].
Qed.

Lemma fmt_f3_millis (width : nat) (x y : Q) :
  (0 <= x)%Q → (0 <= y)%Q →
  fmt_f3 width x = fmt_f3 width y ↔ py_round (x * 1000)%Q = py_round (y * 1000)%Q.
Proof.
  intros Hx Hy.
  assert (Hpos : ∀ z : Q, (0 <= z)%Q → 0 <= py_round (z * 1000)%Q).
  { intros z Hz. change 0 with (py_round 0). apply py_round_mono. lra. }
  split.
  - intros E.
    rewrite <- (decode_fmt_f3 width x []) by (by try apply Hpos).
    rewrite <- (decode_fmt_f3 width y []) by (by try apply Hpos).
    by rewrite E.
  - intros E. unfold fmt_f3. by rewrite E.
Qed.

(** C7, amended.  A clip file name consists of the tag and the clamped start
    and end of the window printed in thousandths of a second, and the printed
    text identifies a non-negative time up to the millisecond.  Two events of
    one run have the same tag exactly when their parsed seconds are equal, and
    their clip file names are distinct exactly when their parsed seconds
    differ. *)
Theorem clip_names_distinct_by_seconds (ts1 ts2 tag1 tag2 : string) (sec1 sec2 : Z)
    (fps duration_sec before_sec after_sec : Q) :
  parse_time_stamp ts1 = Ok sec1 → parse_time_stamp ts2 = Ok sec2 →
  norm_ts_for_filename ts1 = Ok tag1 → norm_ts_for_filename ts2 = Ok tag2 →
  let w1 := window_of fps duration_sec (inject_Z sec1) before_sec after_sec in
  let w2 := window_of fps duration_sec (inject_Z sec2) before_sec after_sec in
  clip_file_name tag1 w1
  = "clip_" +:+ tag1 +:+ "_" +:+ string_of_list_ascii (fmt_f3 8 (start_sec w1))
      +:+ "s_to_" +:+ string_of_list_ascii (fmt_f3 8 (end_sec w1)) +:+ "s.mp4"
  ∧ (∀ x y : Q, (0 <= x)%Q → (0 <= y)%Q →
       fmt_f3 8 x = fmt_f3 8 y ↔ py_round (x * 1000)%Q = py_round (y * 1000)%Q)
  ∧ (tag1 = tag2 ↔ sec1 = sec2)
  ∧ (clip_file_name tag1 w1 ≠ clip_file_name tag2 w2 ↔ sec1 ≠ sec2).
Proof.
  intros Hp1 Hp2 Hn1 Hn2 w1 w2.
  split; [done |]. split; [intros x y; apply fmt_f3_millis |].
  assert (Htag : tag1 = tag2 ↔ sec1 = sec2).
  { split.
    - intros E.
      rewrite <- (decode_clip_file_name ts1 tag1 sec1 w1 Hp1 Hn1).
      rewrite <- (decode_clip_file_name ts2 tag2 sec2 w1 Hp2 Hn2).
      by rewrite E.
    - intros ->. unfold norm_ts_for_filename in Hn1, Hn2.
      rewrite Hp1 in Hn1. rewrite Hp2 in Hn2. congruence. }
  split; [done |].
  split.
  - intros Hne ->. apply Hne.
    assert (Et : tag1 = tag2) by (by apply Htag). by rewrite Et.
  - intros Hne E. apply Hne.
    rewrite <- (decode_clip_file_name ts1 tag1 sec1 w1 Hp1 Hn1).
    rewrite <- (decode_clip_file_name ts2 tag2 sec2 w2 Hp2 Hn2).
    by rewrite E.
Qed.

(** The events at ["0:02"] and ["1:39"] get the clips of the windows
    [0, 17] and [84, 100]. *)
Lemma clip_names_distinct_by_seconds_witness :
  clip_file_name "00-02.000" (window_of 2 100 (inject_Z 2) 15 15)
  ≠ clip_file_name "01-39.000" (window_of 2 100 (inject_Z 99) 15 15)
  ↔ 2 ≠ 99.
Proof.
  apply (clip_names_distinct_by_seconds "0:02" "1:39" "00-02.000" "01-39.000" 2 99
           2 100 15 15); by vm_compute.
Defined.

(** C7 as stated fails: ["0+1:10"] and ["1:10"] are different events, both
    kept by the deduplication, with the same tag; the run opens the same clip
    file for both, the second job overwriting the first. *)
Lemma clip_names_collide :
  "0+1:10"%string ≠ "1:10"%string
  ∧ unique_in_order ∅ ["0+1:10"; "1:10"]%string = ["0+1:10"; "1:10"]%string
  ∧ norm_ts_for_filename "0+1:10" = Ok "01-10.000"%string
  ∧ norm_ts_for_filename "1:10" = Ok "01-10.000"%string
  ∧ opened_clips (world := Sample.world)
      (Batch.process_half (world := Sample.world) "full.mkv" ["0+1:10"; "1:10"]%string
         "clips" "frames").1
    = ["clips/clip_01-10.000_0055.000s_to_0085.000s.mp4";
       "clips/clip_01-10.000_0055.000s_to_0085.000s.mp4"]%string.
Proof. split; [discriminate |]. by vm_compute. Qed.

(** * Further properties of the scripts *)

(** ** The timestamp parser *)

Lemma span_app (p : ascii → bool) (s a b : list ascii) :
  span p s = (a, b) → s = a ++ b.
Proof.
  revert a b. induction s as [|c s IH]; intros a b; simpl; [by intros [= <- <-] |].
  destruct (p c); [| by intros [= <- <-]].
  destruct (span p s) as [a' b']. intros [= <- <-]. simpl. by rewrite (IH a' b').
Qed.

Lemma fullmatch_time_stamp_inv (s g1 g3 : list ascii) (g2 : option (list ascii)) :
  fullmatch_time_stamp s = Some (g1, g2, g3) →
  s = g1 ++ match g2 with Some g => "+"%char :: g | None => [] end ++ ":"%char :: g3
  ∧ g1 ≠ [] ∧ (∀ g, g2 = Some g → g ≠ []) ∧ two_digits g3 = true.
Proof.
  unfold fullmatch_time_stamp.
  destruct (span is_digit s) as [a r1] eqn:E1.
  apply span_app in E1 as ->.
  destruct a as [|a0 a]; [done |].
  destruct r1 as [|c r2]; [done |].
  destruct (Ascii.eqb_spec c "+") as [->|Hplus].
  - destruct (span is_digit r2) as [b r3] eqn:E2.
    apply span_app in E2 as ->.
    destruct b as [|b0 b]; [done |]. destruct r3 as [|c3 g]; [done |].
    destruct (Ascii.eqb_spec c3 ":") as [->|Hcolon].
    + destruct (two_digits g) eqn:Hg; [| done]. intros [= <- <- <-].
      split; [done |]. split; [done |]. split; [by intros ? [= <-] | done].
    + intros H. exfalso. revert H.
      destruct c3 as [[] [] [] [] [] [] [] []]; try done.
  - destruct (Ascii.eqb_spec c ":") as [->|Hcolon].
    + destruct (two_digits r2) eqn:Hg; [| done]. intros [= <- <- <-].
      split; [done |]. split; [done |]. split; [done | done].
    + intros H. exfalso. revert H.
      destruct c as [[] [] [] [] [] [] [] []]; try done.
Qed.

Lemma digit_string_of_list (g : list ascii) :
  g ≠ [] → forallb is_digit g = true → digit_string (string_of_list_ascii g).
Proof.
  intros Hne Hd. split.
  - intros E. apply Hne. destruct g; [done | discriminate].
  - by rewrite list_ascii_of_string_of_list_ascii.
Qed.

Lemma string_length_of_list (g : list ascii) :
  String.length (string_of_list_ascii g) = length g.
Proof. induction g as [|c g IH]; simpl; [done | by rewrite IH]. Qed.

(** X1.  On a text of 7-bit ASCII characters [parse_time_stamp] accepts
    nothing but the documented form: when it returns a number, the text
    between the surrounding white space is
    [<minutes>[+<added>]:<two digits>], and the number is
    [(minutes + added) * 60 + seconds]. *)
Theorem parse_time_stamp_accepts_only (ts : string) (v : Z) :
  ascii_text ts →
  parse_time_stamp ts = Ok v →
  ∃ minutes added seconds,
    string_of_list_ascii (strip (list_ascii_of_string ts))
    = minutes +:+ added_text added +:+ ":" +:+ seconds
    ∧ digit_string minutes
    ∧ (∀ a, added = Some a → digit_string a)
    ∧ digit_string seconds ∧ String.length seconds = 2%nat
    ∧ v = (int_of minutes + added_minutes added) * 60 + int_of seconds.
Proof.
  intros _. unfold parse_time_stamp. destruct ts as [|c ts]; [done |].
  destruct (fullmatch_time_stamp _) as [[[g1 g2] g3]|] eqn:E; [| done].
  intros [= <-].
  destruct (fullmatch_groups_digits _ _ _ _ E) as (H1 & H2 & H3).
  destruct (fullmatch_time_stamp_inv _ _ _ _ E) as (Es & Hne1 & Hne2 & Htwo).
  exists (string_of_list_ascii g1), (string_of_list_ascii <$> g2), (string_of_list_ascii g3).
  assert (Hg3 : g3 ≠ []) by (by destruct g3).
  split; [| split; [by apply digit_string_of_list | split; [| split; [| split]]]].
  - rewrite Es, !string_of_list_ascii_app. by destruct g2.
  - intros a Ha. destruct g2 as [g|]; [| done]. injection Ha as <-.
    apply digit_string_of_list; [by apply Hne2 | by apply H2].
  - by apply digit_string_of_list.
  - rewrite string_length_of_list. by destruct g3 as [|x [|y [|z g]]].
  - unfold int_of, added_minutes.
    destruct g2 as [g|]; unfold fmap, option_fmap, option_map, int_of;
      by rewrite !list_ascii_of_string_of_list_ascii.
Qed.

(** A timestamp between blanks. *)
Lemma parse_time_stamp_accepts_only_witness :
  ∃ minutes added seconds,
    string_of_list_ascii (strip (list_ascii_of_string " 7:05 "))
    = minutes +:+ added_text added +:+ ":" +:+ seconds
    ∧ digit_string minutes
    ∧ (∀ a, added = Some a → digit_string a)
    ∧ digit_string seconds ∧ String.length seconds = 2%nat
    ∧ 425 = (int_of minutes + added_minutes added) * 60 + int_of seconds.
Proof. apply (parse_time_stamp_accepts_only " 7:05 " 425); reflexivity. Defined.

(** X2.  [parse_time_stamp] has two outcomes only: a number that is not
    negative, or a [ValueError] about the given text. *)
Theorem parse_time_stamp_outcomes (ts : string) :
  (∃ v, parse_time_stamp ts = Ok v ∧ 0 <= v)
  ∨ (∃ msg, parse_time_stamp ts = Raise (ValueError msg ts)).
Proof.
  destruct (parse_time_stamp ts) as [v|e] eqn:E.
  - left. exists v. split; [done |]. by apply (parse_time_stamp_nonneg ts).
  - right. unfold parse_time_stamp in E. destruct ts as [|c ts].
    + injection E as <-. by eexists.
    + destruct (fullmatch_time_stamp _) as [[[g1 g2] g3]|]; [done |].
      injection E as <-. by eexists.
Qed.

(** ** The canonical label *)

Lemma fmt_d_nonneg (width : nat) (m : Z) : 0 <= m → fmt_d width m = zfill width (digits_of m).
Proof. intros Hm. unfold fmt_d. destruct (Z.ltb_spec m 0); [lia | done]. Qed.

Lemma fmt_f3_whole_seconds (s : Z) :
  0 <= s → fmt_f3 6 (inject_Z s) = fmt_d 2 s ++ list_ascii_of_string ".000".
Proof.
  intros Hs. unfold fmt_f3. rewrite py_round_millis.
  destruct (Z.ltb_spec (s * 1000) 0) as [?|_]; [lia |].
  rewrite Z.div_mul, Z.mod_mul by done. rewrite fmt_d_nonneg by done.
  change (zfill 3 (digits_of 0)) with ["0"; "0"; "0"]%char.
  unfold zfill. rewrite <- app_assoc. rewrite length_app. simpl.
  replace (6 - (length (digits_of s) + 4))%nat with (2 - length (digits_of s))%nat by lia.
  done.
Qed.

Lemma seconds_field_width (s : Z) : 0 <= s < 60 → length (fmt_d 2 s) = 2%nat.
Proof.
  intros Hs.
  assert (Hall : forallb (λ x, length (fmt_d 2 x) =? 2)%nat (seqZ 0 60) = true)
    by (by vm_compute).
  rewrite forallb_forall in Hall.
  apply Nat.eqb_eq, Hall, list_elem_of_In, elem_of_seqZ. lia.
Qed.

(** A text that starts with digits followed by a dash is no timestamp. *)
Lemma parse_time_stamp_rejects_dash (tag : string) (c0 : ascii) (A B : list ascii) (d : ascii) :
  list_ascii_of_string tag = (c0 :: A) ++ "-"%char :: B ++ [d] →
  forallb is_digit (c0 :: A) = true → is_space d = false →
  parse_time_stamp tag = Raise (ValueError "Unrecognized time format" tag).
Proof.
  intros Etag Hd Hsp. unfold parse_time_stamp.
  destruct tag as [|x rest]; [done |]. rewrite Etag.
  assert (Hc0 : is_digit c0 = true) by (simpl in Hd; by apply andb_true_iff in Hd as [? _]).
  assert (Estrip : strip ((c0 :: A) ++ "-"%char :: B ++ [d]) = (c0 :: A) ++ "-"%char :: B ++ [d]).
  { rewrite app_comm_cons, (app_assoc (c0 :: A)). rewrite <- app_comm_cons.
    apply strip_ends; [by apply digit_not_space | done]. }
  rewrite Estrip. unfold fullmatch_time_stamp.
  by rewrite (span_stop is_digit (c0 :: A) "-").
Qed.

(** X3.  The tag of a timestamp is [MM-SS.000]: the minutes of the parsed
    time on at least two digits, its seconds below 60 on exactly two, and
    thousandths that are always zero.  A tag is not a timestamp itself:
    [parse_time_stamp] rejects it. *)
Theorem norm_ts_for_filename_shape (ts tag : string) :
  norm_ts_for_filename ts = Ok tag →
  ∃ sec,
    parse_time_stamp ts = Ok sec
    ∧ 0 <= sec mod 60 < 60
    ∧ list_ascii_of_string tag
      = fmt_d 2 (sec / 60) ++ "-"%char :: fmt_d 2 (sec mod 60) ++ list_ascii_of_string ".000"
    ∧ length (fmt_d 2 (sec mod 60)) = 2%nat
    ∧ (2 <= length (fmt_d 2 (sec / 60)))%nat
    ∧ parse_time_stamp tag = Raise (ValueError "Unrecognized time format" tag).
Proof.
  unfold norm_ts_for_filename.
  destruct (parse_time_stamp ts) as [sec|e] eqn:Hp; [| done]. intros [= <-].
  pose proof (parse_time_stamp_nonneg ts sec Hp) as Hsec.
  pose proof (Z.mod_pos_bound sec 60 ltac:(lia)) as Hmod.
  assert (Hm : 0 <= sec / 60) by (by apply Z.div_pos).
  assert (Hs : sec - 60 * (sec / 60) = sec mod 60) by (rewrite Z.mod_eq by done; lia).
  destruct (digits_of_spec (sec / 60) Hm) as (Hne & Hd & _).
  destruct (zfill_digits 2 _ Hd) as [Hd2 _].
  assert (Elabel : mm_ss_label (sec / 60) (inject_Z (sec - 60 * (sec / 60)))
    = fmt_d 2 (sec / 60) ++ "-"%char :: fmt_d 2 (sec mod 60) ++ list_ascii_of_string ".000").
  { unfold mm_ss_label. rewrite Hs. by rewrite fmt_f3_whole_seconds by lia. }
  exists sec. split; [done |]. split; [done |].
  rewrite list_ascii_of_string_of_list_ascii, Elabel.
  split; [done |]. split; [by apply seconds_field_width |].
  assert (Hlen : (2 <= length (fmt_d 2 (sec / 60)))%nat).
  { rewrite fmt_d_nonneg by done. unfold zfill. rewrite length_app, length_replicate. lia. }
  split; [done |].
  rewrite fmt_d_nonneg in Hlen |- * by done.
  destruct (zfill 2 (digits_of (sec / 60))) as [|c0 A] eqn:EA; [simpl in Hlen; lia |].
  apply (parse_time_stamp_rejects_dash _ c0 A (fmt_d 2 (sec mod 60) ++ [ "."; "0"; "0"]%char) "0");
    [| done | done].
  rewrite list_ascii_of_string_of_list_ascii.
  change (list_ascii_of_string ".000") with ([ "."; "0"; "0"]%char ++ ["0"%char]).
  by rewrite <- !app_assoc.
Qed.

(** The tag of the stoppage-time stamp ["45+2:10"]. *)
Lemma norm_ts_for_filename_shape_witness :
  ∃ sec,
    parse_time_stamp "45+2:10" = Ok sec
    ∧ 0 <= sec mod 60 < 60
    ∧ list_ascii_of_string "47-10.000"
      = fmt_d 2 (sec / 60) ++ "-"%char :: fmt_d 2 (sec mod 60) ++ list_ascii_of_string ".000"
    ∧ length (fmt_d 2 (sec mod 60)) = 2%nat
    ∧ (2 <= length (fmt_d 2 (sec / 60)))%nat
    ∧ parse_time_stamp "47-10.000"
      = Raise (ValueError "Unrecognized time format" "47-10.000").
Proof. apply (norm_ts_for_filename_shape "45+2:10" "47-10.000"). by vm_compute. Defined.

(** ** Removing repeated timestamps *)

Lemma unique_in_order_spec (l : list string) :
  ∀ seen : gset string,
  NoDup (unique_in_order seen l)
  ∧ (∀ x, x ∈ unique_in_order seen l ↔ x ∈ l ∧ x ∉ seen)
  ∧ sublist (unique_in_order seen l) l.
Proof.
  induction l as [|ts l IH]; intros seen; simpl.
  { split; [constructor |]. split; [| constructor].
    intros x. rewrite elem_of_nil. tauto. }
  case_bool_decide as Hseen.
  - destruct (IH seen) as (Hnd & Hin & Hsub). split; [done |]. split.
    + intros x. rewrite Hin, elem_of_cons. split; [tauto |].
      intros [[->|Hx] Hn]; [done | tauto].
    + by apply sublist_cons.
  - destruct (IH ({[ts]} ∪ seen)) as (Hnd & Hin & Hsub). split; [| split].
    + apply NoDup_cons. split; [| done]. rewrite Hin. set_solver.
    + intros x. rewrite !elem_of_cons, Hin. split.
      * intros [->|[Hx Hn]]; [tauto |]. split; [tauto | set_solver].
      * intros [[->|Hx] Hn]; [tauto |].
        destruct (decide (x = ts)) as [->|Hne]; [tauto |]. right. split; [done | set_solver].
    + by apply sublist_skip.
Qed.

Lemma unique_in_order_fixed (l : list string) :
  ∀ seen : gset string,
  NoDup l → (∀ x, x ∈ l → x ∉ seen) → unique_in_order seen l = l.
Proof.
  induction l as [|ts l IH]; intros seen Hnd Hfresh; simpl; [done |].
  apply NoDup_cons in Hnd as [Hts Hnd].
  case_bool_decide as Hseen.
  - exfalso. apply (Hfresh ts); [by left | done].
  - f_equal. apply IH; [done |]. intros x Hx. 
    assert (x ≠ ts) by (by intros ->).
    specialize (Hfresh x ltac:(by right)). set_solver.
Qed.

Lemma unique_in_order_snoc (l : list string) (x : string) :
  ∀ seen : gset string,
  unique_in_order seen (l ++ [x])
  = unique_in_order seen l ++ (if bool_decide (x ∈ seen ∨ x ∈ l) then [] else [x]).
Proof.
  induction l as [|y l IH]; intros seen; simpl.
  { rewrite (bool_decide_ext (x ∈ seen ∨ x ∈ []) (x ∈ seen)) by set_solver.
    by destruct (bool_decide (x ∈ seen)). }
  case_bool_decide as Hy.
  - rewrite IH.
    rewrite (bool_decide_ext (x ∈ seen ∨ x ∈ y :: l) (x ∈ seen ∨ x ∈ l)); [done |].
    set_solver.
  - rewrite IH. simpl.
    rewrite (bool_decide_ext (x ∈ {[y]} ∪ seen ∨ x ∈ l) (x ∈ seen ∨ x ∈ y :: l)); [done |].
    set_solver.
Qed.

(** X4.  The removal of repeated timestamps keeps each timestamp of the
    list once and adds nothing; applied again it changes nothing.  The
    result is in the order of first appearance: a timestamp appended to the
    list leaves the result as it is when it occurred before, and comes last
    in the result when it is new. *)
Theorem unique_in_order_first_seen (l : list string) (x : string) :
  NoDup (unique_in_order ∅ l)
  ∧ (∀ x, x ∈ unique_in_order ∅ l ↔ x ∈ l)
  ∧ sublist (unique_in_order ∅ l) l
  ∧ unique_in_order ∅ (unique_in_order ∅ l) = unique_in_order ∅ l
  ∧ (x ∈ l → unique_in_order ∅ (l ++ [x]) = unique_in_order ∅ l)
  ∧ (x ∉ l → unique_in_order ∅ (l ++ [x]) = unique_in_order ∅ l ++ [x]).
Proof.
  destruct (unique_in_order_spec l ∅) as (Hnd & Hin & Hsub).
  split; [done |]. split; [intros y; rewrite Hin; set_solver |]. split; [done |].
  split; [apply unique_in_order_fixed; [done | set_solver] |].
  rewrite unique_in_order_snoc.
  split; intros Hx.
  - rewrite bool_decide_eq_true_2 by (by right). by rewrite app_nil_r.
  - rewrite bool_decide_eq_false_2; [done |]. set_solver.
Qed.

(** ** Splitting the records by half *)

(** X5.  The list of a half holds, in the order of the file, the non-empty
    timestamps of the records whose [half] is that half; a record without
    timestamp, without [half], or with another [half] goes to neither list. *)
Theorem split_by_half_selects (comments : list Comment) :
  Batch.split_by_half comments
  = (omap (timestamp_of_half 1) comments, omap (timestamp_of_half 2) comments).
Proof.
  induction comments as [|c rest IH]; [done |].
  simpl. rewrite IH. unfold timestamp_of_half.
  destruct (default EmptyString (time_stamp c)) as [|a ts]; [done |].
  destruct (Z.eqb_spec (default 0 (half c)) 1) as [E|?].
  - rewrite E. done.
  - by destruct (default 0 (half c) =? 2).
Qed.

(** ** Deduplication in the routed scripts *)

Lemma pairs_from_sublist (comments : list Comment) :
  ∀ seen : gset (option Z * string * string),
  sublist (Labelled.pairs_from seen comments) (omap record_pair comments).
Proof.
  induction comments as [|c rest IH]; intros seen; simpl; [constructor |].
  unfold record_pair at 1.
  destruct (default EmptyString (time_stamp c)) as [|a ts]; [apply IH |].
  case_bool_decide; [apply sublist_cons | apply sublist_skip]; apply IH.
Qed.

(** X6.  In [extract_clips_frames_label.py] the kept entries have pairwise
    different keys [(half, timestamp, category)], every key of a record with
    a timestamp is kept, and the entries stand in the order in which the
    records first appear. *)
Theorem labelled_pairs_first_seen (comments : list Comment) :
  NoDup (pair_key <$> Labelled.pairs comments)
  ∧ (∀ k, k ∈ pair_key <$> Labelled.pairs comments
          ↔ ∃ c, c ∈ comments ∧ has_timestamp c ∧ record_key c = k)
  ∧ sublist (Labelled.pairs comments) (omap record_pair comments).
Proof.
  destruct (pairs_from_spec comments ∅) as [Hnd Hk].
  split; [done |]. split; [| apply pairs_from_sublist].
  intros k. unfold Labelled.pairs. rewrite Hk. set_solver.
Qed.

Lemma ts_list_from_spec (comments : list Comment) :
  ∀ seen : gset string,
  NoDup ((NewExtract.ts_list_from seen comments).*1)
  ∧ ∀ ts ctype,
      (ts, ctype) ∈ NewExtract.ts_list_from seen comments
      ↔ ts ≠ EmptyString ∧ (ts ∉ seen)
        ∧ ∃ c, first_with_timestamp comments ts c ∧ record_type c = ctype.
Proof.
  induction comments as [|c rest IH]; intros seen.
  { split; [constructor |]. intros ts ctype. simpl. rewrite elem_of_nil.
    split; [done |]. intros (_ & _ & c & (pre & post & E & _) & _).
    by destruct pre. }
  assert (Hlater : ∀ ts c0, record_ts c ≠ ts →
            first_with_timestamp rest ts c0 → first_with_timestamp (c :: rest) ts c0).
  { intros ts c0 Hne (pre & post & -> & Hts & Hpre).
    exists (c :: pre), post. split; [done |]. split; [done |].
    intros c' [->|Hc']%elem_of_cons; [done | by apply Hpre]. }
  assert (Hearlier : ∀ ts c0, record_ts c ≠ ts →
            first_with_timestamp (c :: rest) ts c0 → first_with_timestamp rest ts c0).
  { intros ts c0 Hne (pre & post & E & Hts & Hpre).
    destruct pre as [|c1 pre]; simpl in E; injection E as -> ->; [done |].
    exists pre, post. split; [done |]. split; [done |].
    intros c' Hc'. apply Hpre. by apply elem_of_cons; right. }
  cbn [NewExtract.ts_list_from].
  change (default EmptyString (time_stamp c)) with (record_ts c).
  change (default "Unknown"%string (comments_type c)) with (record_type c).
  remember (record_ts c) as tc eqn:Ets. symmetry in Ets.
  destruct tc as [|a tsc].
  { destruct (IH seen) as [Hnd Hin]. split; [done |].
    intros ts ctype. rewrite Hin.
    split; intros (Hne & Hs & c0 & Hf & Hty); (split; [done |]); (split; [done |]);
      exists c0; (split; [| done]).
    - apply Hlater; [| done]. by intros <-.
    - apply Hearlier; [| done]. by intros <-. }
  case_bool_decide as Hseen.
  - destruct (IH seen) as [Hnd Hin]. split; [done |].
    intros ts ctype. rewrite Hin.
    split; intros (Hne & Hs & c0 & Hf & Hty); (split; [done |]); (split; [done |]);
      exists c0; (split; [| done]).
    + apply Hlater; [| done]. by intros <-.
    + apply Hearlier; [| done]. by intros <-.
  - destruct (IH ({[String a tsc]} ∪ seen)) as [Hnd Hin]. split.
    + rewrite fmap_cons. apply NoDup_cons. split; [| done].
      intros [[ts ctype] [E Hmem]]%list_elem_of_fmap. simpl in E. subst ts.
      apply Hin in Hmem as (_ & Hn & _). set_solver.
    + intros ts ctype. rewrite elem_of_cons, Hin. split.
      * intros [[= -> ->]|(Hne & Hn & c0 & Hf & Hty)].
        -- split; [done |]. split; [done |]. exists c. split; [| done].
           exists [], rest. split; [done |]. split; [done |]. by intros c' ?%elem_of_nil.
        -- split; [done |]. split; [set_solver |]. exists c0. split; [| done].
           apply Hlater; [| done]. set_solver.
      * intros (Hne & Hn & c0 & Hf & Hty).
        destruct (decide (ts = String a tsc)) as [->|Hneq].
        -- left. destruct Hf as (pre & post & E & Hts & Hpre).
           destruct pre as [|c1 pre]; simpl in E; injection E as -> ->.
           ++ by rewrite <- Hty.
           ++ exfalso. apply (Hpre c1); [by left | done].
        -- right. split; [done |]. split; [set_solver |]. exists c0. split; [| done].
           apply Hearlier; [| done]. by intros <-.
Qed.

(** X7.  In [newExtractFrames.py] every non-empty timestamp of the file is
    kept exactly once, and the comment type kept with it is that of the first
    record carrying the timestamp: later records with the same timestamp are
    dropped whatever their type. *)
Theorem ts_list_keeps_first_record (comments : list Comment) :
  NoDup ((NewExtract.ts_list comments).*1)
  ∧ ∀ ts ctype,
      (ts, ctype) ∈ NewExtract.ts_list comments
      ↔ ts ≠ EmptyString
        ∧ ∃ c, first_with_timestamp comments ts c ∧ record_type c = ctype.
Proof.
  destruct (ts_list_from_spec comments ∅) as [Hnd Hin]. split; [done |].
  intros ts ctype. unfold NewExtract.ts_list. rewrite Hin. set_solver.
Qed.

(** ** Routing by comment type *)

Module RoutingFacts.
Import NewExtract.

Lemma safe_char_not_space (c : ascii) : safe_char c = true → is_space c = false.
Proof.
  destruct c as [[] [] [] [] [] [] [] []]; vm_compute; congruence.
Qed.

Lemma sub_unsafe_safe (s : list ascii) :
  ∀ in_run, forallb safe_char (sub_unsafe in_run s) = true.
Proof.
  induction s as [|c s IH]; intros in_run; simpl; [done |].
  destruct (safe_char c) eqn:Hc; simpl; [by rewrite Hc, IH |].
  destruct in_run; simpl; by rewrite IH.
Qed.

Lemma sub_unsafe_fixed (s : list ascii) :
  forallb safe_char s = true → ∀ in_run, sub_unsafe in_run s = s.
Proof.
  induction s as [|c s IH]; [done |]. simpl.
  intros [Hc Hs]%andb_true_iff in_run. rewrite Hc. by rewrite IH.
Qed.

Lemma sub_unsafe_nonempty (c : ascii) (s : list ascii) : sub_unsafe false (c :: s) ≠ [].
Proof. simpl. by destruct (safe_char c). Qed.

Lemma strip_safe (s : list ascii) : forallb safe_char s = true → strip s = s.
Proof.
  intros Hs.
  assert (Hl : ∀ l, forallb safe_char l = true → lstrip l = l).
  { intros [|c l]; [done |]. simpl. intros [Hc _]%andb_true_iff.
    by rewrite safe_char_not_space. }
  unfold strip, rstrip. rewrite (Hl s Hs), Hl; [apply rev_involutive |].
  rewrite forallb_forall in Hs |- *. intros x Hx. apply Hs. by apply in_rev.
Qed.

End RoutingFacts.

Section RoutingClaims.
Context `{world : World}.

(** X8.  [get_output_dirs] creates and returns the two sub-directories of one
    name.  The name is never empty and uses only letters, digits, [.], [_]
    and [-]; it is ["Unknown"] when the comment type is blank, and otherwise
    the comment type with each run of other characters replaced by one [_].
    A name so obtained is mapped to itself. *)
Theorem get_output_dirs_safe_name (clips_dir frames_dir comment_type : string) :
  ∃ safe,
    NewExtract.get_output_dirs clips_dir frames_dir comment_type
    = ([Mkdir (path_join clips_dir safe); Mkdir (path_join frames_dir safe)],
       Ok (path_join clips_dir safe, path_join frames_dir safe))
    ∧ safe ≠ EmptyString
    ∧ forallb NewExtract.safe_char (list_ascii_of_string safe) = true
    ∧ (strip (list_ascii_of_string comment_type) = [] → safe = "Unknown"%string)
    ∧ (strip (list_ascii_of_string comment_type) ≠ [] →
       safe = string_of_list_ascii
                (NewExtract.sub_unsafe false (strip (list_ascii_of_string comment_type))))
    ∧ NewExtract.get_output_dirs clips_dir frames_dir safe
      = NewExtract.get_output_dirs clips_dir frames_dir comment_type.
Proof.
  unfold NewExtract.get_output_dirs.
  set (r := NewExtract.sub_unsafe false (strip (list_ascii_of_string comment_type))).
  assert (Hr : forallb NewExtract.safe_char r = true) by apply RoutingFacts.sub_unsafe_safe.
  assert (Hfix : ∀ l, l ≠ [] → forallb NewExtract.safe_char l = true →
            match string_of_list_ascii
                    (NewExtract.sub_unsafe false
                       (strip (list_ascii_of_string (string_of_list_ascii l)))) with
            | EmptyString => "Unknown"%string
            | String a b => String a b
            end = string_of_list_ascii l).
  { intros l Hne Hl. rewrite list_ascii_of_string_of_list_ascii.
    rewrite RoutingFacts.strip_safe, RoutingFacts.sub_unsafe_fixed by done.
    destruct l; [done | done]. }
  destruct (string_of_list_ascii r) as [|a b] eqn:Er.
  - exists "Unknown"%string. split; [done |]. split; [done |]. split; [done |].
    split; [done |]. split; [| done].
    intros Hne. exfalso. subst r.
    destruct (strip (list_ascii_of_string comment_type)) as [|c s]; [done |].
    apply (RoutingFacts.sub_unsafe_nonempty c s).
    destruct (NewExtract.sub_unsafe false (c :: s)); [done | discriminate].
  - assert (El : list_ascii_of_string (String a b) = r).
    { rewrite <- Er. apply list_ascii_of_string_of_list_ascii. }
    exists (String a b). split; [done |]. split; [done |].
    split; [by rewrite El |]. split.
    { intros E. subst r. by rewrite E in Er. }
    split; [done |].
    assert (Hne : r ≠ []) by (intros E; by rewrite E in Er).
    pose proof (Hfix r Hne Hr) as Hf. rewrite Er in Hf. by rewrite Hf.
Qed.

End RoutingClaims.

(** ** One job *)

Section JobFacts.
Context `{world : World}.

Lemma read_loop_effects (clip_name : string) (frame_name : Z → string)
    (end_f : Z) (save_idxs : gset Z) (n : nat) :
  ∀ idx wrote cap, n = Z.to_nat (end_f - idx) →
  ∀ e, In e (read_loop clip_name frame_name end_f save_idxs idx wrote cap).1 →
  (∃ f, e = WriterWrite clip_name f)
  ∨ (∃ i f, (idx <= i < end_f)%Z ∧ i ∈ save_idxs ∧ e = ImWrite (frame_name i) f
            ∧ In (WriterWrite clip_name f)
                (read_loop clip_name frame_name end_f save_idxs idx wrote cap).1).
Proof.
  induction n as [|n IH]; intros idx wrote cap Hn e.
  - rewrite read_loop_equation_1. simpl.
    destruct (Z_lt_dec idx end_f) as [Hlt|Hge]; [lia | done].
  - rewrite read_loop_equation_1. simpl.
    destruct (Z_lt_dec idx end_f) as [Hlt|Hge]; [| lia]. simpl.
    destruct (cap_read cap) as [[frame|] cap1] eqn:Hread; simpl; [| done].
    specialize (IH (idx + 1)%Z (wrote + 1)%Z cap1 ltac:(lia)).
    destruct (read_loop clip_name frame_name end_f save_idxs (idx + 1) (wrote + 1) cap1)
      as [t r] eqn:E. simpl in IH |- *.
    intros [<-|Hin]; [left; by eexists |].
    apply in_app_or in Hin as [Hin|Hin].
    + case_bool_decide as Hsave; [| done]. destruct Hin as [<-|[]].
      right. exists idx, frame. split; [lia |]. split; [done |]. split; [done | by left].
    + destruct (IH e Hin) as [Hw|(i & f & Hi & Hs & -> & Hf)]; [by left |].
      right. exists i, f. split; [lia |]. split; [done |]. split; [done |].
      right. apply in_or_app. by right.
Qed.

Lemma frame_effects_only (t : list effect) :
  List.filter is_control t = [] →
  opened_clips t = [] ∧ released_clips t = []
  ∧ List.filter is_outcome t = [] ∧ List.filter is_bad_timestamp_line t = []
  ∧ ∀ e, In e t → effect_path e ≠ None.
Proof.
  induction t as [|e t IH]; [done |]. simpl.
  destruct e; simpl; try done; intros Hf; destruct (IH Hf) as (? & ? & ? & ? & Hp);
    (repeat split; try done); by intros e [<-|He]; [| apply Hp].
Qed.

Lemma opened_clips_app (t1 t2 : list effect) :
  opened_clips (t1 ++ t2) = opened_clips t1 ++ opened_clips t2.
Proof. apply omap_app. Qed.

Lemma released_clips_app (t1 t2 : list effect) :
  released_clips (t1 ++ t2) = released_clips t1 ++ released_clips t2.
Proof. apply omap_app. Qed.

(** The effects of a job, with the monad unfolded. *)
Lemma job_trace (cap : Capture) (fps duration_sec : Q) (w h : Z)
    (center_sec before_sec after_sec : Q) (tag clips_dir frames_dir : string) :
  let win := window_of fps duration_sec center_sec before_sec after_sec in
  let clip := path_join clips_dir (clip_file_name tag win) in
  let loop := read_loop clip (λ idx, path_join frames_dir (frame_file_name tag fps idx))
                (end_f win) (save_idxs_nominal fps win before_sec after_sec)
                (start_f win) 0%Z (seek_frame cap (start_f win)) in
  Batch.write_clip_and_frames cap fps duration_sec w h center_sec
    before_sec after_sec tag clips_dir frames_dir
  = if (end_f win <=? start_f win)%Z then ([Print (SkippingNoRange tag)], Ok cap)
    else if writer_isOpened clip then
      ([WriterOpen clip] ++ loop.1
         ++ [WriterRelease clip; Print (WroteFrames tag loop.2.1 (clip_file_name tag win))],
       Ok loop.2.2)
    else ([Print (CannotOpenWriter clip)], Ok cap).
Proof.
  intros win clip loop. unfold Batch.write_clip_and_frames. fold win. fold clip.
  destruct (end_f win <=? start_f win)%Z; [done |].
  destruct (writer_isOpened clip); [| done]. cbn [negb]. fold loop.
  by destruct loop as [t [wrote cap']].
Qed.

(** X9.  A job touches one clip file at most: a clip that was opened is
    released before the job returns, also when a read failed; frames are
    appended to that clip only; and every still is a frame that was appended
    to the clip, stored below the frame directory. *)
Theorem job_uses_one_clip (cap : Capture) (fps duration_sec : Q) (w h : Z)
    (center_sec before_sec after_sec : Q) (tag clips_dir frames_dir : string) :
  ∃ t cap',
    Batch.write_clip_and_frames cap fps duration_sec w h center_sec
      before_sec after_sec tag clips_dir frames_dir = (t, Ok cap')
    ∧ released_clips t = opened_clips t
    ∧ (opened_clips t = [] ∨ ∃ file, opened_clips t = [path_join clips_dir file])
    ∧ (∀ p f, In (WriterWrite p f) t → opened_clips t = [p])
    ∧ (∀ p f, In (ImWrite p f) t → under frames_dir p ∧ ∃ q, In (WriterWrite q f) t).
Proof.
  rewrite job_trace.
  set (win := window_of fps duration_sec center_sec before_sec after_sec).
  set (clip := path_join clips_dir (clip_file_name tag win)).
  destruct (end_f win <=? start_f win)%Z.
  { eexists _, _. split; [done |]. split; [done |]. split; [by left |].
    split; by intros p f [[=]|[]]. }
  destruct (writer_isOpened clip).
  2: { eexists _, _. split; [done |]. split; [done |]. split; [by left |].
       split; by intros p f [[=]|[]]. }
  pose proof (read_loop_effects clip
                (λ idx, path_join frames_dir (frame_file_name tag fps idx))
                (end_f win) (save_idxs_nominal fps win before_sec after_sec)
                (Z.to_nat (end_f win - start_f win)) (start_f win) 0%Z
                (seek_frame cap (start_f win)) eq_refl) as Heff.
  destruct (read_loop_spec clip
              (λ idx, path_join frames_dir (frame_file_name tag fps idx))
              (end_f win) (save_idxs_nominal fps win before_sec after_sec)
              (Z.to_nat (end_f win - start_f win)) (start_f win) 0%Z
              (seek_frame cap (start_f win)) eq_refl)
    as (t & wrote' & cap' & E & _ & _ & _ & Hf).
  rewrite E in Heff |- *. simpl in Heff |- *.
  eexists _, _. split; [done |].
  destruct (frame_effects_only t Hf) as (Ho & Hr & _ & _ & _).
  change (WriterOpen clip :: t ++ ?l) with ([WriterOpen clip] ++ t ++ l).
  rewrite !opened_clips_app, !released_clips_app, Ho, Hr. simpl.
  split; [done |]. split; [right; by eexists |].
  split.
  - intros p f [[=]|Hin].
    apply in_app_or in Hin as [Hin|[[=]|[[=]|[]]]].
    destruct (Heff _ Hin) as [[f' [= -> _]]|(i & f' & _ & _ & [=] & _)]. done.
  - intros p f [[=]|Hin].
    apply in_app_or in Hin as [Hin|[[=]|[[=]|[]]]].
    destruct (Heff _ Hin) as [[f' [=]]|(i & f' & _ & _ & [= -> ->] & Hw)].
    split; [by eexists |]. exists clip. right. apply in_or_app. by left.
Qed.

(** X10.  A video that reports a frame rate of zero yields a zero duration,
    and every job on it is skipped for want of a frame range: no clip is
    opened and no frame is read. *)
Theorem zero_fps_skips_job (cap : Capture) (fps : Q) (total_frames w h : Z)
    (center_sec before_sec after_sec : Q) (tag clips_dir frames_dir : string) :
  (fps == 0)%Q →
  (duration_of fps total_frames == 0)%Q
  ∧ Batch.write_clip_and_frames cap fps (duration_of fps total_frames) w h center_sec
      before_sec after_sec tag clips_dir frames_dir
    = ([Print (SkippingNoRange tag)], Ok cap).
Proof.
  intros Hfps. split.
  - unfold duration_of. destruct (Qlt_le_dec 0 fps) as [Hlt|_]; [| reflexivity].
    rewrite Hfps in Hlt. by apply Qlt_irrefl in Hlt.
  - apply (empty_range_is_skipped cap fps (duration_of fps total_frames) w h center_sec
             before_sec after_sec tag clips_dir frames_dir tag).
    simpl.
    assert (Hz : ∀ x : Q, py_round (x * fps) = 0).
    { intros x. assert (E : (x * fps == inject_Z 0)%Q) by (rewrite Hfps; ring).
      rewrite E. apply py_round_inject_Z. }
    rewrite !Hz. lia.
Qed.

End JobFacts.

(** A capture whose frame rate is unknown. *)
Lemma zero_fps_skips_job_witness :
  (duration_of 0 200 == 0)%Q
  ∧ Batch.write_clip_and_frames (world := Sample.world) Sample.full 0 (duration_of 0 200)
      64 48 (inject_Z 10) 15 15 "00-10.000" "clips" "frames"
    = ([Print (SkippingNoRange "00-10.000")], Ok Sample.full).
Proof.
  apply (zero_fps_skips_job (world := Sample.world) Sample.full 0 200 64 48
           (inject_Z 10) 15 15 "00-10.000" "clips" "frames").
  reflexivity.
Defined.

(** ** One half *)

Lemma with_keys_ok (l : list string) :
  Forall parseable l →
  ∃ kl, with_keys parse_time_stamp l = Ok kl ∧ kl.*2 = l.
Proof.
  induction 1 as [|ts l [v Hv] _ (kl & E & Hkl)]; simpl; [by exists [] |].
  rewrite Hv, E. exists ((v, ts) :: kl). split; [done |]. by rewrite fmap_cons, Hkl.
Qed.

Lemma with_keys_ok_inv (l : list string) (kl : list (Z * string)) :
  with_keys parse_time_stamp l = Ok kl → Forall parseable l.
Proof.
  revert kl. induction l as [|ts l IH]; intros kl; simpl; [constructor |].
  destruct (parse_time_stamp ts) as [v|e] eqn:Hv; [| done].
  destruct (with_keys parse_time_stamp l) as [kl'|e]; [| done]. intros _.
  constructor; [by exists v | by apply (IH kl')].
Qed.

Lemma sorted_by_ok (l : list string) :
  Forall parseable l →
  ∃ l', sorted_by l parse_time_stamp = Ok l' ∧ l' ≡ₚ l.
Proof.
  intros Hl. destruct (with_keys_ok l Hl) as (kl & E & Hkl).
  unfold sorted_by. rewrite E. eexists. split; [done |].
  rewrite <- Hkl. apply fmap_Permutation, stable_sort_perm.
Qed.

Section HalfClaims.
Context `{world : World}.

Lemma process_half_unfold (video_path : string) (timestamps : list string)
    (clips_dir frames_dir : string) (cap : Capture) :
  VideoCapture video_path = Some cap →
  let fps := cap_fps cap in
  let duration_sec := duration_of fps (cap_frame_count cap) in
  let info := Print (VideoInfo video_path fps (cap_frame_count cap) duration_sec) in
  Batch.process_half video_path timestamps clips_dir frames_dir
  = match sorted_by timestamps parse_time_stamp with
    | Raise e => ([info], Raise e)
    | Ok ts_sorted =>
        match for_each ts_sorted cap
                (half_body fps duration_sec (cap_width cap) (cap_height cap)
                   clips_dir frames_dir) with
        | (t, Ok _) => ([info] ++ t ++ [CapRelease; Print (Extracted clips_dir frames_dir)], Ok tt)
        | (t, Raise e) => ([info] ++ t, Raise e)
        end
    end.
Proof.
  intros Hcap fps duration_sec info. unfold Batch.process_half. rewrite Hcap.
  fold fps. fold duration_sec.
  destruct (sorted_by timestamps parse_time_stamp) as [ts_sorted|e]; [| done].
  change (for_each ts_sorted cap _)
    with (for_each ts_sorted cap
            (half_body fps duration_sec (cap_width cap) (cap_height cap) clips_dir frames_dir)).
  unfold bind, lift, print, emit, ret. simpl.
  destruct (for_each ts_sorted cap _) as [t [cap'|e]]; [| done].
  done.
Qed.

(** A job ends with exactly one of its three closing lines. *)
Lemma job_one_outcome (cap : Capture) (fps duration_sec : Q) (w h : Z)
    (center_sec before_sec after_sec : Q) (tag clips_dir frames_dir : string) :
  ∃ t cap',
    Batch.write_clip_and_frames cap fps duration_sec w h center_sec
      before_sec after_sec tag clips_dir frames_dir = (t, Ok cap')
    ∧ length (List.filter is_outcome t) = 1%nat
    ∧ List.filter is_bad_timestamp_line t = [].
Proof.
  destruct (write_clip_and_frames_outcome cap fps duration_sec w h center_sec
              before_sec after_sec tag clips_dir frames_dir)
    as [[_ ->]|[(_ & _ & ->)|(_ & _ & t & cap' & -> & _ & Hf & _)]];
    [by eexists _, _ | by eexists _, _ |].
  eexists _, _. split; [done |].
  destruct (frame_effects_only t Hf) as (_ & _ & Ho & Hb & _).
  rewrite !List.filter_app, Ho, Hb. done.
Qed.

Lemma half_body_parseable (fps duration_sec : Q) (w h : Z) (clips_dir frames_dir : string)
    (ts : string) (cap : Capture) :
  parseable ts →
  ∃ v tag,
    parse_time_stamp ts = Ok v ∧ norm_ts_for_filename ts = Ok tag
    ∧ half_body fps duration_sec w h clips_dir frames_dir ts cap
      = Batch.write_clip_and_frames cap fps duration_sec w h (inject_Z v)
          CLIP_BEFORE_SEC CLIP_AFTER_SEC tag clips_dir frames_dir.
Proof.
  intros [v Hv]. eexists v, _. split; [done |].
  unfold half_body, norm_ts_for_filename. rewrite Hv. split; [done |].
  unfold try_except, bind, lift, ret. simpl.
  by destruct (Batch.write_clip_and_frames _ _ _ _ _ _ _ _ _ _ _) as [t r].
Qed.

Lemma half_loop_parseable (fps duration_sec : Q) (w h : Z) (clips_dir frames_dir : string)
    (l : list string) :
  Forall parseable l →
  ∀ cap, ∃ t cap',
    for_each l cap (half_body fps duration_sec w h clips_dir frames_dir) = (t, Ok cap')
    ∧ length (List.filter is_outcome t) = length l
    ∧ List.filter is_bad_timestamp_line t = [].
Proof.
  induction 1 as [|ts l Hts _ IH]; intros cap; simpl; [by eexists _, _ |].
  destruct (half_body_parseable fps duration_sec w h clips_dir frames_dir ts cap Hts)
    as (v & tag & _ & _ & ->).
  destruct (job_one_outcome cap fps duration_sec w h (inject_Z v) CLIP_BEFORE_SEC
              CLIP_AFTER_SEC tag clips_dir frames_dir) as (t1 & cap1 & -> & H1 & Hb1).
  destruct (IH cap1) as (t2 & cap2 & E2 & H2 & Hb2).
  unfold bind. rewrite E2. eexists _, _. split; [done |].
  rewrite !List.filter_app, length_app, H1, H2, Hb1, Hb2. done.
Qed.

Lemma process_half_on_parseable (video_path : string) (timestamps : list string)
    (clips_dir frames_dir : string) (cap : Capture) :
  VideoCapture video_path = Some cap →
  Forall parseable timestamps →
  ∃ t,
    Batch.process_half video_path timestamps clips_dir frames_dir
    = ([Print (VideoInfo video_path (cap_fps cap) (cap_frame_count cap)
                 (duration_of (cap_fps cap) (cap_frame_count cap)))]
         ++ t ++ [CapRelease; Print (Extracted clips_dir frames_dir)],
       Ok tt)
    ∧ length (List.filter is_outcome t) = length timestamps
    ∧ List.filter is_bad_timestamp_line t = [].
Proof.
  intros Hcap Hts. rewrite (process_half_unfold _ _ _ _ cap Hcap).
  destruct (sorted_by_ok timestamps Hts) as (l' & -> & Hperm).
  assert (Hl' : Forall parseable l') by (by rewrite Hperm).
  destruct (half_loop_parseable (cap_fps cap) (duration_of (cap_fps cap) (cap_frame_count cap))
              (cap_width cap) (cap_height cap) clips_dir frames_dir l' Hl' cap)
    as (t & cap' & -> & Hout & Hbad).
  exists t. split; [done |]. split; [| done].
  rewrite Hout. by apply Permutation_length.
Qed.

(** X11.  When the video opens and every timestamp parses, [process_half]
    returns normally: after the video line, every timestamp gets exactly one
    job, each ending with one of the three closing lines (skipped, writer not
    opened, frames written), and the capture is released at the end. *)
Theorem process_half_completes (video_path : string) (timestamps : list string)
    (clips_dir frames_dir : string) (cap : Capture) :
  VideoCapture video_path = Some cap →
  Forall parseable timestamps →
  ∃ t,
    Batch.process_half video_path timestamps clips_dir frames_dir
    = ([Print (VideoInfo video_path (cap_fps cap) (cap_frame_count cap)
                 (duration_of (cap_fps cap) (cap_frame_count cap)))]
         ++ t ++ [CapRelease; Print (Extracted clips_dir frames_dir)],
       Ok tt)
    ∧ length (List.filter is_outcome t) = length timestamps.
Proof.
  intros Hcap Hts.
  destruct (process_half_on_parseable video_path timestamps clips_dir frames_dir cap Hcap Hts)
    as (t & E & Hout & _).
  by exists t.
Qed.

(** X12.  [process_half] never prints the line "Skipping bad timestamp": a
    timestamp that does not parse stops the half in the sort, before the loop
    whose handler would print it. *)
Theorem bad_timestamp_handler_never_runs (video_path : string) (timestamps : list string)
    (clips_dir frames_dir : string) :
  List.filter is_bad_timestamp_line
    (Batch.process_half video_path timestamps clips_dir frames_dir).1 = [].
Proof.
  destruct (VideoCapture video_path) as [cap|] eqn:Hcap.
  2: { unfold Batch.process_half. by rewrite Hcap. }
  destruct (with_keys parse_time_stamp timestamps) as [kl|e] eqn:Hk.
  - apply with_keys_ok_inv in Hk.
    destruct (process_half_on_parseable video_path timestamps clips_dir frames_dir cap Hcap Hk)
      as (t & -> & _ & Hbad).
    simpl. rewrite List.filter_app, Hbad. done.
  - rewrite (process_half_unfold _ _ _ _ cap Hcap). unfold sorted_by. by rewrite Hk.
Qed.

End HalfClaims.

(** Two well-formed timestamps on the sample video. *)
Lemma process_half_completes_witness :
  ∃ t,
    Batch.process_half (world := Sample.world) "full.mkv" ["0:03"; "0:01"]%string
      "clips" "frames"
    = ([Print (VideoInfo "full.mkv" 2 200 (duration_of 2 200))]
         ++ t ++ [CapRelease; Print (Extracted "clips" "frames")],
       Ok tt)
    ∧ length (List.filter is_outcome t) = 2%nat.
Proof.
  apply (process_half_completes (world := Sample.world) "full.mkv" ["0:03"; "0:01"]%string
           "clips" "frames" Sample.full).
  - reflexivity.
  - repeat constructor; by eexists.
Defined.

(** A malformed timestamp among three. *)
Lemma process_half_bad_timestamp_aborts_witness :
  ∃ e',
    is_ValueError e' = true
    ∧ Batch.process_half (world := Sample.world) "full.mkv" ["0:01"; "abc"; "0:03"]%string
        "clips" "frames"
      = ([Print (VideoInfo "full.mkv" 2 200 (duration_of 2 200))], Raise e').
Proof.
  apply (process_half_bad_timestamp_aborts (world := Sample.world) "full.mkv"
           ["0:01"; "abc"; "0:03"]%string "clips" "frames" Sample.full "abc"
           (ValueError "Unrecognized time format" "abc")).
  - reflexivity.
  - right. by left.
  - reflexivity.
Defined.

(** ** Where a run writes *)

Lemma under_path_join (dir rest : string) : under dir (path_join dir rest).
Proof. by exists rest. Qed.

Lemma under_trans (dir sub p : string) : under (path_join dir sub) p → under dir p.
Proof.
  intros [rest ->]. exists (sub +:+ "/" +:+ rest). unfold path_join.
  by rewrite !string_app_assoc.
Qed.


Section Confinement.
Context `{world : World}.


Lemma confined_silent (dir : string) (e : effect) : effect_path e = None → confined dir e.
Proof. intros He p. by rewrite He. Qed.

Lemma confined_path (dir : string) (e : effect) (p : string) :
  effect_path e = Some p → under dir p → confined dir e.
Proof. intros He Hp q. rewrite He. by intros [= <-]. Qed.


Lemma traced_ret (P : effect → Prop) {A} (a : A) : traced P (ret a).
Proof. constructor. Qed.

Lemma traced_lift (P : effect → Prop) {A} (r : result A) : traced P (lift r).
Proof. constructor. Qed.

Lemma traced_emit (P : effect → Prop) (e : effect) : P e → traced P (emit e).
Proof. intros He. by repeat constructor. Qed.

Lemma traced_bind (P : effect → Prop) {A B} (m : M A) (k : A → M B) :
  traced P m → (∀ a, traced P (k a)) → traced P (bind m k).
Proof.
  unfold traced, bind. intros Hm Hk. destruct m as [t [a|e]]; [| done].
  specialize (Hk a). destruct (k a) as [t' r]. simpl in *. by apply Forall_app.
Qed.

Lemma traced_try_except (P : effect → Prop) {A} (m : M A) (c : exn → bool) (h : exn → M A) :
  traced P m → (∀ e, traced P (h e)) → traced P (try_except m c h).
Proof.
  unfold traced, try_except. intros Hm Hh. destruct m as [t [a|e]]; [done |].
  destruct (c e); [| done]. specialize (Hh e). destruct (h e) as [t' r].
  simpl in *. by apply Forall_app.
Qed.

Lemma traced_for_each (P : effect → Prop) {A S} (l : list A) (body : A → S → M S) :
  (∀ x s, traced P (body x s)) → ∀ s, traced P (for_each l s body).
Proof.
  intros Hb. induction l as [|x l IH]; intros s; simpl; [apply traced_ret |].
  apply traced_bind; [apply Hb | apply IH].
Qed.


Lemma job_traced (cap : Capture) (fps duration_sec : Q) (w h : Z)
    (center_sec before_sec after_sec : Q) (tag clips_dir frames_dir : string) :
  traced (job_paths clips_dir frames_dir)
    (Batch.write_clip_and_frames cap fps duration_sec w h center_sec
       before_sec after_sec tag clips_dir frames_dir).
Proof.
  unfold traced. rewrite job_trace. cbv zeta.
  set (win := window_of fps duration_sec center_sec before_sec after_sec).
  set (clip := path_join clips_dir (clip_file_name tag win)).
  assert (Hsilent : ∀ m, job_paths clips_dir frames_dir (Print m))
    by (intros m; left; by apply confined_silent).
  destruct (end_f win <=? start_f win)%Z; [by repeat constructor |].
  destruct (writer_isOpened clip); [| by repeat constructor].
  simpl. constructor.
  { left. eapply confined_path; [done | apply under_path_join]. }
  apply Forall_app. split.
  - apply Forall_forall. intros e He. apply list_elem_of_In in He.
    destruct (read_loop_effects clip
                (λ idx, path_join frames_dir (frame_file_name tag fps idx))
                (end_f win) (save_idxs_nominal fps win before_sec after_sec)
                (Z.to_nat (end_f win - start_f win)) (start_f win) 0%Z
                (seek_frame cap (start_f win)) eq_refl e He)
      as [[f ->]|(i & f & _ & _ & -> & _)].
    + left. eapply confined_path; [done | apply under_path_join].
    + right. eapply confined_path; [done | apply under_path_join].
  - constructor; [| by repeat constructor].
    left. eapply confined_path; [done | apply under_path_join].
Qed.

Lemma half_traced (video_path : string) (timestamps : list string)
    (clips_dir frames_dir : string) :
  traced (job_paths clips_dir frames_dir)
    (Batch.process_half video_path timestamps clips_dir frames_dir).
Proof.
  assert (Hsilent : ∀ e, effect_path e = None → job_paths clips_dir frames_dir e)
    by (intros e He; left; by apply confined_silent).
  unfold Batch.process_half. destruct (VideoCapture video_path) as [cap|].
  2: { apply traced_bind; [by apply traced_emit, Hsilent | intros; apply traced_ret]. }
  apply traced_bind; [by apply traced_emit, Hsilent | intros _].
  apply traced_bind; [apply traced_lift | intros ts_sorted].
  apply traced_bind.
  - apply traced_for_each. intros ts cap0.
    apply traced_bind.
    + apply traced_try_except.
      * apply traced_bind; [apply traced_lift | intros; apply traced_ret].
      * intros e. apply traced_bind; [by apply traced_emit, Hsilent | intros; apply traced_ret].
    + intros [center_sec|]; [| apply traced_ret].
      apply traced_bind; [apply traced_lift | intros tag]. apply job_traced.
  - intros cap'. apply traced_bind; [by apply traced_emit, Hsilent | intros _].
    apply traced_bind; [by apply traced_emit, Hsilent | intros; apply traced_ret].
Qed.



(** X14.  Whatever its inputs, and also when it stops on an exception,
    [process_half] creates and writes files only below the clip directory or
    the frame directory it was given. *)
Theorem process_half_writes_below_its_dirs (video_path : string) (timestamps : list string)
    (clips_dir frames_dir : string) (e : effect) (p : string) :
  In e (Batch.process_half video_path timestamps clips_dir frames_dir).1 →
  effect_path e = Some p →
  under clips_dir p ∨ under frames_dir p.
Proof.
  intros He Hp. apply list_elem_of_In in He.
  pose proof (half_traced video_path timestamps clips_dir frames_dir) as Ht.
  unfold traced in Ht. rewrite Forall_forall in Ht.
  destruct (Ht e He) as [Hc|Hc]; [left | right]; by apply Hc.
Qed.



End Confinement.

Lemma process_half_writes_below_its_dirs_witness :
  under "clips" "clips/clip_00-01.000_0000.000s_to_0016.000s.mp4"
  ∨ under "frames" "clips/clip_00-01.000_0000.000s_to_0016.000s.mp4".
Proof.
  apply (process_half_writes_below_its_dirs (world := Sample.world) "short.mkv"
           ["0:01"%string] "clips" "frames"
           (WriterOpen "clips/clip_00-01.000_0000.000s_to_0016.000s.mp4")).
  - vm_compute. right. by left.
  - reflexivity.
Defined.


(** ** One match *)

Section MatchClaims.
Context `{world : World}.

Lemma unique_in_order_parseable (l : list string) :
  Forall parseable l → Forall parseable (unique_in_order ∅ l).
Proof.
  rewrite !Forall_forall. intros Hl x Hx.
  destruct (unique_in_order_spec l ∅) as (_ & Hin & _). apply Hl. by apply Hin.
Qed.

Lemma bind_ok {A B} (m : M A) (k : A → M B) (t : list effect) (a : A) :
  m = (t, Ok a) → bind m k = (t ++ (k a).1, (k a).2).
Proof. intros ->. unfold bind. by destruct (k a). Qed.

(** One of the two guarded calls of [process_half] in [process_match]. *)
Lemma half_step (label : message) (video_path : string) (timestamps : list string)
    (clips_dir frames_dir : string) :
  is_outcome (Print label) = false →
  Forall parseable timestamps →
  ∃ t,
    match timestamps with
    | [] => ret tt
    | _ :: _ =>
        print label ;;; Batch.process_half video_path timestamps clips_dir frames_dir
    end = (t, Ok tt)
    ∧ length (List.filter is_outcome t)
      = match VideoCapture video_path with Some _ => length timestamps | None => O end.
Proof.
  intros Hlabel Hts. destruct timestamps as [|ts0 timestamps'].
  { exists []. split; [done |]. by destruct (VideoCapture video_path). }
  set (timestamps := ts0 :: timestamps') in *.
  destruct (VideoCapture video_path) as [cap|] eqn:Hcap.
  - destruct (process_half_on_parseable video_path timestamps clips_dir frames_dir cap Hcap Hts)
      as (t & E & Hout & _).
    unfold bind, print, emit. rewrite E. eexists. split; [done |].
    rewrite !List.filter_app, !length_app. cbn [List.filter]. rewrite Hlabel, Hout. simpl. lia.
  - unfold Batch.process_half. rewrite Hcap. eexists. split; [done |].
    cbn [List.filter app]. by rewrite Hlabel.
Qed.

(** X16.  When a match folder holds the JSON file and both videos, the JSON
    loads and every timestamp of either half parses, [process_match] returns
    normally and ends with the line "Completed processing"; it ran one job
    for each distinct timestamp of every half whose video could be opened. *)
Theorem process_match_completes (match_folder : Batch.MatchFolder) (output_base : string)
    (json_path video1 video2 : string) (more_json more1 more2 : list string)
    (comments : list Comment) :
  Batch.json_files match_folder = json_path :: more_json →
  Batch.video_half1 match_folder = video1 :: more1 →
  Batch.video_half2 match_folder = video2 :: more2 →
  load_comments json_path = Ok comments →
  Forall parseable (Batch.split_by_half comments).1 →
  Forall parseable (Batch.split_by_half comments).2 →
  ∃ t,
    Batch.process_match match_folder output_base
    = (t ++ [Print (CompletedProcessing (Batch.name match_folder))], Ok tt)
    ∧ length (List.filter is_outcome t)
      = (jobs_of_half video1 (Batch.split_by_half comments).1
         + jobs_of_half video2 (Batch.split_by_half comments).2)%nat.
Proof.
  intros Hjson Hv1 Hv2 Hload. unfold Batch.process_match, jobs_of_half.
  rewrite Hjson, Hv1, Hv2, Hload.
  destruct (Batch.split_by_half comments) as [h1 h2] eqn:Hsplit. simpl fst. simpl snd.
  intros Hp1%unique_in_order_parseable Hp2%unique_in_order_parseable.
  set (match_out := path_join output_base (Batch.name match_folder)).
  destruct (half_step ProcessingFirstHalf video1 (unique_in_order ∅ h1)
              (path_join (path_join match_out "first_half") "clips")
              (path_join (path_join match_out "first_half") "frames") eq_refl Hp1) as (t1 & E1 & H1).
  destruct (half_step ProcessingSecondHalf video2 (unique_in_order ∅ h2)
              (path_join (path_join match_out "second_half") "clips")
              (path_join (path_join match_out "second_half") "frames") eq_refl Hp2) as (t2 & E2 & H2).
  assert (Hpre : ∃ pre, match more_json with
                        | [] => ret tt
                        | _ :: _ => print (MultipleJsonFiles (Batch.name match_folder))
                        end = (pre, Ok tt) ∧ List.filter is_outcome pre = []).
  { destruct more_json; by eexists. }
  destruct Hpre as (pre & Epre & Hpre).
  rewrite (bind_ok (print _) _ [_] tt eq_refl). cbn beta; cbn [fst snd].
  rewrite (bind_ok _ _ pre tt Epre). cbn beta; cbn [fst snd].
  rewrite (bind_ok (print _) _ [_] tt eq_refl). cbn beta; cbn [fst snd].
  rewrite (bind_ok (lift _) _ [] comments eq_refl). cbn beta; cbn [fst snd].
  rewrite Hsplit. fold match_out.
  rewrite (bind_ok (print _) _ [_] tt eq_refl). cbn beta; cbn [fst snd].
  do 4 (rewrite (bind_ok (emit _) _ [_] tt eq_refl); cbn beta; cbn [fst snd]).
  rewrite (bind_ok _ _ t1 tt E1). cbn beta; cbn [fst snd].
  rewrite (bind_ok _ _ t2 tt E2). cbn beta; cbn [fst snd].
  rewrite (bind_ok (print _) _ [_] tt eq_refl). cbn beta; cbn [fst snd].
  eexists (_ :: pre ++ _ :: _ :: _ :: _ :: _ :: _ :: t1 ++ t2). split.
  { simpl. rewrite <- !app_assoc. simpl. by rewrite <- !app_assoc. }
  cbn [List.filter]. simpl is_outcome. cbn iota.
  rewrite !List.filter_app, !length_app, Hpre. simpl.
  rewrite !List.filter_app, !length_app, H1, H2. done.
Qed.

End MatchClaims.

(** A complete match folder of the sample project. *)
Lemma process_match_completes_witness :
  ∃ t,
    Batch.process_match (world := Sample.world) Sample.match_ok "out"
    = (t ++ [Print (CompletedProcessing "m1")], Ok tt)
    ∧ length (List.filter is_outcome t) = 2%nat.
Proof.
  apply (process_match_completes (world := Sample.world) Sample.match_ok "out"
           "labels.json" "a_1.mkv" "a_2.mkv" [] [] []
           [Sample.comment "0:02" 1 "goal"; Sample.comment "0:02" 1 "goal";
            Sample.comment "1:39" 2 "card"]).
  1-4: reflexivity.
  all: repeat constructor; by eexists.
Defined.

(** ** The stills of a job *)

Lemma py_round_near (x : Q) :
  (inject_Z (py_round x) - (1 # 2) <= x ∧ x <= inject_Z (py_round x) + (1 # 2))%Q.
Proof.
  pose proof (Qfloor_le x) as Hlo. pose proof (Qlt_floor x) as Hhi.
  rewrite inject_Z_plus in Hhi. change (inject_Z 1) with 1%Q in Hhi.
  destruct (py_round_cases x) as [[-> H]|[-> H]].
  - split; lra.
  - rewrite inject_Z_plus. change (inject_Z 1) with 1%Q. split; lra.
Qed.

Lemma py_round_eq_close (x y : Q) : py_round x = py_round y → (y - x <= 1)%Q.
Proof.
  intros E. pose proof (py_round_near x) as [Hx1 Hx2]. pose proof (py_round_near y) as [Hy1 Hy2].
  rewrite E in *. lra.
Qed.

Lemma mm_ss_label_inj (m1 m2 : Z) (s1 s2 : Q) :
  0 <= m1 → 0 <= m2 → (0 <= s1)%Q → (0 <= s2)%Q →
  mm_ss_label m1 s1 = mm_ss_label m2 s2 →
  m1 = m2 ∧ py_round (s1 * 1000)%Q = py_round (s2 * 1000)%Q.
Proof.
  intros Hm1 Hm2 Hs1 Hs2 E. unfold mm_ss_label in E.
  rewrite !fmt_d_nonneg in E by done.
  destruct (digits_of_spec m1 Hm1) as (_ & Hd1 & Hv1).
  destruct (digits_of_spec m2 Hm2) as (_ & Hd2 & Hv2).
  destruct (zfill_digits 2 _ Hd1) as [Hz1 Hi1]. destruct (zfill_digits 2 _ Hd2) as [Hz2 Hi2].
  pose proof (f_equal (span is_digit) E) as Es.
  rewrite !(span_stop is_digit _ "-") in Es by done.
  injection Es as Ea Eb. split.
  - by rewrite <- Hv1, <- Hv2, <- Hi1, <- Hi2, Ea.
  - by apply (fmt_f3_millis 6).
Qed.

(** Consecutive frames are more than a millisecond apart below 1000 fps. *)
Lemma frame_time_gap (fps : Q) (i j : Z) :
  (0 < fps)%Q → (fps < 1000)%Q → i < j →
  (1 # 1000 < inject_Z j / fps - inject_Z i / fps)%Q.
Proof.
  intros Hpos Hlt Hij. unfold Qdiv.
  assert (Hr : (0 < / fps)%Q) by (by apply Qinv_lt_0_compat).
  assert (Hone : (/ fps * fps == 1)%Q) by (rewrite Qmult_comm; apply Qmult_inv_r; lra).
  assert (Hgap : (1 <= inject_Z j - inject_Z i)%Q).
  { unfold Qminus. rewrite <- inject_Z_opp, <- inject_Z_plus.
    change 1%Q with (inject_Z 1). rewrite <- Zle_Qle. lia. }
  assert (Hbig : (1 # 1000 < / fps)%Q).
  { destruct (Qlt_le_dec (1 # 1000) (/ fps)) as [?|Hle]; [done |]. exfalso.
    assert (H1 : (/ fps * fps <= (1 # 1000) * fps)%Q) by (apply Qmult_le_compat_r; lra).
    lra. }
  assert (H2 : (1 * / fps <= (inject_Z j - inject_Z i) * / fps)%Q)
    by (apply Qmult_le_compat_r; lra).
  lra.
Qed.

Lemma frame_label_parts (fps : Q) (idx : Z) :
  (0 < fps)%Q → 0 <= idx →
  let t_abs := (inject_Z idx / fps)%Q in
  0 <= Qfloor (t_abs / 60) ∧ (0 <= t_abs - 60 * inject_Z (Qfloor (t_abs / 60)))%Q.
Proof.
  intros Hpos Hidx t_abs.
  assert (Ht : (0 <= t_abs)%Q).
  { unfold t_abs, Qdiv. apply Qmult_le_0_compat.
    - change 0%Q with (inject_Z 0). by rewrite <- Zle_Qle.
    - by apply Qlt_le_weak, Qinv_lt_0_compat. }
  split.
  - change 0 with (Qfloor 0). apply Qfloor_resp_le. unfold Qdiv.
    apply Qmult_le_0_compat; [done | by compute].
  - pose proof (Qfloor_le (t_abs / 60)) as Hf.
    assert (E : (t_abs == t_abs / 60 * 60)%Q) by (field).
    lra.
Qed.

Lemma frame_file_name_inj (tag : string) (fps : Q) (i j : Z) :
  (0 < fps)%Q → (fps < 1000)%Q → 0 <= i → 0 <= j →
  frame_file_name tag fps i = frame_file_name tag fps j → i = j.
Proof.
  intros Hpos Hlt Hi Hj E. unfold frame_file_name in E.
  apply (f_equal list_ascii_of_string) in E. rewrite !list_ascii_of_string_app in E.
  do 3 apply app_inv_head in E. apply app_inv_tail in E.
  unfold frame_label in E. rewrite !list_ascii_of_string_of_list_ascii in E.
  destruct (frame_label_parts fps i Hpos Hi) as [Hmi Hsi].
  destruct (frame_label_parts fps j Hpos Hj) as [Hmj Hsj].
  apply mm_ss_label_inj in E as [Em Es]; [| done..].
  rewrite Em in Es, Hsi.
  pose proof (py_round_eq_close _ _ Es) as H1.
  pose proof (py_round_eq_close _ _ (eq_sym Es)) as H2.
  destruct (Z.lt_trichotomy i j) as [Hij|[->|Hji]]; [exfalso | done | exfalso].
  - pose proof (frame_time_gap fps i j Hpos Hlt Hij). lra.
  - pose proof (frame_time_gap fps j i Hpos Hlt Hji). lra.
Qed.

Lemma string_app_inv_head (a b c : string) : a +:+ b = a +:+ c → b = c.
Proof.
  intros E. apply (f_equal list_ascii_of_string) in E.
  rewrite !list_ascii_of_string_app in E. apply app_inv_head in E.
  by rewrite <- (string_of_list_ascii_of_string b), <- (string_of_list_ascii_of_string c), E.
Qed.

Lemma path_join_inj (dir a b : string) : path_join dir a = path_join dir b → a = b.
Proof. unfold path_join. by intros E%string_app_inv_head%string_app_inv_head. Qed.

Lemma size_list_to_set_le (l : list Z) : (size (list_to_set (C := gset Z) l) ≤ length l)%nat.
Proof.
  induction l as [|x l IH]; [done |]. cbn [list_to_set length].
  destruct (decide (x ∈ (list_to_set l : gset Z))) as [Hin|Hout].
  - replace ({[x]} ∪ list_to_set l) with (list_to_set l : gset Z) by set_solver. lia.
  - rewrite size_union by set_solver. rewrite size_singleton. lia.
Qed.

Lemma saved_indices_NoDup (S : gset Z) (idx n : Z) : NoDup (saved_indices S idx n).
Proof. unfold saved_indices. apply NoDup_ListNoDup, List.NoDup_filter, NoDup_ListNoDup, NoDup_seqZ. Qed.

Lemma saved_indices_length (S : gset Z) (idx n : Z) :
  (length (saved_indices S idx n) ≤ size S)%nat.
Proof.
  rewrite <- (size_list_to_set (C := gset Z)) by apply saved_indices_NoDup.
  apply subseteq_size. intros i Hi. apply elem_of_list_to_set, list_elem_of_In in Hi.
  by apply elem_of_saved_indices in Hi as [Hi _].
Qed.

Lemma length_py_range (n : Z) :
  length (py_range 0 (n + 1) FRAME_SAMPLING_EVERY_SEC) = Z.to_nat (n + 1).
Proof.
  unfold py_range, FRAME_SAMPLING_EVERY_SEC. rewrite length_fmap, length_seqZ.
  f_equal. rewrite Z.div_1_r. lia.
Qed.

Lemma size_save_idxs_nominal (fps : Q) (w : Window) (before_sec after_sec : Q) :
  (size (save_idxs_nominal fps w before_sec after_sec)
   ≤ Z.to_nat (py_int (after_sec + before_sec) + 1))%nat.
Proof.
  unfold save_idxs_nominal. etrans; [apply size_list_to_set_le |].
  by rewrite length_fmap, length_py_range.
Qed.

Lemma size_save_idxs_window (fps : Q) (w : Window) :
  (size (save_idxs_window fps w) ≤ Z.to_nat (py_round (end_sec w - start_sec w) + 1))%nat.
Proof.
  unfold save_idxs_window. etrans; [apply size_list_to_set_le |].
  by rewrite length_fmap, length_py_range.
Qed.

Lemma start_f_nonneg (fps d e b a : Q) : (0 <= fps)%Q → 0 <= start_f (window_of fps d e b a).
Proof.
  intros Hfps.
  change (start_f (window_of fps d e b a))
    with (py_round (start_sec (window_of fps d e b a) * fps)).
  change 0 with (py_round 0). apply py_round_mono.
  apply Qmult_le_0_compat; [apply window_start_nonneg | done].
Qed.

Section StillClaims.
Context `{world : World}.

(** X17.  When the frame rate is positive and below 1000, the stills a job
    writes have pairwise distinct paths, in the flat scripts and in the
    labelled one: no saved frame overwrites another of the same job. *)
Theorem stills_have_distinct_names (clips_root frames_root : string) (cap : Capture)
    (w h : Z) (tag event_name : string)
    (fps duration_sec center_sec before_sec after_sec : Q) :
  (0 < fps)%Q → (fps < 1000)%Q →
  (∃ t cap',
     Batch.write_clip_and_frames cap fps duration_sec w h center_sec
       before_sec after_sec tag clips_root frames_root = (t, Ok cap')
     ∧ NoDup (saved_paths t))
  ∧ (∃ t cap',
       Labelled.write_clip_and_frames clips_root frames_root cap fps duration_sec w h
         center_sec before_sec after_sec tag event_name = (t, Ok cap')
       ∧ NoDup (saved_paths t)).
Proof.
  intros Hpos Hlt.
  pose proof (start_f_nonneg fps duration_sec center_sec before_sec after_sec
                ltac:(by apply Qlt_le_weak)) as Hstart.
  split.
  - destruct (batch_job_stills cap fps duration_sec w h center_sec before_sec after_sec
                tag clips_root frames_root) as (t & cap' & wrote & E & _ & Hs).
    exists t, cap'. split; [done |]. rewrite Hs.
    apply NoDup_fmap_2_strong; [| apply saved_indices_NoDup].
    intros i j Hi%list_elem_of_In%elem_of_saved_indices Hj%list_elem_of_In%elem_of_saved_indices.
    intros Eq%path_join_inj. apply (frame_file_name_inj tag fps); [done | done | lia | lia | done].
  - destruct (labelled_job_stills clips_root frames_root cap fps duration_sec w h
                center_sec before_sec after_sec tag event_name)
      as (t & cap' & wrote & E & _ & Hs).
    exists t, cap'. split; [done |]. rewrite Hs.
    apply NoDup_fmap_2_strong; [| apply saved_indices_NoDup].
    intros i j Hi%list_elem_of_In%elem_of_saved_indices Hj%list_elem_of_In%elem_of_saved_indices.
    intros Eq%path_join_inj%string_app_inv_head%string_app_inv_head.
    apply (frame_file_name_inj tag fps); [done | done | lia | lia | done].
Qed.

(** X18.  A job of the flat scripts writes at most
    [int(after_sec + before_sec) + 1] stills (31 with the configured 15 s on
    either side), a job of the labelled script at most
    [round(end_sec - start_sec) + 1]. *)
Theorem stills_count_bounded (clips_root frames_root : string) (cap : Capture)
    (w h : Z) (tag event_name : string)
    (fps duration_sec center_sec before_sec after_sec : Q) :
  let win := window_of fps duration_sec center_sec before_sec after_sec in
  (∃ t cap',
     Batch.write_clip_and_frames cap fps duration_sec w h center_sec
       before_sec after_sec tag clips_root frames_root = (t, Ok cap')
     ∧ (length (saved_paths t) ≤ Z.to_nat (py_int (after_sec + before_sec) + 1))%nat)
  ∧ (∃ t cap',
       Labelled.write_clip_and_frames clips_root frames_root cap fps duration_sec w h
         center_sec before_sec after_sec tag event_name = (t, Ok cap')
       ∧ (length (saved_paths t)
          ≤ Z.to_nat (py_round (end_sec win - start_sec win) + 1))%nat).
Proof.
  intros win. split.
  - destruct (batch_job_stills cap fps duration_sec w h center_sec before_sec after_sec
                tag clips_root frames_root) as (t & cap' & wrote & E & _ & Hs).
    exists t, cap'. split; [done |]. rewrite Hs. rewrite length_fmap.
    etrans; [apply saved_indices_length | apply size_save_idxs_nominal].
  - destruct (labelled_job_stills clips_root frames_root cap fps duration_sec w h
                center_sec before_sec after_sec tag event_name)
      as (t & cap' & wrote & E & _ & Hs).
    exists t, cap'. split; [done |]. rewrite Hs. rewrite length_fmap.
    etrans; [apply saved_indices_length | apply size_save_idxs_window].
Qed.

End StillClaims.

(** An event at 5 s of a 100 s video at 2 frames per second. *)
Lemma stills_have_distinct_names_witness :
  (∃ t cap',
     Batch.write_clip_and_frames (world := Sample.world) Sample.full 2 100 64 48 5 15 15
       "00-05.000" "clips" "frames" = (t, Ok cap')
     ∧ NoDup (saved_paths t))
  ∧ (∃ t cap',
       Labelled.write_clip_and_frames (world := Sample.world) "clips" "frames" Sample.full
         2 100 64 48 5 15 15 "00-05.000" "goal" = (t, Ok cap')
       ∧ NoDup (saved_paths t)).
Proof.
  apply (stills_have_distinct_names (world := Sample.world) "clips" "frames" Sample.full
           64 48 "00-05.000" "goal" 2 100 5 15 15); reflexivity.
Defined.

(** ** The labelled script *)

Lemma with_keys_total {A} (key : A → result Z) (l : list A) :
  Forall (λ x, ∃ v, key x = Ok v) l →
  ∃ kl, with_keys key l = Ok kl ∧ kl.*2 = l.
Proof.
  induction 1 as [|x l [v Hv] _ (kl & E & Hkl)]; simpl; [by exists [] |].
  rewrite Hv, E. exists ((v, x) :: kl). split; [done |]. by rewrite fmap_cons, Hkl.
Qed.

Lemma sorted_by_total {A} (key : A → result Z) (l : list A) :
  Forall (λ x, ∃ v, key x = Ok v) l →
  ∃ l', sorted_by l key = Ok l' ∧ l' ≡ₚ l.
Proof.
  intros Hl. destruct (with_keys_total key l Hl) as (kl & E & Hkl).
  unfold sorted_by. rewrite E. eexists. split; [done |].
  rewrite <- Hkl. apply fmap_Permutation, stable_sort_perm.
Qed.

Section LabelledClaims.
Context `{world : World}.
Variables (clips_root frames_root : string).

(** The effects of a labelled job, with the monad unfolded. *)
Lemma labelled_job_trace (cap : Capture) (fps duration_sec : Q) (w h : Z)
    (center_sec before_sec after_sec : Q) (tag_ts event_name : string) :
  let event_dir := Labelled.sanitize_event_name (Some event_name) in
  let clips_dir := path_join clips_root event_dir in
  let frames_dir := path_join frames_root event_dir in
  let win := window_of fps duration_sec center_sec before_sec after_sec in
  let clip := path_join clips_dir (event_dir +:+ "_" +:+ clip_file_name tag_ts win) in
  let loop := read_loop clip
                (λ idx, path_join frames_dir (event_dir +:+ "_" +:+ frame_file_name tag_ts fps idx))
                (end_f win) (save_idxs_window fps win)
                (start_f win) 0%Z (seek_frame cap (start_f win)) in
  Labelled.write_clip_and_frames clips_root frames_root cap fps duration_sec w h
    center_sec before_sec after_sec tag_ts event_name
  = if (end_f win <=? start_f win)%Z then
      ([Mkdir clips_dir; Mkdir frames_dir; Print (SkippingNoRange (event_dir +:+ "@" +:+ tag_ts))],
       Ok cap)
    else if writer_isOpened clip then
      ([Mkdir clips_dir; Mkdir frames_dir; WriterOpen clip] ++ loop.1
         ++ [WriterRelease clip;
             Print (WroteFrames (event_dir +:+ "@" +:+ tag_ts) loop.2.1
                      (event_dir +:+ "_" +:+ clip_file_name tag_ts win))],
       Ok loop.2.2)
    else ([Mkdir clips_dir; Mkdir frames_dir; Print (CannotOpenWriter clip)], Ok cap).
Proof.
  intros event_dir clips_dir frames_dir win clip loop.
  unfold Labelled.write_clip_and_frames.
  fold event_dir. fold clips_dir. fold frames_dir. fold win. fold clip.
  destruct (end_f win <=? start_f win)%Z; [done |].
  destruct (writer_isOpened clip); [| done]. cbn [negb]. fold loop.
  by destruct loop as [t [wrote cap']].
Qed.

Lemma labelled_job_facts (cap : Capture) (fps duration_sec : Q) (w h : Z)
    (center_sec before_sec after_sec : Q) (tag_ts event_name : string) :
  ∃ t cap',
    Labelled.write_clip_and_frames clips_root frames_root cap fps duration_sec w h
      center_sec before_sec after_sec tag_ts event_name = (t, Ok cap')
    ∧ length (List.filter is_outcome t) = 1%nat
    ∧ Forall (job_paths clips_root frames_root) t.
Proof.
  rewrite labelled_job_trace. cbv zeta.
  set (event_dir := Labelled.sanitize_event_name (Some event_name)).
  set (win := window_of fps duration_sec center_sec before_sec after_sec).
  set (clip := path_join (path_join clips_root event_dir)
                 (event_dir +:+ "_" +:+ clip_file_name tag_ts win)).
  assert (Hsilent : ∀ m, job_paths clips_root frames_root (Print m))
    by (intros m; left; by apply confined_silent).
  assert (Hc : ∀ e p, effect_path e = Some p → under (path_join clips_root event_dir) p →
               job_paths clips_root frames_root e).
  { intros e p He Hp. left. eapply confined_path; [done |]. by eapply under_trans. }
  assert (Hf : ∀ e p, effect_path e = Some p → under (path_join frames_root event_dir) p →
               job_paths clips_root frames_root e).
  { intros e p He Hp. right. eapply confined_path; [done |]. by eapply under_trans. }
  assert (Hmk1 : job_paths clips_root frames_root (Mkdir (path_join clips_root event_dir))).
  { left. eapply confined_path; [done | apply under_path_join]. }
  assert (Hmk2 : job_paths clips_root frames_root (Mkdir (path_join frames_root event_dir))).
  { right. eapply confined_path; [done | apply under_path_join]. }
  destruct (end_f win <=? start_f win)%Z.
  { eexists _, _. split; [done |]. split; [done |].
    repeat first [apply List.Forall_nil | apply List.Forall_cons; [first [assumption | apply Hsilent] |]]. }
  destruct (writer_isOpened clip).
  2: { eexists _, _. split; [done |]. split; [done |].
       repeat first [apply List.Forall_nil | apply List.Forall_cons; [first [assumption | apply Hsilent] |]]. }
  destruct (read_loop_spec clip
              (λ idx, path_join (path_join frames_root event_dir)
                        (event_dir +:+ "_" +:+ frame_file_name tag_ts fps idx))
              (end_f win) (save_idxs_window fps win) (Z.to_nat (end_f win - start_f win))
              (start_f win) 0%Z (seek_frame cap (start_f win)) eq_refl)
    as (t & wrote' & cap' & E & _ & _ & _ & Hctl).
  pose proof (read_loop_effects clip
                (λ idx, path_join (path_join frames_root event_dir)
                          (event_dir +:+ "_" +:+ frame_file_name tag_ts fps idx))
                (end_f win) (save_idxs_window fps win) (Z.to_nat (end_f win - start_f win))
                (start_f win) 0%Z (seek_frame cap (start_f win)) eq_refl) as Heff.
  rewrite E in Heff |- *. cbn [fst snd] in Heff |- *.
  eexists _, _. split; [done |].
  destruct (frame_effects_only t Hctl) as (_ & _ & Ho & _ & _).
  split.
  { rewrite !List.filter_app, Ho. done. }
  cbn [app].
  do 2 (apply List.Forall_cons; [assumption |]).
  apply List.Forall_cons; [by eapply Hc, under_path_join |].
  apply Forall_app. split.
  2: { apply List.Forall_cons; [by eapply Hc, under_path_join |].
       apply List.Forall_cons; [apply Hsilent | apply List.Forall_nil]. }
  apply Forall_forall. intros e He%list_elem_of_In.
  destruct (Heff e He) as [[f ->]|(i & f & _ & _ & -> & _)].
  - by eapply Hc, under_path_join.
  - by eapply Hf, under_path_join.
Qed.


Lemma labelled_body_parseable (fps duration_sec : Q) (w h : Z)
    (ts event : string) (half : option Z) (cap : Capture) :
  parseable ts →
  ∃ v tag,
    labelled_body clips_root frames_root fps duration_sec w h (ts, event, half) cap
    = Labelled.write_clip_and_frames clips_root frames_root cap fps duration_sec w h
        (inject_Z v) CLIP_BEFORE_SEC CLIP_AFTER_SEC tag event.
Proof.
  intros [v Hv].
  exists v, (string_of_list_ascii (mm_ss_label (v / 60) (inject_Z (v - 60 * (v / 60))))).
  unfold labelled_body, norm_ts_for_filename. rewrite Hv.
  unfold try_except, bind, lift, ret. simpl.
  by destruct (Labelled.write_clip_and_frames _ _ _ _ _ _ _ _ _ _ _ _) as [t r].
Qed.

Lemma labelled_loop (fps duration_sec : Q) (w h : Z) (l : list (string * string * option Z)) :
  Forall (λ pair, parseable pair.1.1) l →
  ∀ cap, ∃ t cap',
    for_each l cap (labelled_body clips_root frames_root fps duration_sec w h) = (t, Ok cap')
    ∧ length (List.filter is_outcome t) = length l.
Proof.
  induction 1 as [|[[ts event] half] l Hts _ IH]; intros cap; cbn [for_each];
    [by eexists _, _ |].
  destruct (labelled_body_parseable fps duration_sec w h ts event half cap Hts)
    as (v & tag & ->).
  destruct (labelled_job_facts cap fps duration_sec w h (inject_Z v) CLIP_BEFORE_SEC
              CLIP_AFTER_SEC tag event) as (t1 & cap1 & -> & H1 & _).
  destruct (IH cap1) as (t2 & cap2 & E2 & H2).
  unfold bind. rewrite E2. eexists _, _. split; [done |].
  rewrite List.filter_app, length_app, H1, H2. done.
Qed.

Lemma labelled_script_start (video_path json_path : string) (comments : list Comment) :
  load_comments json_path = Ok comments →
  Labelled.pairs comments ≠ [] →
  Labelled.script clips_root frames_root video_path json_path
  = bind (emit_all [Mkdir clips_root; Mkdir frames_root])
      (λ _, pairs <- lift (sorted_by (Labelled.pairs comments) (λ x, parse_time_stamp x.1.1)) ;;
            match VideoCapture video_path with
            | None => raise (OtherException "Could not open video")
            | Some cap =>
                let fps := cap_fps cap in
                let duration_sec := duration_of fps (cap_frame_count cap) in
                print (VideoInfo video_path fps (cap_frame_count cap) duration_sec) ;;;
                cap <- for_each pairs cap
                         (labelled_body clips_root frames_root fps duration_sec
                            (cap_width cap) (cap_height cap)) ;;
                emit CapRelease ;;;
                print (Extracted clips_root frames_root) ;;;
                ret tt
            end).
Proof.
  intros Hload Hne. unfold Labelled.script. rewrite Hload.
  rewrite (bind_ok (emit _) _ [_] tt eq_refl). cbn beta; cbn [fst snd].
  rewrite (bind_ok (emit _) _ [_] tt eq_refl). cbn beta; cbn [fst snd].
  rewrite (bind_ok (lift _) _ [] comments eq_refl). cbn beta; cbn [fst snd].
  rewrite (bind_ok (emit_all _) _ [Mkdir clips_root; Mkdir frames_root] tt eq_refl).
  cbn beta; cbn [fst snd].
  destruct (Labelled.pairs comments) as [|p l] eqn:Hp; [done |].
  reflexivity.
Qed.

(** X19.  When the JSON loads, holds a record with a timestamp, every kept
    timestamp parses and the video opens, the labelled script ends normally:
    after the two root directories and the video line it runs one job for
    each kept entry, then releases the capture. *)
Theorem labelled_script_completes (video_path json_path : string)
    (comments : list Comment) (cap : Capture) :
  load_comments json_path = Ok comments →
  Labelled.pairs comments ≠ [] →
  Forall (λ pair, parseable pair.1.1) (Labelled.pairs comments) →
  VideoCapture video_path = Some cap →
  ∃ t,
    Labelled.script clips_root frames_root video_path json_path
    = ([Mkdir clips_root; Mkdir frames_root;
        Print (VideoInfo video_path (cap_fps cap) (cap_frame_count cap)
                 (duration_of (cap_fps cap) (cap_frame_count cap)))]
         ++ t ++ [CapRelease; Print (Extracted clips_root frames_root)],
       Ok tt)
    ∧ length (List.filter is_outcome t) = length (Labelled.pairs comments).
Proof.
  intros Hload Hne Hts Hcap.
  rewrite (labelled_script_start video_path json_path comments Hload Hne), Hcap.
  destruct (sorted_by_total (λ x : string * string * option Z, parse_time_stamp x.1.1)
              (Labelled.pairs comments) Hts) as (l' & E & Hperm).
  assert (Hl' : Forall (λ pair : string * string * option Z, parseable pair.1.1) l')
    by (by rewrite Hperm).
  destruct (labelled_loop (cap_fps cap) (duration_of (cap_fps cap) (cap_frame_count cap))
              (cap_width cap) (cap_height cap) l' Hl' cap) as (t & cap' & Eloop & Hout).
  rewrite E. unfold bind, emit_all, lift, print, emit, ret. cbv zeta. rewrite Eloop.
  exists t. split; [by rewrite app_nil_r |].
  rewrite Hout. by apply Permutation_length.
Qed.

(** X20.  When a kept entry of the labelled script has a timestamp that does
    not parse, [pairs.sort] raises [ValueError] right after the two root
    directories were created: the video is not opened and no event is
    handled. *)
Theorem labelled_script_bad_timestamp_aborts (video_path json_path : string)
    (comments : list Comment) (pair : string * string * option Z) (e : exn) :
  load_comments json_path = Ok comments →
  In pair (Labelled.pairs comments) →
  parse_time_stamp pair.1.1 = Raise e →
  ∃ e',
    is_ValueError e' = true
    ∧ Labelled.script clips_root frames_root video_path json_path
      = ([Mkdir clips_root; Mkdir frames_root], Raise e').
Proof.
  intros Hload Hin He.
  assert (Hne : Labelled.pairs comments ≠ []) by (by destruct (Labelled.pairs comments)).
  destruct (with_keys_raises (λ x : string * string * option Z, parse_time_stamp x.1.1)
              (Labelled.pairs comments) pair e Hin He) as (y & e' & _ & Hy & Hk).
  exists e'. split; [by apply (parse_time_stamp_raises y.1.1) |].
  rewrite (labelled_script_start video_path json_path comments Hload Hne).
  unfold sorted_by. rewrite Hk. done.
Qed.



End LabelledClaims.

(** The sample labels on the sample video. *)
Lemma labelled_script_completes_witness :
  ∃ t,
    Labelled.script (world := Sample.world) "clips" "frames" "full.mkv" "labels.json"
    = ([Mkdir "clips"; Mkdir "frames"; Print (VideoInfo "full.mkv" 2 200 (duration_of 2 200))]
         ++ t ++ [CapRelease; Print (Extracted "clips" "frames")],
       Ok tt)
    ∧ length (List.filter is_outcome t) = 2%nat.
Proof.
  apply (labelled_script_completes (world := Sample.world) "clips" "frames" "full.mkv"
           "labels.json"
           [Sample.comment "0:02" 1 "goal"; Sample.comment "0:02" 1 "goal";
            Sample.comment "1:39" 2 "card"] Sample.full).
  - reflexivity.
  - by vm_compute.
  - change (Labelled.pairs _)
      with [("0:02", "goal", Some 1); ("1:39", "card", Some 2)]%string.
    repeat constructor; by eexists.
  - reflexivity.
Defined.

(** The sample labels with a malformed timestamp. *)
Lemma labelled_script_bad_timestamp_aborts_witness :
  ∃ e',
    is_ValueError e' = true
    ∧ Labelled.script (world := Sample.world) "clips" "frames" "full.mkv" "typo.json"
      = ([Mkdir "clips"; Mkdir "frames"], Raise e').
Proof.
  apply (labelled_script_bad_timestamp_aborts (world := Sample.world) "clips" "frames"
           "full.mkv" "typo.json"
           [Sample.comment "0:01" 1 "goal"; Sample.comment "abc" 1 "card";
            Sample.comment "0:03" 2 "goal"]
           ("abc", "card", Some 1)%string (ValueError "Unrecognized time format" "abc")).
  - reflexivity.
  - vm_compute. right. by left.
  - reflexivity.
Defined.


(** ** The flat script *)

Section FlatClaims.
Context `{world : World}.
Variables (clips_dir frames_dir : string).

Lemma flat_script_unfold (video_path json_path : string)
    (comments : list Comment) (cap : Capture) :
  load_comments json_path = Ok comments →
  Flat.raw_ts comments ≠ [] →
  VideoCapture video_path = Some cap →
  let fps := cap_fps cap in
  let duration_sec := duration_of fps (cap_frame_count cap) in
  let start := [Mkdir clips_dir; Mkdir frames_dir;
                Print (VideoFps fps (cap_frame_count cap) duration_sec)] in
  Flat.script clips_dir frames_dir video_path json_path
  = match sorted_by (unique_in_order ∅ (Flat.raw_ts comments)) parse_time_stamp with
    | Raise e => (start, Raise e)
    | Ok ts_sorted =>
        match for_each ts_sorted cap
                (half_body fps duration_sec (cap_width cap) (cap_height cap)
                   clips_dir frames_dir) with
        | (t, Ok _) =>
            (start ++ t ++ [CapRelease; Print (ExtractedTo clips_dir frames_dir)], Ok tt)
        | (t, Raise e) => (start ++ t, Raise e)
        end
    end.
Proof.
  intros Hload Hne Hcap fps duration_sec start. unfold Flat.script. rewrite Hload, Hcap.
  rewrite (bind_ok (emit _) _ [_] tt eq_refl). cbn beta; cbn [fst snd].
  rewrite (bind_ok (emit _) _ [_] tt eq_refl). cbn beta; cbn [fst snd].
  rewrite (bind_ok (lift _) _ [] comments eq_refl). cbn beta; cbn [fst snd]. cbv zeta.
  destruct (unique_in_order ∅ (Flat.raw_ts comments)) as [|ts0 l] eqn:E.
  { exfalso. destruct (Flat.raw_ts comments) as [|x r]; [done |].
    simpl in E. case_bool_decide; [set_solver | done]. }
  rewrite (bind_ok (print _) _ [_] tt eq_refl). cbn beta; cbn [fst snd].
  fold fps. fold duration_sec.
  destruct (sorted_by (ts0 :: l) parse_time_stamp) as [ts_sorted|e]; [| done].
  change (for_each ts_sorted cap _)
    with (for_each ts_sorted cap
            (half_body fps duration_sec (cap_width cap) (cap_height cap) clips_dir frames_dir)).
  unfold bind, lift, print, emit, ret. simpl.
  by destruct (for_each ts_sorted cap _) as [t [cap'|e]].
Qed.

(** The effects of a job are none of the two lines [flat_line] rewords. *)
Lemma job_lines_kept (cap : Capture) (fps duration_sec : Q) (w h : Z)
    (center_sec before_sec after_sec : Q) (tag : string) :
  traced (λ e, flat_line clips_dir frames_dir e = e)
    (Batch.write_clip_and_frames cap fps duration_sec w h center_sec
       before_sec after_sec tag clips_dir frames_dir).
Proof.
  unfold traced. rewrite job_trace. cbv zeta.
  set (win := window_of fps duration_sec center_sec before_sec after_sec).
  set (clip := path_join clips_dir (clip_file_name tag win)).
  destruct (end_f win <=? start_f win)%Z; [by repeat constructor |].
  destruct (writer_isOpened clip); [| by repeat constructor].
  simpl. constructor; [done |].
  apply Forall_app. split; [| by repeat constructor].
  apply Forall_forall. intros e He. apply list_elem_of_In in He.
  by destruct (read_loop_effects clip
                 (λ idx, path_join frames_dir (frame_file_name tag fps idx))
                 (end_f win) (save_idxs_nominal fps win before_sec after_sec)
                 (Z.to_nat (end_f win - start_f win)) (start_f win) 0%Z
                 (seek_frame cap (start_f win)) eq_refl e He)
    as [[f ->]|(i & f & _ & _ & -> & _)].
Qed.

Lemma half_loop_lines_kept (fps duration_sec : Q) (w h : Z) (l : list string) (cap : Capture) :
  flat_line clips_dir frames_dir
    <$> (for_each l cap (half_body fps duration_sec w h clips_dir frames_dir)).1
  = (for_each l cap (half_body fps duration_sec w h clips_dir frames_dir)).1.
Proof.
  assert (Ht : traced (λ e, flat_line clips_dir frames_dir e = e)
                 (for_each l cap (half_body fps duration_sec w h clips_dir frames_dir))).
  { apply traced_for_each. intros ts cap0. unfold half_body.
    apply traced_bind.
    - apply traced_try_except.
      + apply traced_bind; [apply traced_lift | intros; apply traced_ret].
      + intros e. apply traced_bind; [by apply traced_emit | intros; apply traced_ret].
    - intros [center_sec|]; [| apply traced_ret].
      apply traced_bind; [apply traced_lift | intros tag]. apply job_lines_kept. }
  unfold traced in Ht. induction Ht as [|e t He _ IH]; [done |].
  by rewrite fmap_cons, He, IH.
Qed.

(** X22.  Once the JSON is loaded, a timestamp was found and the video is
    open, [extract_clips_frames.py] creates its two directories and then
    runs as [process_half] of the batch script runs on the timestamps
    without repeats: the same jobs, files and job lines in the same order
    and the same result, normal end or exception.  Only the line about the
    video and the closing line are its own: no video name, and the
    directories in full. *)
Theorem flat_script_is_process_half (video_path json_path : string)
    (comments : list Comment) (cap : Capture) :
  load_comments json_path = Ok comments →
  Flat.raw_ts comments ≠ [] →
  VideoCapture video_path = Some cap →
  let half := Batch.process_half video_path (unique_in_order ∅ (Flat.raw_ts comments))
                clips_dir frames_dir in
  Flat.script clips_dir frames_dir video_path json_path
  = ([Mkdir clips_dir; Mkdir frames_dir] ++ (flat_line clips_dir frames_dir <$> half.1),
     half.2).
Proof.
  intros Hload Hne Hcap half. unfold half.
  rewrite (flat_script_unfold video_path json_path comments cap Hload Hne Hcap).
  rewrite (process_half_unfold _ _ _ _ cap Hcap). cbv zeta.
  destruct (sorted_by _ parse_time_stamp) as [ts_sorted|e]; [| done].
  pose proof (half_loop_lines_kept (cap_fps cap)
                (duration_of (cap_fps cap) (cap_frame_count cap))
                (cap_width cap) (cap_height cap) ts_sorted cap) as Hkept.
  destruct (for_each ts_sorted cap _) as [t [cap'|e]]; cbn [fst snd] in Hkept |- *.
  - by rewrite !fmap_app, Hkept.
  - by rewrite fmap_app, Hkept.
Qed.

End FlatClaims.

(** The sample labels on the sample video. *)
Lemma flat_script_is_process_half_witness :
  let half := Batch.process_half (world := Sample.world) "full.mkv"
                (unique_in_order ∅
                   (Flat.raw_ts [Sample.comment "0:02" 1 "goal"; Sample.comment "0:02" 1 "goal";
                                 Sample.comment "1:39" 2 "card"]))
                "clips" "frames" in
  Flat.script (world := Sample.world) "clips" "frames" "full.mkv" "labels.json"
  = ([Mkdir "clips"; Mkdir "frames"] ++ (flat_line "clips" "frames" <$> half.1), half.2).
Proof.
  apply (flat_script_is_process_half (world := Sample.world) "clips" "frames" "full.mkv"
           "labels.json" _ Sample.full); by vm_compute.
Defined.

(** ** The routed script *)

Section RoutedClaims.
Context `{world : World}.
Variables (clips_dir frames_dir : string).

(** The clip a job opens, if any, is the one named after its tag and window. *)
Lemma job_clip_named (cap : Capture) (fps duration_sec : Q) (w h : Z)
    (center_sec before_sec after_sec : Q) (tag clips_out frames_out p : string) :
  In (WriterOpen p)
    (Batch.write_clip_and_frames cap fps duration_sec w h center_sec
       before_sec after_sec tag clips_out frames_out).1 →
  p = path_join clips_out
        (clip_file_name tag (window_of fps duration_sec center_sec before_sec after_sec)).
Proof.
  rewrite job_trace. cbv zeta.
  set (win := window_of fps duration_sec center_sec before_sec after_sec).
  set (clip := path_join clips_out (clip_file_name tag win)).
  destruct (end_f win <=? start_f win)%Z; [simpl; by intros [[=]|[]] |].
  destruct (writer_isOpened clip); [| simpl; by intros [[=]|[]]].
  cbn [fst app In]. intros [[= <-]|Hin]; [done |].
  apply in_app_or in Hin as [Hin|[[=]|[[=]|[]]]].
  by destruct (read_loop_effects clip
                 (λ idx, path_join frames_out (frame_file_name tag fps idx))
                 (end_f win) (save_idxs_nominal fps win before_sec after_sec)
                 (Z.to_nat (end_f win - start_f win)) (start_f win) 0%Z
                 (seek_frame cap (start_f win)) eq_refl _ Hin)
    as [[f [=]]|(i & f & _ & _ & [=] & _)].
Qed.

Lemma routed_body_parseable (fps duration_sec : Q) (w h : Z)
    (ts ctype : string) (cap : Capture) :
  parseable ts →
  ∃ v tag safe,
    norm_ts_for_filename ts = Ok tag
    ∧ NewExtract.get_output_dirs clips_dir frames_dir ctype
      = ([Mkdir (path_join clips_dir safe); Mkdir (path_join frames_dir safe)],
         Ok (path_join clips_dir safe, path_join frames_dir safe))
    ∧ routed_body clips_dir frames_dir fps duration_sec w h (ts, ctype) cap
      = (emit_all [Mkdir (path_join clips_dir safe); Mkdir (path_join frames_dir safe)] ;;;
         Batch.write_clip_and_frames cap fps duration_sec w h (inject_Z v)
           CLIP_BEFORE_SEC CLIP_AFTER_SEC tag
           (path_join clips_dir safe) (path_join frames_dir safe)).
Proof.
  intros [v Hv].
  exists v, (string_of_list_ascii (mm_ss_label (v / 60) (inject_Z (v - 60 * (v / 60))))).
  eexists. split; [unfold norm_ts_for_filename; by rewrite Hv |].
  split; [reflexivity |].
  unfold routed_body, norm_ts_for_filename. rewrite Hv.
  unfold NewExtract.get_output_dirs, try_except, bind, lift, emit, emit_all, ret.
  cbn [fst snd app].
  by destruct (Batch.write_clip_and_frames _ _ _ _ _ _ _ _ _ _ _) as [t r].
Qed.

Lemma routed_loop (fps duration_sec : Q) (w h : Z) (l : list (string * string)) :
  Forall (λ entry, parseable entry.1) l →
  ∀ cap, ∃ t cap',
    for_each l cap (routed_body clips_dir frames_dir fps duration_sec w h) = (t, Ok cap')
    ∧ length (List.filter is_outcome t) = length l
    ∧ ∀ clip, In (WriterOpen clip) t → routed_clip clips_dir frames_dir l clip.
Proof.
  induction 1 as [|[ts ctype] l Hts _ IH]; intros cap; cbn [for_each].
  { eexists _, _. split; [done |]. split; [done |]. by intros clip []. }
  destruct (routed_body_parseable fps duration_sec w h ts ctype cap Hts)
    as (v & tag & safe & Htag & Hdirs & ->).
  pose proof (job_clip_named cap fps duration_sec w h (inject_Z v) CLIP_BEFORE_SEC
                CLIP_AFTER_SEC tag (path_join clips_dir safe) (path_join frames_dir safe))
    as Hclip.
  destruct (job_one_outcome cap fps duration_sec w h (inject_Z v) CLIP_BEFORE_SEC
              CLIP_AFTER_SEC tag (path_join clips_dir safe) (path_join frames_dir safe))
    as (t1 & cap1 & E1 & H1 & _).
  rewrite E1 in Hclip |- *. cbn [fst] in Hclip.
  destruct (IH cap1) as (t2 & cap2 & E2 & H2 & Hr2).
  unfold bind, emit_all. rewrite E2. eexists _, _. split; [done |]. split.
  - rewrite !List.filter_app, !length_app, H1, H2. done.
  - intros clip Hin. apply in_app_or in Hin as [Hin|Hin].
    + apply in_app_or in Hin as [[[=]|[[=]|[]]]|Hin].
      eexists ts, ctype, tag, _, _, (path_join clips_dir safe, path_join frames_dir safe).
      split; [by left |]. split; [done |].
      split; [exact Hdirs |]. by apply Hclip.
    + destruct (Hr2 clip Hin) as (ts' & ctype' & tag' & win & tr & dirs & Hin' & Hrest).
      exists ts', ctype', tag', win, tr, dirs. split; [by right | done].
Qed.

Lemma routed_script_start (video_path json_path : string) (comments : list Comment)
    (cap : Capture) :
  load_comments json_path = Ok comments →
  NewExtract.ts_list comments ≠ [] →
  VideoCapture video_path = Some cap →
  let fps := cap_fps cap in
  let duration_sec := duration_of fps (cap_frame_count cap) in
  NewExtract.script clips_dir frames_dir video_path json_path
  = (emit_all [Mkdir clips_dir; Mkdir frames_dir;
               Print (VideoInfo video_path fps (cap_frame_count cap) duration_sec)] ;;;
     ts_list_sorted <- lift (sorted_by (NewExtract.ts_list comments)
                               (λ x, parse_time_stamp x.1)) ;;
     cap <- for_each ts_list_sorted cap
              (routed_body clips_dir frames_dir fps duration_sec
                 (cap_width cap) (cap_height cap)) ;;
     emit CapRelease ;;;
     print (Extracted clips_dir frames_dir) ;;;
     ret tt).
Proof.
  intros Hload Hne Hcap fps duration_sec. unfold NewExtract.script. rewrite Hload, Hcap.
  rewrite (bind_ok (emit _) _ [_] tt eq_refl). cbn beta; cbn [fst snd].
  rewrite (bind_ok (emit _) _ [_] tt eq_refl). cbn beta; cbn [fst snd].
  rewrite (bind_ok (lift _) _ [] comments eq_refl). cbn beta; cbn [fst snd].
  rewrite (bind_ok (emit_all _) _ [Mkdir clips_dir; Mkdir frames_dir; Print _] tt eq_refl).
  cbn beta; cbn [fst snd].
  destruct (NewExtract.ts_list comments) as [|p l] eqn:Hp; [done |].
  rewrite (bind_ok (print _) _ [_] tt eq_refl). cbn beta; cbn [fst snd].
  reflexivity.
Qed.

(** X23.  When the JSON loads, holds a record with a timestamp, the video
    opens and every kept timestamp parses, [newExtractFrames.py] ends
    normally with one job for each kept entry; every clip it opens is the
    clip of a kept entry, in the sub-directory [get_output_dirs] gives for
    the comment type of that entry. *)
Theorem routed_script_completes (video_path json_path : string)
    (comments : list Comment) (cap : Capture) :
  load_comments json_path = Ok comments →
  NewExtract.ts_list comments ≠ [] →
  Forall (λ entry, parseable entry.1) (NewExtract.ts_list comments) →
  VideoCapture video_path = Some cap →
  ∃ t,
    NewExtract.script clips_dir frames_dir video_path json_path
    = ([Mkdir clips_dir; Mkdir frames_dir;
        Print (VideoInfo video_path (cap_fps cap) (cap_frame_count cap)
                 (duration_of (cap_fps cap) (cap_frame_count cap)))]
         ++ t ++ [CapRelease; Print (Extracted clips_dir frames_dir)],
       Ok tt)
    ∧ length (List.filter is_outcome t) = length (NewExtract.ts_list comments)
    ∧ ∀ clip, In (WriterOpen clip) t →
        routed_clip clips_dir frames_dir (NewExtract.ts_list comments) clip.
Proof.
  intros Hload Hne Hts Hcap.
  rewrite (routed_script_start video_path json_path comments cap Hload Hne Hcap).
  destruct (sorted_by_total (λ x : string * string, parse_time_stamp x.1)
              (NewExtract.ts_list comments) Hts) as (l' & E & Hperm).
  assert (Hl' : Forall (λ entry : string * string, parseable entry.1) l')
    by (by rewrite Hperm).
  destruct (routed_loop (cap_fps cap) (duration_of (cap_fps cap) (cap_frame_count cap))
              (cap_width cap) (cap_height cap) l' Hl' cap) as (t & cap' & Eloop & Hout & Hr).
  rewrite E. unfold bind, emit_all, lift, print, emit, ret. cbv zeta. rewrite Eloop.
  exists t. split; [by rewrite app_nil_r |]. split.
  - rewrite Hout. by apply Permutation_length.
  - intros clip Hin.
    destruct (Hr clip Hin) as (ts & ctype & tag & win & tr & dirs & Hin' & Hrest).
    exists ts, ctype, tag, win, tr, dirs. split; [| done].
    apply list_elem_of_In. rewrite <- Hperm. by apply list_elem_of_In.
Qed.

(** X24.  When a kept entry of [newExtractFrames.py] has a timestamp that
    does not parse, [sorted] raises [ValueError] after the video line: no
    event is handled and the capture is not released. *)
Theorem routed_script_bad_timestamp_aborts (video_path json_path : string)
    (comments : list Comment) (cap : Capture) (entry : string * string) (e : exn) :
  load_comments json_path = Ok comments →
  VideoCapture video_path = Some cap →
  In entry (NewExtract.ts_list comments) →
  parse_time_stamp entry.1 = Raise e →
  ∃ e',
    is_ValueError e' = true
    ∧ NewExtract.script clips_dir frames_dir video_path json_path
      = ([Mkdir clips_dir; Mkdir frames_dir;
          Print (VideoInfo video_path (cap_fps cap) (cap_frame_count cap)
                   (duration_of (cap_fps cap) (cap_frame_count cap)))],
         Raise e').
Proof.
  intros Hload Hcap Hin He.
  assert (Hne : NewExtract.ts_list comments ≠ []) by (by destruct (NewExtract.ts_list comments)).
  destruct (with_keys_raises (λ x : string * string, parse_time_stamp x.1)
              (NewExtract.ts_list comments) entry e Hin He) as (y & e' & _ & Hy & Hk).
  exists e'. split; [by apply (parse_time_stamp_raises y.1) |].
  rewrite (routed_script_start video_path json_path comments cap Hload Hne Hcap).
  unfold sorted_by. rewrite Hk. done.
Qed.

End RoutedClaims.

(** The sample labels on the sample video. *)
Lemma routed_script_completes_witness :
  ∃ t,
    NewExtract.script (world := Sample.world) "clips" "frames" "full.mkv" "labels.json"
    = ([Mkdir "clips"; Mkdir "frames"; Print (VideoInfo "full.mkv" 2 200 (duration_of 2 200))]
         ++ t ++ [CapRelease; Print (Extracted "clips" "frames")],
       Ok tt)
    ∧ length (List.filter is_outcome t) = 2%nat
    ∧ ∀ clip, In (WriterOpen clip) t →
        routed_clip (world := Sample.world) "clips" "frames"
          [("0:02", "goal"); ("1:39", "card")]%string clip.
Proof.
  apply (routed_script_completes (world := Sample.world) "clips" "frames" "full.mkv"
           "labels.json"
           [Sample.comment "0:02" 1 "goal"; Sample.comment "0:02" 1 "goal";
            Sample.comment "1:39" 2 "card"] Sample.full).
  - reflexivity.
  - by vm_compute.
  - change (NewExtract.ts_list _) with [("0:02", "goal"); ("1:39", "card")]%string.
    repeat constructor; by eexists.
  - reflexivity.
Defined.

(** The sample labels with a malformed timestamp. *)
Lemma routed_script_bad_timestamp_aborts_witness :
  ∃ e',
    is_ValueError e' = true
    ∧ NewExtract.script (world := Sample.world) "clips" "frames" "full.mkv" "typo.json"
      = ([Mkdir "clips"; Mkdir "frames"; Print (VideoInfo "full.mkv" 2 200 (duration_of 2 200))],
         Raise e').
Proof.
  apply (routed_script_bad_timestamp_aborts (world := Sample.world) "clips" "frames"
           "full.mkv" "typo.json"
           [Sample.comment "0:01" 1 "goal"; Sample.comment "abc" 1 "card";
            Sample.comment "0:03" 2 "goal"]
           Sample.full ("abc", "card")%string (ValueError "Unrecognized time format" "abc")).
  - reflexivity.
  - reflexivity.
  - vm_compute. right. by left.
  - reflexivity.
Defined.

(** ** Transcript timestamps *)

Lemma py_int_nonneg (x : Q) : (0 <= x)%Q → py_int x = Qfloor x.
Proof.
  intros Hx. unfold py_int, Qfloor. destruct x as [n d]. simpl.
  apply Z.quot_div_nonneg; [| done].
  unfold Qle in Hx. simpl in Hx. lia.
Qed.

Lemma fmt_d_field (width : nat) (v : Z) :
  0 <= v →
  forallb is_digit (fmt_d width v) = true ∧ int_of_digits (fmt_d width v) = v.
Proof.
  intros Hv. rewrite fmt_d_nonneg by done.
  destruct (digits_of_spec v Hv) as (_ & Hd & Hi).
  destruct (zfill_digits width _ Hd) as [Hz Hzi]. split; [done | by rewrite Hzi].
Qed.

Lemma decode_clock_fields (sep : ascii) (wh : nat) (h m s ms : Z) :
  is_digit sep = false → 0 <= h → 0 <= m → 0 <= s → 0 <= ms →
  decode_clock sep (fmt_d wh h ++ ":"%char :: fmt_d 2 m ++ ":"%char :: fmt_d 2 s
                      ++ sep :: fmt_d 3 ms)
  = Some (h, m, s, ms).
Proof.
  intros Hsep Hh Hm Hs Hms.
  destruct (fmt_d_field wh h Hh) as [Dh Ih]. destruct (fmt_d_field 2 m Hm) as [Dm Im].
  destruct (fmt_d_field 2 s Hs) as [Ds Is]. destruct (fmt_d_field 3 ms Hms) as [Dms Ims].
  unfold decode_clock.
  rewrite (span_stop is_digit _ ":") by done.
  rewrite (span_stop is_digit _ ":") by done.
  rewrite (span_stop is_digit _ sep) by done.
  rewrite Ascii.eqb_refl, Dms. simpl. by rewrite Ih, Im, Is, Ims.
Qed.

Local Open Scope Q_scope.

(** ** Binary64 rounding *)

Lemma pow2_pos (e : Z) : 0 < pow2 e.
Proof. by apply Qpower_0_lt. Qed.

Lemma pow2_plus (a b : Z) : pow2 (a + b) == pow2 a * pow2 b.
Proof. by apply Qpower_plus. Qed.

Lemma pow2_le (a b : Z) : (a <= b)%Z → pow2 a <= pow2 b.
Proof. intros H. by apply Qpower_le_compat_l. Qed.

Lemma pow2_lt_inv (a b : Z) : pow2 a < pow2 b → (a < b)%Z.
Proof. intros H. by apply (Qpower_lt_compat_l_inv 2). Qed.

Lemma pow2_inject (n : Z) : (0 <= n)%Z → pow2 n == inject_Z (2 ^ n).
Proof. intros H. by rewrite Zpower_Qpower. Qed.

Lemma ilog2_spec (x : Q) : 0 < x → pow2 (ilog2 x) <= x ∧ x < pow2 (ilog2 x + 1).
Proof.
  intros Hx. destruct x as [n d]. unfold ilog2. cbn [Qnum Qden].
  assert (Hn : (0 < n)%Z) by (unfold Qlt in Hx; simpl in Hx; lia).
  set (a := Z.log2 n). set (b := Z.log2 (Z.pos d)).
  assert (Ha0 : (0 <= a)%Z) by apply Z.log2_nonneg.
  assert (Hb0 : (0 <= b)%Z) by apply Z.log2_nonneg.
  destruct (Z.log2_spec n Hn) as [Ha1 Ha2]. fold a in Ha1, Ha2.
  destruct (Z.log2_spec (Z.pos d) ltac:(lia)) as [Hb1 Hb2]. fold b in Hb1, Hb2.
  rewrite Zle_Qle, <- pow2_inject in Ha1, Hb1 by lia.
  rewrite Zlt_Qlt, <- pow2_inject in Ha2, Hb2 by lia.
  assert (Hd : 0 < inject_Z (Z.pos d)) by (by rewrite <- (Zlt_Qlt 0)).
  assert (Ex : n # d == inject_Z n / inject_Z (Z.pos d)) by apply Qmake_Qdiv.
  assert (Hup : n # d < pow2 (a - b + 1)).
  { rewrite Ex. apply Qlt_shift_div_r; [done |].
    assert (E : pow2 (Z.succ a) == pow2 (a - b + 1) * pow2 b)
      by (rewrite <- pow2_plus; f_equiv; lia).
    pose proof (pow2_pos (a - b + 1)) as Hp.
    assert (H : pow2 (a - b + 1) * pow2 b <= pow2 (a - b + 1) * inject_Z (Z.pos d))
      by (rewrite !(Qmult_comm (pow2 (a - b + 1))); apply Qmult_le_compat_r; lra).
    lra. }
  assert (Hlo : pow2 (a - b - 1) <= n # d).
  { rewrite Ex. apply Qle_shift_div_l; [done |].
    assert (E : pow2 a == pow2 (a - b - 1) * pow2 (Z.succ b))
      by (rewrite <- pow2_plus; f_equiv; lia).
    pose proof (pow2_pos (a - b - 1)) as Hp.
    assert (H : pow2 (a - b - 1) * inject_Z (Z.pos d) <= pow2 (a - b - 1) * pow2 (Z.succ b))
      by (rewrite !(Qmult_comm (pow2 (a - b - 1))); apply Qmult_le_compat_r; lra).
    lra. }
  destruct (Qle_bool (pow2 (a - b)) (n # d)) eqn:Hc.
  - apply Qle_bool_iff in Hc. done.
  - assert (Hlt : n # d < pow2 (a - b)).
    { apply Qnot_le_lt. intros H. apply Qle_bool_iff in H. congruence. }
    replace (a - b - 1 + 1)%Z with (a - b)%Z by lia. done.
Qed.

Lemma ilog2_mono (x y : Q) : 0 < x → x <= y → (ilog2 x <= ilog2 y)%Z.
Proof.
  intros Hx Hxy. destruct (ilog2_spec x Hx) as [H1 _].
  destruct (ilog2_spec y ltac:(lra)) as [_ H2].
  assert (H : pow2 (ilog2 x) < pow2 (ilog2 y + 1)) by lra.
  apply pow2_lt_inv in H. lia.
Qed.

(** The significand of [x > 0] lies below [2^53], and at [2^52] or above
    unless [x] is subnormal. *)
Lemma significand_range (x : Q) :
  0 < x →
  0 < x / pow2 (b64_exponent x) ∧ x / pow2 (b64_exponent x) < inject_Z (2 ^ 53)
  ∧ (b64_exponent x = (ilog2 x - 52)%Z → inject_Z (2 ^ 52) <= x / pow2 (b64_exponent x)).
Proof.
  intros Hx. destruct (ilog2_spec x Hx) as [H1 H2].
  pose proof (pow2_pos (b64_exponent x)) as He.
  assert (Hge : pow2 (ilog2 x - 52) <= pow2 (b64_exponent x))
    by (apply pow2_le; unfold b64_exponent; lia).
  assert (E53 : pow2 (ilog2 x + 1) == inject_Z (2 ^ 53) * pow2 (ilog2 x - 52)).
  { rewrite <- (pow2_inject 53) by lia. rewrite <- pow2_plus. f_equiv. lia. }
  assert (E52 : pow2 (ilog2 x) == inject_Z (2 ^ 52) * pow2 (ilog2 x - 52)).
  { rewrite <- (pow2_inject 52) by lia. rewrite <- pow2_plus. f_equiv. lia. }
  split; [| split].
  - apply Qlt_shift_div_l; [done | lra].
  - apply Qlt_shift_div_r; [done |].
    assert (H : inject_Z (2 ^ 53) * pow2 (ilog2 x - 52)
                <= inject_Z (2 ^ 53) * pow2 (b64_exponent x)).
    { rewrite !(Qmult_comm (inject_Z (2 ^ 53))). apply Qmult_le_compat_r; [done |].
      by rewrite <- (Zle_Qle 0). }
    lra.
  - intros E. rewrite E. apply Qle_shift_div_l; [apply pow2_pos | lra].
Qed.

Lemma b64_pos_nonneg (x : Q) : 0 < x → 0 <= b64_pos x.
Proof.
  intros Hx. unfold b64_pos. cbv zeta.
  destruct (significand_range x Hx) as (H0 & _).
  apply Qmult_le_0_compat; [| apply Qlt_le_weak, pow2_pos].
  rewrite <- (Zle_Qle 0). change 0%Z with (py_round 0). apply py_round_mono. lra.
Qed.

Lemma b64_pos_mono (x y : Q) : 0 < x → x <= y → b64_pos x <= b64_pos y.
Proof.
  intros Hx Hxy. assert (Hy : 0 < y) by lra.
  pose proof (ilog2_mono x y Hx Hxy) as Hl.
  destruct (significand_range x Hx) as (_ & Hx53 & _).
  destruct (significand_range y Hy) as (_ & _ & Hy52).
  unfold b64_pos. cbv zeta.
  set (ex := b64_exponent x) in *. set (ey := b64_exponent y) in *.
  assert (Hexy : (ex <= ey)%Z) by (unfold ex, ey, b64_exponent; lia).
  pose proof (pow2_pos ex) as Hpx. pose proof (pow2_pos ey) as Hpy.
  destruct (Z.eq_dec ex ey) as [E|Hne].
  - rewrite <- E. apply Qmult_le_compat_r; [| lra].
    rewrite <- Zle_Qle. apply py_round_mono.
    unfold Qdiv. apply Qmult_le_compat_r; [done |].
    apply Qlt_le_weak, Qinv_lt_0_compat, Hpx.
  - assert (Hey : ey = (ilog2 y - 52)%Z) by (unfold ex, ey, b64_exponent in *; lia).
    specialize (Hy52 Hey).
    assert (Hmx : inject_Z (py_round (x / pow2 ex)) <= inject_Z (2 ^ 53)).
    { rewrite <- Zle_Qle. rewrite <- (py_round_inject_Z (2 ^ 53)).
      apply py_round_mono. lra. }
    assert (Hmy : inject_Z (2 ^ 52) <= inject_Z (py_round (y / pow2 ey))).
    { rewrite <- Zle_Qle. rewrite <- (py_round_inject_Z (2 ^ 52)).
      by apply py_round_mono. }
    assert (H1 : inject_Z (py_round (x / pow2 ex)) * pow2 ex <= inject_Z (2 ^ 53) * pow2 ex)
      by (apply Qmult_le_compat_r; lra).
    assert (H2 : inject_Z (2 ^ 52) * pow2 ey <= inject_Z (py_round (y / pow2 ey)) * pow2 ey)
      by (apply Qmult_le_compat_r; lra).
    assert (H3 : inject_Z (2 ^ 53) * pow2 ex <= inject_Z (2 ^ 52) * pow2 ey).
    { rewrite <- (pow2_inject 53), <- (pow2_inject 52), <- !pow2_plus by lia.
      apply pow2_le. lia. }
    lra.
Qed.

Lemma b64_sign (x : Q) : (0 <= x → 0 <= b64 x) ∧ (x <= 0 → b64 x <= 0).
Proof.
  unfold b64. destruct (Qcompare_spec x 0) as [E|E|E].
  - split; intros _; lra.
  - pose proof (b64_pos_nonneg (- x) ltac:(lra)). split; intros ?; lra.
  - pose proof (b64_pos_nonneg x E). split; intros ?; lra.
Qed.

(** Rounding to the nearest double is monotone. *)
Lemma b64_mono (x y : Q) : x <= y → b64 x <= b64 y.
Proof.
  intros Hxy. unfold b64.
  destruct (Qcompare_spec x 0) as [Ex|Ex|Ex], (Qcompare_spec y 0) as [Ey|Ey|Ey];
    try lra.
  - by apply b64_pos_nonneg.
  - pose proof (b64_pos_nonneg (- x) ltac:(lra)). lra.
  - pose proof (b64_pos_mono (- y) (- x) ltac:(lra) ltac:(lra)). lra.
  - pose proof (b64_pos_nonneg (- x) ltac:(lra)).
    pose proof (b64_pos_nonneg y Ey). lra.
  - by apply b64_pos_mono.
Qed.

(** A double differs from the number it rounds by at most half a unit in
    the last place: a relative error of [2^-53], or [2^-1075] for the
    subnormal numbers. *)
Lemma b64_error (x : Q) :
  Qabs (b64 x - x) <= Qabs x * pow2 (-53) + pow2 (-1075).
Proof.
  assert (Hpos : ∀ z, 0 < z → Qabs (b64_pos z - z) <= z * pow2 (-53) + pow2 (-1075)).
  { intros z Hz. unfold b64_pos. cbv zeta.
    destruct (significand_range z Hz) as (_ & _ & _).
    destruct (ilog2_spec z Hz) as [Hl _].
    set (e := b64_exponent z). pose proof (pow2_pos e) as He.
    destruct (py_round_near (z / pow2 e)) as [Hn1 Hn2].
    assert (Ez : z == z / pow2 e * pow2 e) by (field; lra).
    assert (Hhalf : pow2 e * (1 # 2) <= z * pow2 (-53) + pow2 (-1075)).
    { assert (E1 : pow2 (ilog2 z - 52) * (1 # 2) == pow2 (ilog2 z) * pow2 (-53)).
      { change (1 # 2) with (pow2 (-1)). rewrite <- !pow2_plus. f_equiv. lia. }
      assert (E2 : pow2 (-1074) * (1 # 2) == pow2 (-1075)).
      { change (1 # 2) with (pow2 (-1)). rewrite <- !pow2_plus. f_equiv. lia. }
      pose proof (pow2_pos (-53)) as H53. pose proof (pow2_pos (-1075)) as H75.
      assert (H4 : pow2 (ilog2 z) * pow2 (-53) <= z * pow2 (-53))
        by (apply Qmult_le_compat_r; lra).
      assert (Hzp : 0 <= z * pow2 (-53)) by (apply Qmult_le_0_compat; lra).
      unfold e, b64_exponent.
      destruct (Z.max_spec (ilog2 z - 52) (-1074)) as [[_ ->]|[_ ->]]; lra. }
    set (m := inject_Z (py_round (z / pow2 e))) in *.
    assert (H5 : (m - (1 # 2)) * pow2 e <= z / pow2 e * pow2 e)
      by (apply Qmult_le_compat_r; lra).
    assert (H6 : z / pow2 e * pow2 e <= (m + (1 # 2)) * pow2 e)
      by (apply Qmult_le_compat_r; lra).
    apply Qabs_case; intros _; lra. }
  unfold b64. destruct (Qcompare_spec x 0) as [E|E|E].
  - pose proof (pow2_pos (-53)). pose proof (pow2_pos (-1075)).
    rewrite E. change (Qabs (0 - 0)) with 0. change (Qabs 0) with 0. lra.
  - specialize (Hpos (- x) ltac:(lra)).
    assert (Ea : Qabs x == - x) by (apply Qabs_neg; lra).
    assert (Eb : - b64_pos (- x) - x == - (b64_pos (- x) - - x)) by ring.
    by rewrite Ea, Eb, Qabs_opp.
  - specialize (Hpos x E).
    assert (Ea : Qabs x == x) by (apply Qabs_pos; lra).
    by rewrite Ea.
Qed.

(** ** The millisecond field *)

Lemma b64_error_le (x B : Q) :
  Qabs x <= B → Qabs (b64 x - x) <= B * pow2 (-53) + pow2 (-1075).
Proof.
  intros HB. pose proof (b64_error x) as H. pose proof (pow2_pos (-53)) as Hp.
  assert (H1 : Qabs x * pow2 (-53) <= B * pow2 (-53)) by (apply Qmult_le_compat_r; lra).
  lra.
Qed.

Lemma millis_product_range (t : Q) :
  let frac := t - inject_Z (Qfloor t) in
  0 <= millis_product t ∧ millis_product t <= 1000
  ∧ Qabs (millis_product t - frac * 1000) <= pow2 (-42)
  ∧ (1999 # 2000 <= frac → 1999 # 2 <= millis_product t).
Proof.
  intros frac. pose proof (Qfloor_le t) as Hlo. pose proof (Qlt_floor t) as Hhi.
  rewrite inject_Z_plus in Hhi. change (inject_Z 1) with 1 in Hhi.
  assert (Hf0 : 0 <= frac) by (unfold frac; lra).
  assert (Hf1 : frac <= 1) by (unfold frac; lra).
  unfold millis_product. fold frac.
  assert (E0 : b64 0 == 0) by reflexivity.
  assert (E1 : b64 1 == 1) by (by vm_compute).
  assert (E1000 : b64 1000 == 1000) by (by vm_compute).
  pose proof (b64_mono 0 frac Hf0) as Hb0. pose proof (b64_mono frac 1 Hf1) as Hb1.
  set (f1 := b64 frac) in *.
  assert (Hp0 : 0 <= f1 * 1000) by lra.
  assert (Hp1 : f1 * 1000 <= 1000) by lra.
  pose proof (b64_mono 0 (f1 * 1000) Hp0) as Hq0.
  pose proof (b64_mono (f1 * 1000) 1000 Hp1) as Hq1.
  split; [lra |]. split; [lra |]. split.
  - assert (Ha1 : Qabs frac <= 1) by (apply Qabs_case; intros; lra).
    assert (Ha2 : Qabs (f1 * 1000) <= 1000) by (apply Qabs_case; intros; lra).
    pose proof (b64_error_le frac 1 Ha1) as He1. fold f1 in He1.
    pose proof (b64_error_le (f1 * 1000) 1000 Ha2) as He2.
    assert (Hnum : 1000 * (1 * pow2 (-53) + pow2 (-1075)) + (1000 * pow2 (-53) + pow2 (-1075))
                   <= pow2 (-42)) by (by vm_compute).
    revert He1 He2 Hnum.
    generalize (pow2 (-53)) (pow2 (-1075)) (pow2 (-42)). intros p53 p1075 p42.
    generalize (b64 (f1 * 1000)). intros p.
    do 3 (apply Qabs_case; intros ?); intros; lra.
  - intros Hfrac.
    assert (Ec : 1999 # 2 <= b64 (b64 (1999 # 2000) * 1000)) by (by vm_compute).
    pose proof (b64_mono (1999 # 2000) frac Hfrac) as Hm1. fold f1 in Hm1.
    assert (Hm2 : b64 (1999 # 2000) * 1000 <= f1 * 1000) by lra.
    pose proof (b64_mono _ _ Hm2). lra.
Qed.

Lemma millis_field (t : Q) :
  0 <= t →
  let ms := py_round (b64 (b64 (t - inject_Z (py_int t)) * 1000)) in
  ms = py_round (millis_product t) ∧ (0 <= ms <= 1000)%Z.
Proof.
  intros Ht ms. unfold ms. rewrite (py_int_nonneg t Ht).
  split; [done |]. fold (millis_product t).
  destruct (millis_product_range t) as (H0 & H1 & _).
  split.
  - change 0%Z with (py_round 0). by apply py_round_mono.
  - rewrite <- (py_round_inject_Z 1000). by apply py_round_mono.
Qed.

Lemma py_round_top (p : Q) : p <= 1000 → (py_round p = 1000%Z ↔ 1999 # 2 <= p).
Proof.
  intros Hp. destruct (py_round_nearest_even p) as (Hn1 & Hn2 & Hev).
  split.
  - intros E. rewrite E in Hn1. change (inject_Z 1000) with 1000 in Hn1. lra.
  - intros Hlo.
    assert (Hz1 : inject_Z 998 < inject_Z (py_round p))
      by (change (inject_Z 998) with 998; lra).
    assert (Hz2 : inject_Z (py_round p) < inject_Z 1001)
      by (change (inject_Z 1001) with 1001; lra).
    rewrite <- Zlt_Qlt in Hz1, Hz2.
    destruct (Z.eq_dec (py_round p) 999%Z) as [E|Hne]; [| lia].
    exfalso. rewrite E in Hn2, Hev. change (inject_Z 999) with 999 in Hn2, Hev.
    assert (Ep : p == 999 + (1 # 2)) by lra.
    specialize (Hev (or_intror Ep)). done.
Qed.

Local Open Scope Z_scope.

(** X25.  Reading the SRT timestamp of a time [t >= 0] back gives hours,
    minutes below 60, seconds below 60 and milliseconds from 0 to 1000; the
    milliseconds are the integer nearest to the binary64 product of the
    fraction of [t] and 1000, so the four numbers denote [t] within half a
    millisecond and a rounding error below [2^-51] s.  The millisecond
    field is not carried into the seconds: it reads 1000, four digits,
    exactly when that product is 999.5 or more, which is the case whenever
    the fraction of [t] is at least 0.9995 and never when it is below
    0.9995 by more than the rounding error. *)
Theorem srt_ts_round_trip (t : Q) :
  (0 <= t)%Q →
  ∃ h m s ms,
    decode_clock "," (list_ascii_of_string (Transcribe.srt_ts t)) = Some (h, m, s, ms)
    ∧ 0 <= h ∧ 0 <= m < 60 ∧ 0 <= s < 60 ∧ 0 <= ms <= 1000
    ∧ 3600 * h + 60 * m + s = Qfloor t
    ∧ nearest_even (millis_product t) ms
    ∧ (inject_Z (3600 * h + 60 * m + s) + inject_Z ms * (1 # 1000) - (1 # 2000) - pow2 (-51)
         <= t
       ∧ t <= inject_Z (3600 * h + 60 * m + s) + inject_Z ms * (1 # 1000) + (1 # 2000)
               + pow2 (-51))%Q
    ∧ (ms = 1000 ↔ (1999 # 2 <= millis_product t)%Q)
    ∧ ((1999 # 2000 <= t - inject_Z (Qfloor t))%Q → ms = 1000)
    ∧ (ms = 1000 → ((1999 # 2000) - pow2 (-51) <= t - inject_Z (Qfloor t))%Q).
Proof.
  intros Ht. unfold Transcribe.srt_ts.
  destruct (millis_field t Ht) as [Ems Hms]. cbv zeta in Ems, Hms.
  rewrite Ems in Hms |- *. rewrite (py_int_nonneg t Ht).
  destruct (millis_product_range t) as (Hp0 & Hp1 & Herr & Hsuff). cbv zeta in Herr, Hsuff.
  pose proof (py_round_nearest_even (millis_product t)) as Hne.
  pose proof (py_round_top (millis_product t) Hp1) as Htop.
  assert (Hn : 0 <= Qfloor t).
  { change 0 with (Qfloor 0). by apply Qfloor_resp_le. }
  assert (Hnum : (pow2 (-42) * (1 # 1000) <= pow2 (-51))%Q) by (by vm_compute).
  set (n := Qfloor t) in *. set (p := millis_product t) in *.
  set (ms := py_round p) in *.
  exists (n / 3600), (n mod 3600 / 60), (n mod 3600 mod 60), ms.
  assert (Hsum : 3600 * (n / 3600) + 60 * (n mod 3600 / 60) + n mod 3600 mod 60 = n)
    by (Z.to_euclidean_division_equations; lia).
  rewrite list_ascii_of_string_of_list_ascii.
  split.
  { apply decode_clock_fields; [done | | | | lia]; Z.to_euclidean_division_equations; lia. }
  split; [Z.to_euclidean_division_equations; lia |].
  split; [Z.to_euclidean_division_equations; lia |].
  split; [Z.to_euclidean_division_equations; lia |].
  split; [done |]. split; [done |]. split; [done |]. rewrite Hsum.
  destruct Hne as (Hn1 & Hn2 & _).
  assert (Habs : (p - (t - inject_Z n) * 1000 <= pow2 (-42)
                  ∧ (t - inject_Z n) * 1000 - p <= pow2 (-42))%Q).
  { revert Herr. apply Qabs_case; intros ? ?; split; lra. }
  destruct Habs as [Ha1 Ha2].
  clearbody ms p. revert Hnum Ha1 Ha2.
  generalize (pow2 (-42)) (pow2 (-51)). intros p42 p51 Hnum Ha1 Ha2.
  split; [split; lra |]. split; [done |]. split.
  - intros Hfrac. apply Htop. by apply Hsuff.
  - intros E. apply Htop in E. lra.
Qed.

(** X26.  For a time of less than a day, the timestamp [format_ts] prints on
    the console and the one [srt_ts] writes to the SRT file show the same
    four numbers. *)
Theorem format_ts_agrees_with_srt_ts (t : Q) :
  (0 <= t)%Q → (t < 86400)%Q →
  decode_clock "." (list_ascii_of_string (Transcribe.format_ts (Some t)))
  = decode_clock "," (list_ascii_of_string (Transcribe.srt_ts t)).
Proof.
  intros Ht Hday.
  unfold Transcribe.format_ts, Transcribe.srt_ts, Transcribe.timedelta_str.
  destruct (millis_field t Ht) as [_ Hms]. cbv zeta in Hms.
  rewrite (py_int_nonneg t Ht) in Hms |- *.
  assert (Hn : 0 <= Qfloor t < 86400).
  { split.
    - change 0 with (Qfloor 0). by apply Qfloor_resp_le.
    - pose proof (Qfloor_le t) as Hlo.
      assert (H : (inject_Z (Qfloor t) < inject_Z 86400)%Q)
        by (change (inject_Z 86400) with 86400%Q; lra).
      by rewrite <- Zlt_Qlt in H. }
  set (n := Qfloor t) in *.
  set (ms := py_round (b64 (b64 (t - inject_Z n) * 1000))) in *.
  replace (n / 86400) with 0 by (Z.to_euclidean_division_equations; lia).
  replace (n mod 86400) with n by (Z.to_euclidean_division_equations; lia).
  cbn [Z.eqb]. rewrite !list_ascii_of_string_of_list_ascii.
  repeat (rewrite <- app_assoc || rewrite <- app_comm_cons).
  clearbody ms n.
  assert (E1 : n / 60 / 60 = n / 3600) by (Z.to_euclidean_division_equations; lia).
  assert (E2 : (n / 60) mod 60 = n mod 3600 / 60) by (Z.to_euclidean_division_equations; lia).
  assert (E3 : n mod 60 = n mod 3600 mod 60) by (Z.to_euclidean_division_equations; lia).
  rewrite E1, E2, E3.
  rewrite (decode_clock_fields "." 0), (decode_clock_fields "," 2);
    first [done | lia | Z.to_euclidean_division_equations; lia].
Qed.

(** 1 h 2 min 3.25 s. *)
Lemma srt_ts_round_trip_witness :
  ∃ h m s ms,
    decode_clock "," (list_ascii_of_string (Transcribe.srt_ts (14893 # 4)))
    = Some (h, m, s, ms)
    ∧ 0 <= h ∧ 0 <= m < 60 ∧ 0 <= s < 60 ∧ 0 <= ms <= 1000
    ∧ 3600 * h + 60 * m + s = Qfloor (14893 # 4)
    ∧ nearest_even (millis_product (14893 # 4)) ms
    ∧ (inject_Z (3600 * h + 60 * m + s) + inject_Z ms * (1 # 1000) - (1 # 2000) - pow2 (-51)
         <= 14893 # 4
       ∧ 14893 # 4 <= inject_Z (3600 * h + 60 * m + s) + inject_Z ms * (1 # 1000) + (1 # 2000)
                       + pow2 (-51))%Q
    ∧ (ms = 1000 ↔ (1999 # 2 <= millis_product (14893 # 4))%Q)
    ∧ ((1999 # 2000 <= (14893 # 4) - inject_Z (Qfloor (14893 # 4)))%Q → ms = 1000)
    ∧ (ms = 1000 → ((1999 # 2000) - pow2 (-51) <= (14893 # 4) - inject_Z (Qfloor (14893 # 4)))%Q).
Proof. apply (srt_ts_round_trip (14893 # 4)). by vm_compute. Defined.

Lemma format_ts_agrees_with_srt_ts_witness :
  decode_clock "." (list_ascii_of_string (Transcribe.format_ts (Some (14893 # 4))))
  = decode_clock "," (list_ascii_of_string (Transcribe.srt_ts (14893 # 4))).
Proof. apply (format_ts_agrees_with_srt_ts (14893 # 4)); by vm_compute. Defined.

(** The timestamps of some doubles: 0.9995 and its predecessor read 1000
    milliseconds, the double before that 999; 1.8765, a double above the
    tie whose fraction times 1000 rounds to the tie 876.5, reads 876. *)
Example srt_ts_of_doubles :
  Transcribe.srt_ts (4501347827556811 # 4503599627370496) = "00:00:00,1000"%string
  ∧ Transcribe.srt_ts (9002695655113621 # 9007199254740992) = "00:00:00,1000"%string
  ∧ Transcribe.srt_ts (2250673913778405 # 2251799813685248) = "00:00:00,999"%string
  ∧ Transcribe.srt_ts (264093896898773 # 140737488355328) = "00:00:01,876"%string
  ∧ Transcribe.srt_ts (14893 # 4) = "01:02:03,250"%string
  ∧ Transcribe.srt_ts (4222089466287751 # 70368744177664) = "00:00:59,999"%string
  ∧ Transcribe.srt_ts (848388532111147 # 68719476736) = "03:25:45,678"%string
  ∧ Transcribe.format_ts (Some (14893 # 4)) = "1:02:03.250"%string.
Proof. repeat split; by vm_compute. Qed.
